(** * Traceroute-to-BGP translation: hop classification, message processing
      and run statistics of [traceroute_dependency/traceroute_to_bgp.py]. *)

From stdpp Require Import base decidable option list sets gmap strings pretty sorting.
From Stdlib Require Import ZArith QArith Lia.

Local Open Scope Z_scope.

(** ** Python values and primitives used by the module *)

Module Py.

(** Exceptions the modelled functions can let escape. *)
Inductive Exn :=
| KeyError (key : string)
| ZeroDivisionError.

(** The result of a call: a returned value or a raised exception. *)
Inductive Outcome (A : Type) :=
| Return (a : A)
| Raise (e : Exn).
Global Arguments Return {A} a.
Global Arguments Raise {A} e.

Definition returns {A} (o : Outcome A) : Prop :=
  match o with Return _ => True | Raise _ => False end.

Global Instance returns_dec {A} (o : Outcome A) : Decision (returns o).
Proof. destruct o; simpl; apply _. Defined.

(** A value that is either a [str] or an [int] (the [err] field of a reply). *)
Inductive Val :=
| Str (s : string)
| Int (z : Z).

(** [str(v)] *)
Definition str (v : Val) : string :=
  match v with
  | Str s => s
  | Int z => pretty z
  end.

(** [sorted(s)] for a set of strings: ascending in the order of [str]. *)
Definition sorted (s : gset string) : list string :=
  merge_sort String.le (elements s).

(** [sep.join(l)] *)
Definition join (sep : string) (l : list string) : string :=
  String.concat sep l.

(** Truthiness of a string: the empty string is falsy. *)
Definition truthy (s : string) : bool :=
  match s with "" => false | _ => true end.

End Py.
Import Py.

(** ** Input records *)

(** One reply of a hop.  A field is [None] when the key is absent. *)
Record Reply := mkReply {
  r_error : option string;   (* 'error': sending this probe failed *)
  r_err   : option Val;      (* 'err': ICMP error code, str or int *)
  r_from  : option string;   (* 'from' *)
  r_x     : option string    (* 'x': timeout marker *)
}.

(** One hop of a traceroute. *)
Record Hop := mkHop {
  h_error  : option string;        (* 'error' *)
  h_result : option (list Reply);  (* 'result' *)
  h_hop    : option Z              (* 'hop' *)
}.

(** One traceroute result message. *)
Record Msg := mkMsg {
  m_msm_id   : option Z;
  m_prb_id   : option Z;
  m_from     : option string;
  m_dst_addr : option string;
  m_result   : option (list Hop)
}.

(** The lookup service: [ip2asn] gives ['0'] and [ip2prefix] a falsy value
    (here the empty string) when nothing is known, [ip2ixpid] gives 0 for an
    address that is not on an IXP. *)
Record IPLookup := mkLookup {
  ip2asn    : string → string;
  ip2prefix : string → string;
  ip2ixpid  : string → Z
}.

(** ** Run statistics *)

(** The module-level [stats] dictionary: integer counters by name and the
    set of scopes.  Every counter name is present from the start. *)
Record Stats := mkStats {
  counters : gmap string Z;
  scopes   : gset string
}.

Definition counter_names : list string :=
  [ "total"; "no_dst_addr"; "no_dst_asn"; "no_prefix"; "no_from";
    "no_peer_asn"; "duplicate"; "changed_ip"; "accepted"; "dnf";
    "empty_path"; "end_as_in_path"; "start_as_in_path"; "single_as"; "used";
    "too_many_hops"; "errors"; "start_as_missing"; "end_as_missing";
    "ixp_in_path"; "as_set" ].

Definition stats0 : Stats :=
  {| counters := list_to_map ((λ k, (k, 0)) <$> counter_names);
     scopes := ∅ |}.

(** [stats[k]] *)
Definition get (k : string) (st : Stats) : Z := counters st !!! k.

(** [stats[k] += 1] *)
Definition incr (k : string) (st : Stats) : Stats :=
  {| counters := <[k := get k st + 1]> (counters st); scopes := scopes st |}.

(** [stats['scopes'].add(asn)] *)
Definition add_scope (asn : string) (st : Stats) : Stats :=
  {| counters := counters st; scopes := {[asn]} ∪ scopes st |}.

(** ** The path accumulator interface *)

(** An element of a path: a single token, or a tuple of tokens for a hop
    that answered from several addresses. *)
Inductive PathElem :=
| Tok (s : string)
| TokSet (l : list string).

(** The methods of [ASPath] that this module calls.  The class itself lives
    in [traceroute_dependency/utils/as_path.py]; the functions below are
    stated for every implementation of this interface. *)
Class ASPathOps := {
  ASPath : Type;
  Attributes : Type;
  new_path : ASPath;
  set_start_end_asn : string → string → ASPath → ASPath;
  append : string → string → bool → ASPath → ASPath;
  append_set : list string → list string → bool → ASPath → ASPath;
  mark_hop_error : string → ASPath → ASPath;
  flag_too_many_hops : ASPath → ASPath;
  contains_ip : string → ASPath → bool;
  get_reduced_path :
    Stats → ASPath → (list PathElem * list PathElem * Z) * Stats * ASPath;
  get_raw_path : ASPath → list PathElem * list PathElem;
  has_too_many_hops : ASPath → bool;
  has_errors : ASPath → bool;
  get_reduced_ixp_indexes : ASPath → list Z;
  get_raw_ixp_indexes : ASPath → list Z;
  attributes : ASPath → Attributes
}.

(** ** [process_hop] *)

Section process_hop.
Context `{ASPathOps}.
Variable lookup : IPLookup.

(** State of the loop over the replies of one hop. *)
Inductive Scan :=
| Scanned (reply_addresses errors_in_hop : gset string)
| SendFailed.

(** One iteration of [for reply in replies]. *)
Definition scan_reply (path : ASPath) (reply : Reply)
    (reply_addresses errors_in_hop : gset string) : Scan :=
  if bool_decide (is_Some (r_error reply)) then SendFailed
  else if bool_decide (is_Some (r_err reply))
          && from_option (λ a, contains_ip a path) false (r_from reply)
  then Scanned reply_addresses errors_in_hop
  else if bool_decide (is_Some (r_x reply))
  then Scanned ({["*"]} ∪ reply_addresses) errors_in_hop
  else match r_from reply with
       | None => Scanned ({["*"]} ∪ reply_addresses) errors_in_hop
       | Some a =>
         let errors_in_hop :=
           match r_err reply with
           | Some e => {[str e]} ∪ errors_in_hop
           | None => errors_in_hop
           end in
         Scanned ({[a]} ∪ reply_addresses) errors_in_hop
       end.

Fixpoint scan_replies (path : ASPath) (replies : list Reply)
    (reply_addresses errors_in_hop : gset string) : Scan :=
  match replies with
  | [] => Scanned reply_addresses errors_in_hop
  | reply :: replies =>
    match scan_reply path reply reply_addresses errors_in_hop with
    | SendFailed => SendFailed
    | Scanned reply_addresses errors_in_hop =>
      scan_replies path replies reply_addresses errors_in_hop
    end
  end.

(** The loop [for address in sorted(reply_addresses)] that builds the two
    lists and the IXP flag of a hop with several addresses. *)
Fixpoint build_set (addresses : list string)
    (as_set ip_set : list string) (contains_ixp : bool)
    : list string * list string * bool :=
  match addresses with
  | [] => (as_set, ip_set, contains_ixp)
  | address :: addresses =>
    let ixp := ip2ixpid lookup address in
    if bool_decide (ixp ≠ 0) then
      let as_set := as_set ++ ["ix|" +:+ pretty ixp] in
      let as_set :=
        as_set ++ ["ix|" +:+ pretty ixp +:+ ";as|" +:+ ip2asn lookup address] in
      let as_set := as_set ++ ["ip|" +:+ address] in
      let ip_set := ip_set ++ [address; address; address] in
      build_set addresses
        (as_set ++ ["as|" +:+ ip2asn lookup address]) (ip_set ++ [address]) true
    else
      build_set addresses
        (as_set ++ ["as|" +:+ ip2asn lookup address]) (ip_set ++ [address])
        contains_ixp
  end.

(** The branch for a hop with one address left. *)
Definition append_single (address : string) (errors_in_hop : gset string)
    (error_str : string) (path : ASPath) : ASPath :=
  if bool_decide (address = "*") then append "as|0" "*" false path
  else
    let path :=
      if bool_decide (errors_in_hop ≠ ∅) then mark_hop_error error_str path
      else path in
    let ixp := ip2ixpid lookup address in
    let path :=
      if bool_decide (ixp ≠ 0) then
        let path := append ("ix|" +:+ pretty ixp) address true path in
        let path :=
          append ("ix|" +:+ pretty ixp +:+ ";as|" +:+ ip2asn lookup address)
                 address true path in
        append ("ip|" +:+ address) address true path
      else path in
    append ("as|" +:+ ip2asn lookup address) address false path.

(** [if len(reply_addresses) > 1: reply_addresses.discard('*')] *)
Definition discard_placeholder (reply_addresses : gset string) : gset string :=
  if bool_decide (1 < size reply_addresses)%nat
  then reply_addresses ∖ {["*"]} else reply_addresses.

(** The part of [process_hop] after the TTL check: drop the placeholder
    when a real address is present, then append a set or a single hop. *)
Definition classify (reply_addresses errors_in_hop : gset string)
    (path : ASPath) : Outcome bool * ASPath :=
  let reply_addresses := discard_placeholder reply_addresses in
  let error_str := join " " (sorted errors_in_hop) in
  if bool_decide (1 < size reply_addresses)%nat then
    let '(as_set, ip_set, contains_ixp) :=
      build_set (sorted reply_addresses) [] [] false in
    let path :=
      if bool_decide (errors_in_hop ≠ ∅) then mark_hop_error error_str path
      else path in
    (Return false, append_set as_set ip_set contains_ixp path)
  else
    match elements reply_addresses with
    | [] => (Raise (KeyError "pop from an empty set"), path)
    | address :: _ =>
      (Return false, append_single address errors_in_hop error_str path)
    end.

Definition process_hop (hop : Hop) (st : Stats) (path : ASPath)
    : Outcome bool * Stats * ASPath :=
  if bool_decide (is_Some (h_error hop)) then
    (Return true, incr "dnf" st, path)
  else
    match h_result hop with
    | None => (Raise (KeyError "result"), st, path)
    | Some replies =>
      match scan_replies path replies ∅ ∅ with
      | SendFailed => (Return true, incr "dnf" st, path)
      | Scanned reply_addresses errors_in_hop =>
        if bool_decide (size reply_addresses = 0%nat) then
          (Return true, incr "dnf" st, path)
        else
          match h_hop hop with
          | None => (Return true, incr "dnf" st, path)
          | Some ttl =>
            if bool_decide (ttl = 255) then
              let path := append "as|0" "*" false path in
              (Return false, st, flag_too_many_hops path)
            else
              let '(r, path) := classify reply_addresses errors_in_hop path in
              (r, st, path)
          end
      end
    end.

End process_hop.

(** ** [process_message] and the messages of a run *)

(** The run-scoped mutable state: the module globals [stats] and
    [probe_ip_map], and the set [seen_peer_prefixes] that [main] creates and
    passes to every call. *)
Record Run := mkRun {
  stats : Stats;
  probe_ip_map : gmap Z string;
  seen_peer_prefixes : gset (string * string)
}.

Definition run0 : Run :=
  {| stats := stats0; probe_ip_map := ∅; seen_peer_prefixes := ∅ |}.

Definition with_stats (st : Stats) (run : Run) : Run :=
  {| stats := st;
     probe_ip_map := probe_ip_map run;
     seen_peer_prefixes := seen_peer_prefixes run |}.

(** The dictionary returned for a message that is used.  [dict()] is
    modelled by [None] at the call sites. *)
Record OutputRecord (Attributes : Type) := mkOutput {
  rec_status : string;
  rec_time : Z;
  el_type : string;
  peer_address : string;
  peer_asn : string;
  prb_id : Z;
  as_path : list PathElem;
  ip_path : list PathElem;
  ixp_path_indexes : list Z;
  full_as_path : list PathElem;
  full_ip_path : list PathElem;
  full_ixp_path_indexes : list Z;
  prefix : string;
  path_attributes : Attributes
}.
Global Arguments mkOutput {_}.
Global Arguments rec_status {_}.
Global Arguments rec_time {_}.
Global Arguments el_type {_}.
Global Arguments peer_address {_}.
Global Arguments peer_asn {_}.
Global Arguments prb_id {_}.
Global Arguments as_path {_}.
Global Arguments ip_path {_}.
Global Arguments ixp_path_indexes {_}.
Global Arguments full_as_path {_}.
Global Arguments full_ip_path {_}.
Global Arguments full_ixp_path_indexes {_}.
Global Arguments prefix {_}.
Global Arguments path_attributes {_}.

Section process_message.
Context `{ASPathOps}.
Variable lookup : IPLookup.
(** [atlas_api_helper.get_dst_addr]; a falsy result is the empty string. *)
Variable get_dst_addr : Msg → string.

(** [for hop in traceroute: if process_hop(...): return dict()];
    [Return true] stands for the early return. *)
Fixpoint process_hops (traceroute : list Hop) (st : Stats) (path : ASPath)
    : Outcome bool * Stats * ASPath :=
  match traceroute with
  | [] => (Return false, st, path)
  | hop :: traceroute =>
    match process_hop lookup hop st path with
    | (Return false, st, path) => process_hops traceroute st path
    | r => r
    end
  end.

(** The condition of the first [if]:
    [msm_ids is not None and msg['msm_id'] not in msm_ids
     or probe_ids is not None and msg['prb_id'] not in probe_ids]. *)
Definition filtered_out (msg : Msg) (msm_ids probe_ids : option (gset Z))
    : Outcome bool :=
  let by_probe :=
    match probe_ids with
    | None => Return false
    | Some ids =>
      match m_prb_id msg with
      | None => Raise (KeyError "prb_id")
      | Some p => Return (bool_decide (p ∉ ids))
      end
    end in
  match msm_ids with
  | None => by_probe
  | Some ids =>
    match m_msm_id msg with
    | None => Raise (KeyError "msm_id")
    | Some m => if bool_decide (m ∉ ids) then Return true else by_probe
    end
  end.

(** The part of [process_message] after the duplicate check: the probe
    address bookkeeping, the hops, the reduction and the record. *)
Definition translate (msg : Msg) (msg_from peer_asn dst_asn prefix : string)
    (unified_timestamp : Z) (st : Stats) (run : Run)
    : Outcome (option (OutputRecord Attributes)) * Run :=
  match m_prb_id msg with
  | None => (Raise (KeyError "prb_id"), with_stats st run)
  | Some prb =>
    let st :=
      match probe_ip_map run !! prb with
      | Some ip =>
        if bool_decide (msg_from ≠ ip) then incr "changed_ip" st else st
      | None => st
      end in
    let run :=
      {| stats := st;
         probe_ip_map := <[prb := msg_from]> (probe_ip_map run);
         seen_peer_prefixes := seen_peer_prefixes run |} in
    let st := incr "accepted" st in
    let path := set_start_end_asn peer_asn dst_asn new_path in
    match m_result msg with
    | None => (Raise (KeyError "result"), with_stats st run)
    | Some traceroute =>
      match process_hops traceroute st path with
      | (Raise e, st, _) => (Raise e, with_stats st run)
      | (Return true, st, _) => (Return None, with_stats st run)
      | (Return false, st, path) =>
        let '(reduced_path, reduced_ip_path, reduced_path_len, st, path) :=
          get_reduced_path st path in
        if bool_decide (reduced_path_len = 0) then
          (Return None, with_stats st run)
        else if bool_decide (reduced_path_len = 1) then
          (Return None, with_stats (incr "single_as" st) run)
        else
          let '(raw_path, raw_ip_path) := get_raw_path path in
          let st := incr "used" st in
          let st :=
            if has_too_many_hops path then incr "too_many_hops" st else st in
          let st := if has_errors path then incr "errors" st else st in
          let ret :=
            {| rec_status := "valid";
               rec_time := unified_timestamp;
               el_type := "R";
               peer_address := msg_from;
               peer_asn := peer_asn;
               prb_id := prb;
               as_path := reduced_path;
               ip_path := reduced_ip_path;
               ixp_path_indexes := get_reduced_ixp_indexes path;
               full_as_path := raw_path;
               full_ip_path := raw_ip_path;
               full_ixp_path_indexes := get_raw_ixp_indexes path;
               prefix := prefix;
               path_attributes := attributes path |} in
          let st :=
            match get_reduced_ixp_indexes path with
            | [] => st
            | _ :: _ => incr "ixp_in_path" st
            end in
          let st :=
            if bool_decide (dst_asn ∉ scopes st) then add_scope dst_asn st
            else st in
          (Return (Some ret),
           {| stats := st;
              probe_ip_map := probe_ip_map run;
              seen_peer_prefixes :=
                {[(msg_from, prefix)]} ∪ seen_peer_prefixes run |})
      end
    end
  end.

Definition process_message (msg : Msg) (unified_timestamp : Z)
    (msm_ids probe_ids : option (gset Z)) (target_asn : option string)
    (include_duplicates : bool) (run : Run)
    : Outcome (option (OutputRecord Attributes)) * Run :=
  match filtered_out msg msm_ids probe_ids with
  | Raise e => (Raise e, run)
  | Return true => (Return None, run)
  | Return false =>
    let st := incr "total" (stats run) in
    let dst_addr := get_dst_addr msg in
    if negb (truthy dst_addr) then
      (Return None, with_stats (incr "no_dst_addr" st) run)
    else
    let dst_asn := ip2asn lookup dst_addr in
    if bool_decide (dst_asn = "0") then
      (Return None, with_stats (incr "no_dst_asn" st) run)
    else if bool_decide (is_Some target_asn ∧ Some dst_asn ≠ target_asn) then
      (Return None, with_stats st run)
    else
    let prefix := ip2prefix lookup dst_addr in
    if negb (truthy prefix) then
      (Return None, with_stats (incr "no_prefix" st) run)
    else
    match m_from msg with
    | None => (Return None, with_stats (incr "no_from" st) run)
    | Some msg_from =>
      if negb (truthy msg_from) then
        (Return None, with_stats (incr "no_from" st) run)
      else
      let peer_asn := ip2asn lookup msg_from in
      if bool_decide (peer_asn = "0") then
        (Return None, with_stats (incr "no_peer_asn" st) run)
      else
      let peer_prefix_tuple := (msg_from, prefix) in
      if bool_decide (peer_prefix_tuple ∈ seen_peer_prefixes run)
         && negb include_duplicates then
        (Return None, with_stats (incr "duplicate" st) run)
      else
        translate msg msg_from peer_asn dst_asn prefix unified_timestamp st run
    end
  end.

(** The messages of a run, processed in the order read, as the loop of
    [main] does up to its test [if not data: continue]: an empty result is
    passed over, and an exception raised by [process_message] ends the loop
    and leaves the remaining messages unread.  [returned] collects the
    non-empty results, each with the probe id it carries.  What [main] does
    with a result after the test, the key as four bytes and the write, can
    end the run as well: the whole loop is [main_loop] below. *)
Fixpoint read_loop (msgs : list Msg) (unified_timestamp : Z)
    (msm_ids probe_ids : option (gset Z)) (target_asn : option string)
    (include_duplicates : bool) (run : Run)
    (returned : list (Z * OutputRecord Attributes))
    : Outcome unit * Run * list (Z * OutputRecord Attributes) :=
  match msgs with
  | [] => (Return (), run, returned)
  | msg :: msgs =>
    match process_message msg unified_timestamp msm_ids probe_ids target_asn
                          include_duplicates run with
    | (Raise e, run) => (Raise e, run, returned)
    | (Return None, run) =>
      read_loop msgs unified_timestamp msm_ids probe_ids target_asn
                include_duplicates run returned
    | (Return (Some data), run) =>
      read_loop msgs unified_timestamp msm_ids probe_ids target_asn
                include_duplicates run (returned ++ [(prb_id data, data)])
    end
  end.

End process_message.

(** ** [print_stats] *)

(** One printed row: the label, the count and the percentage columns.  The
    percentages are kept as exact rationals; the formatting to two decimals
    is not modelled. *)
Definition Row : Type := string * Z * list Q.

(** [100 / n] on integers: true division, which raises on a zero divisor. *)
Definition percent_of (n : Z) : Outcome Q :=
  if bool_decide (n = 0) then Raise ZeroDivisionError
  else Return (100 / inject_Z n)%Q.

Definition print_stats (st : Stats) : Outcome (list Row) :=
  if bool_decide (get "total" st = 0) then Return [("No values.", 0, [])]
  else
    match percent_of (get "total" st) with
    | Raise e => Raise e
    | Return p_total =>
    match percent_of (get "accepted" st) with
    | Raise e => Raise e
    | Return p_accepted =>
    match percent_of (get "used" st) with
    | Raise e => Raise e
    | Return p_used =>
      let n k := get k st in
      let q k := inject_Z (get k st) in
      let row1 label k := (label, n k, [p_total * q k])%Q in
      let row2 label k := (label, n k, [p_total * q k; p_accepted * q k])%Q in
      let row3 label k :=
        (label, n k, [p_total * q k; p_accepted * q k; p_used * q k])%Q in
      Return
        [ ("Total", n "total", [100%Q]);
          row1 "No dst_addr" "no_dst_addr";
          row1 "No dst_asn" "no_dst_asn";
          row1 "No prefix" "no_prefix";
          row1 "No from" "no_from";
          row1 "No peer_asn" "no_peer_asn";
          row1 "Duplicates" "duplicate";
          row1 "Changed IP" "changed_ip";
          ("Accepted", n "accepted", [p_total * q "accepted"; 100%Q])%Q;
          row2 "DNF" "dnf";
          row2 "Empty path" "empty_path";
          row2 "Start AS in path" "start_as_in_path";
          row2 "End AS in path" "end_as_in_path";
          row2 "Single AS" "single_as";
          ("Used", n "used",
           [p_total * q "used"; p_accepted * q "used"; 100%Q])%Q;
          row3 "Too many hops" "too_many_hops";
          row3 "With errors" "errors";
          row3 "Start AS missing" "start_as_missing";
          row3 "End AS Missing" "end_as_missing";
          row3 "IXP in path" "ixp_in_path";
          row3 "AS set in path" "as_set";
          ("Scopes", Z.of_nat (size (scopes st)), []) ]
    end end end.

(** ** A path accumulator following the specification *)

Module SpecPath.

(** Modelled from the spec: the class [ASPath] of
    [traceroute_dependency/utils/as_path.py] is not among the sources.
    The state holds the start and end ASN, the raw entries with the
    parallel IP entries, the raw positions that are IXP-derived, the
    error annotations by raw position, the too-many-hops flag and the set
    of addresses seen in this path. *)
Record t := mk {
  start_asn : string;
  end_asn : string;
  raw_entries : list PathElem;
  raw_ip_entries : list PathElem;
  ixp_raw_indexes : list Z;
  annotations : list (Z * string);
  too_many_hops : bool;
  seen_addresses : gset string
}.

Definition empty : t :=
  {| start_asn := ""; end_asn := ""; raw_entries := []; raw_ip_entries := [];
     ixp_raw_indexes := []; annotations := []; too_many_hops := false;
     seen_addresses := ∅ |}.

Definition position (p : t) : Z := Z.of_nat (length (raw_entries p)).

(** Modelled from the spec: [set_start_end_asn] stores the peer and the
    destination AS. *)
Definition set_start_end (s e : string) (p : t) : t :=
  {| start_asn := s; end_asn := e; raw_entries := raw_entries p;
     raw_ip_entries := raw_ip_entries p; ixp_raw_indexes := ixp_raw_indexes p;
     annotations := annotations p; too_many_hops := too_many_hops p;
     seen_addresses := seen_addresses p |}.

(** Modelled from the spec: pushing one position onto the raw path, its
    IP entry onto the parallel sequence, the position onto the IXP
    indexes when asked, and the real addresses onto the seen set. *)
Definition push (e ip : PathElem) (ixp : bool) (real : gset string) (p : t) : t :=
  {| start_asn := start_asn p; end_asn := end_asn p;
     raw_entries := raw_entries p ++ [e];
     raw_ip_entries := raw_ip_entries p ++ [ip];
     ixp_raw_indexes :=
       if ixp then ixp_raw_indexes p ++ [position p] else ixp_raw_indexes p;
     annotations := annotations p; too_many_hops := too_many_hops p;
     seen_addresses := (real ∖ {["*"]}) ∪ seen_addresses p |}.

(** Modelled from the spec: [append] adds one token with its address. *)
Definition append1 (token ip : string) (ixp : bool) (p : t) : t :=
  push (Tok token) (Tok ip) ixp {[ip]} p.

(** Modelled from the spec: [append_set] adds the whole tuple as one
    position. *)
Definition append_tuple (as_set ip_set : list string) (contains_ixp : bool)
    (p : t) : t :=
  push (TokSet as_set) (TokSet ip_set) contains_ixp (list_to_set ip_set) p.

(** Modelled from the spec: [mark_hop_error] records the annotation
    against the position that is about to be appended. *)
Definition mark_error (code : string) (p : t) : t :=
  {| start_asn := start_asn p; end_asn := end_asn p;
     raw_entries := raw_entries p; raw_ip_entries := raw_ip_entries p;
     ixp_raw_indexes := ixp_raw_indexes p;
     annotations := annotations p ++ [(position p, code)];
     too_many_hops := too_many_hops p; seen_addresses := seen_addresses p |}.

(** Modelled from the spec: [flag_too_many_hops]. *)
Definition flag (p : t) : t :=
  {| start_asn := start_asn p; end_asn := end_asn p;
     raw_entries := raw_entries p; raw_ip_entries := raw_ip_entries p;
     ixp_raw_indexes := ixp_raw_indexes p; annotations := annotations p;
     too_many_hops := true; seen_addresses := seen_addresses p |}.

(** Modelled from the spec: two path elements are the same token when they
    are the same string, or tuples with the same set of tokens. *)
Definition same_elem (a b : PathElem) : bool :=
  match a, b with
  | Tok x, Tok y => bool_decide (x = y)
  | TokSet x, TokSet y =>
    bool_decide (list_to_set x =@{gset string} list_to_set y)
  | _, _ => false
  end.

(** Modelled from the spec: collapsing strictly consecutive duplicates,
    keeping the first occurrence with its IP entry and IXP mark. *)
Fixpoint collapse (l : list (PathElem * PathElem * bool))
    : list (PathElem * PathElem * bool) :=
  match l with
  | [] => []
  | x :: l =>
    match l with
    | y :: _ => if same_elem x.1.1 y.1.1 then
                  x :: tail (collapse l)
                else x :: collapse l
    | [] => [x]
    end
  end.

Definition marked (p : t) : list (PathElem * PathElem * bool) :=
  imap (λ i '(e, ip), (e, ip, bool_decide (Z.of_nat i ∈ ixp_raw_indexes p)))
       (zip (raw_entries p) (raw_ip_entries p)).

Definition reduced (p : t) : list (PathElem * PathElem * bool) :=
  collapse (marked p).

Definition is_timeout (e : PathElem) : bool :=
  match e with Tok s => bool_decide (s = "as|0") | TokSet _ => false end.

Definition is_set (e : PathElem) : bool :=
  match e with Tok _ => false | TokSet _ => true end.

(** Modelled from the spec: the length of the reduced path does not count
    the timeout placeholder. *)
Definition reduced_len (p : t) : Z :=
  Z.of_nat (length (filter (λ x : PathElem * PathElem * bool,
                              is_timeout x.1.1 = false) (reduced p))).

Definition reduced_ixp (p : t) : list Z :=
  omap id (imap (λ i (x : PathElem * PathElem * bool),
                   if x.2 then Some (Z.of_nat i) else None)
                (reduced p)).

Global Instance path_elem_eq_dec : EqDecision PathElem.
Proof. solve_decision. Defined.

Definition incr_if (b : bool) (k : string) (st : Stats) : Stats :=
  if b then incr k st else st.

(** Modelled from the spec: the statistics that the reduction updates. *)
Definition reduce_stats (p : t) (st : Stats) : Stats :=
  let toks := (λ x : PathElem * PathElem * bool, x.1.1) <$> reduced p in
  let s := Tok ("as|" +:+ start_asn p) in
  let e := Tok ("as|" +:+ end_asn p) in
  let st := incr_if (bool_decide (reduced_len p = 0)) "empty_path" st in
  let st := incr_if (bool_decide (reduced_len p = 1)) "single_as" st in
  let st := incr_if (bool_decide (s ∈ tail toks)) "start_as_in_path" st in
  let st := incr_if (bool_decide (e ∈ removelast toks)) "end_as_in_path" st in
  let st := incr_if (bool_decide (s ∉ toks)) "start_as_missing" st in
  let st := incr_if (bool_decide (e ∉ toks)) "end_as_missing" st in
  incr_if (existsb is_set toks) "as_set" st.

(** Modelled from the spec: [get_reduced_path] leaves the path as it is. *)
Definition reduce (st : Stats) (p : t)
    : (list PathElem * list PathElem * Z) * Stats * t :=
  (((λ x : PathElem * PathElem * bool, x.1.1) <$> reduced p,
    (λ x : PathElem * PathElem * bool, x.1.2) <$> reduced p, reduced_len p),
   reduce_stats p st, p).

Global Instance ops : ASPathOps := {|
  ASPath := t;
  Attributes := list (Z * string);
  new_path := empty;
  set_start_end_asn := set_start_end;
  append := append1;
  append_set := append_tuple;
  mark_hop_error := mark_error;
  flag_too_many_hops := flag;
  contains_ip := λ ip p, bool_decide (ip ∈ seen_addresses p);
  get_reduced_path := reduce;
  get_raw_path := λ p, (raw_entries p, raw_ip_entries p);
  has_too_many_hops := too_many_hops;
  has_errors := λ p, bool_decide (annotations p ≠ []);
  get_reduced_ixp_indexes := reduced_ixp;
  get_raw_ixp_indexes := ixp_raw_indexes;
  attributes := annotations
|}.

End SpecPath.

(** ** Vocabulary of the statements *)

Section vocabulary.
Context `{ASPathOps}.
Variable lookup : IPLookup.
Variable get_dst_addr : Msg → string.

(** What a hop shows once it has passed every check that ends the path:
    no send failure on the hop or on a reply, a [result], at least one
    observed address and a TTL.  The TTL comes with the two sets that the
    loop over the replies has collected. *)
Definition hop_observation (path : ASPath) (hop : Hop)
    : option (Z * gset string * gset string) :=
  match h_error hop, h_result hop, h_hop hop with
  | None, Some replies, Some ttl =>
    match scan_replies path replies ∅ ∅ with
    | Scanned reply_addresses errors_in_hop =>
      if bool_decide (reply_addresses = ∅) then None
      else Some (ttl, reply_addresses, errors_in_hop)
    | SendFailed => None
    end
  | _, _, _ => None
  end.

(** The path tokens and the addresses that one member of a multi-address
    hop contributes. *)
Definition member_tokens (address : string) : list string :=
  let ixp := ip2ixpid lookup address in
  if bool_decide (ixp ≠ 0) then
    [ "ix|" +:+ pretty ixp;
      "ix|" +:+ pretty ixp +:+ ";as|" +:+ ip2asn lookup address;
      "ip|" +:+ address;
      "as|" +:+ ip2asn lookup address ]
  else [ "as|" +:+ ip2asn lookup address ].

Definition member_addresses (address : string) : list string :=
  if bool_decide (ip2ixpid lookup address ≠ 0)
  then [address; address; address; address] else [address].

Definition member_slots (address : string) : nat :=
  if bool_decide (ip2ixpid lookup address ≠ 0) then 4%nat else 1%nat.

(** A reply that the loop registers with its address: it has no timeout
    marker, names
    its source, and is not an error reply from an address already in the
    path. *)
Definition usable (path : ASPath) (reply : Reply) : bool :=
  bool_decide (r_x reply = None)
  && from_option
       (λ a, negb (bool_decide (is_Some (r_err reply)) && contains_ip a path))
       false (r_from reply).

(** The key under which a message is deduplicated. *)
Definition dedup_key (msg : Msg) : string * string :=
  (default "" (m_from msg), ip2prefix lookup (get_dst_addr msg)).

(** The message passes the filters and every resolution step that comes
    before the duplicate check. *)
Definition resolves (msg : Msg) (msm_ids probe_ids : option (gset Z))
    (target_asn : option string) : bool :=
  match filtered_out msg msm_ids probe_ids with
  | Return false =>
    truthy (get_dst_addr msg)
    && bool_decide (ip2asn lookup (get_dst_addr msg) ≠ "0")
    && from_option (λ t, bool_decide (ip2asn lookup (get_dst_addr msg) = t))
                   true target_asn
    && truthy (ip2prefix lookup (get_dst_addr msg))
    && from_option truthy false (m_from msg)
    && bool_decide (ip2asn lookup (default "" (m_from msg)) ≠ "0")
  | _ => false
  end.

(** The message is not stopped by the duplicate check either. *)
Definition passes_duplicate_check (msg : Msg)
    (msm_ids probe_ids : option (gset Z)) (target_asn : option string)
    (include_duplicates : bool) (run : Run) : bool :=
  resolves msg msm_ids probe_ids target_asn
  && negb (bool_decide (dedup_key msg ∈ seen_peer_prefixes run)
           && negb include_duplicates).

(** Every field that [process_message] reads without a guard is there. *)
Definition hop_has_fields (hop : Hop) : bool :=
  bool_decide (is_Some (h_error hop)) || bool_decide (is_Some (h_result hop)).

Definition has_fields (msg : Msg) (msm_ids : option (gset Z)) : bool :=
  (bool_decide (msm_ids = None) || bool_decide (is_Some (m_msm_id msg)))
  && bool_decide (is_Some (m_prb_id msg))
  && from_option (forallb hop_has_fields) false (m_result msg).

End vocabulary.

(** The counters that the reduction of a path may change. *)
Definition reducer_counters : list string :=
  [ "empty_path"; "single_as"; "start_as_in_path"; "end_as_in_path";
    "start_as_missing"; "end_as_missing"; "as_set" ].

(** The reduction leaves every other counter and the scopes alone. *)
Class ReducerFrame `{ASPathOps} := {
  reducer_keeps_counter st p k :
    k ∉ reducer_counters → get k (get_reduced_path st p).1.2 = get k st;
  reducer_keeps_scopes st p :
    scopes (get_reduced_path st p).1.2 = scopes st
}.

(** ** Example inputs *)

Module Examples.

Definition lookup : IPLookup :=
  {| ip2asn := λ a,
       if bool_decide (a = "192.0.2.1") then "64500"
       else if bool_decide (a = "198.51.100.7") then "64501"
       else if bool_decide (a = "203.0.113.9") then "64502"
       else if bool_decide (a = "203.0.113.77") then "64503"
       else "0";
     ip2prefix := λ a,
       if bool_decide (a = "198.51.100.7") then "198.51.100.0/24"
       else if bool_decide (a = "203.0.113.77") then "203.0.113.0/24"
       else "";
     ip2ixpid := λ a, if bool_decide (a = "203.0.113.9") then 7 else 0 |}.

Definition get_dst_addr (msg : Msg) : string := default "" (m_dst_addr msg).

Definition answer (a : string) : Reply :=
  {| r_error := None; r_err := None; r_from := Some a; r_x := None |}.
Definition icmp_error (a : string) (e : Val) : Reply :=
  {| r_error := None; r_err := Some e; r_from := Some a; r_x := None |}.
Definition timeout : Reply :=
  {| r_error := None; r_err := None; r_from := None; r_x := Some "*" |}.
Definition send_failed : Reply :=
  {| r_error := Some "sendto failed"; r_err := None; r_from := None;
     r_x := None |}.

Definition hop_of (ttl : Z) (replies : list Reply) : Hop :=
  {| h_error := None; h_result := Some replies; h_hop := Some ttl |}.

(** Hops of the examples. *)
Definition hop_peer : Hop := hop_of 1 [answer "192.0.2.1"; timeout].
Definition hop_ixp : Hop := hop_of 2 [answer "203.0.113.9"; answer "203.0.113.9"].
Definition hop_two : Hop :=
  hop_of 3 [answer "203.0.113.9"; answer "203.0.113.77"; timeout].
Definition hop_dst : Hop := hop_of 4 [answer "198.51.100.7"].
Definition hop_errors : Hop :=
  hop_of 4 [icmp_error "198.51.100.7" (Str "N"); icmp_error "198.51.100.7" (Int 3)].
Definition hop_timeout : Hop := hop_of 2 [timeout; timeout; timeout].
Definition hop_255 : Hop := hop_of 255 [answer "198.51.100.7"; timeout].
Definition hop_255_send_failed : Hop := hop_of 255 [timeout; send_failed].
Definition hop_255_empty : Hop := hop_of 255 [].
Definition hop_error : Hop :=
  {| h_error := Some "connect failed"; h_result := None; h_hop := Some 1 |}.
Definition hop_255_error : Hop :=
  {| h_error := Some "connect failed"; h_result := None; h_hop := Some 255 |}.
Definition hop_no_fields : Hop :=
  {| h_error := None; h_result := None; h_hop := Some 2 |}.

Definition msg_of (prb : Z) (traceroute : list Hop) : Msg :=
  {| m_msm_id := Some 5001; m_prb_id := Some prb; m_from := Some "192.0.2.1";
     m_dst_addr := Some "198.51.100.7"; m_result := Some traceroute |}.

(** Messages of the examples; all share the key
    [("192.0.2.1", "198.51.100.0/24")]. *)
Definition msg_ok : Msg := msg_of 42 [hop_peer; hop_ixp; hop_dst].
Definition msg_ok_again : Msg := msg_of 43 [hop_peer; hop_dst].
Definition msg_dnf : Msg := msg_of 42 [hop_peer; hop_error].
Definition msg_hop_no_fields : Msg := msg_of 42 [hop_peer; hop_no_fields].
Definition msg_no_result : Msg :=
  {| m_msm_id := Some 5001; m_prb_id := Some 42; m_from := Some "192.0.2.1";
     m_dst_addr := Some "198.51.100.7"; m_result := None |}.
Definition msg_no_prb_id : Msg :=
  {| m_msm_id := Some 5001; m_prb_id := None; m_from := Some "192.0.2.1";
     m_dst_addr := Some "198.51.100.7"; m_result := Some [hop_peer; hop_dst] |}.
Definition msg_no_from : Msg :=
  {| m_msm_id := Some 5001; m_prb_id := Some 42; m_from := None;
     m_dst_addr := Some "198.51.100.7"; m_result := Some [hop_peer; hop_dst] |}.

(** A path in which 198.51.100.7 has already answered. *)
Definition path_seen : SpecPath.t :=
  SpecPath.append1 "as|64501" "198.51.100.7" false SpecPath.empty.

(** Statistics with one message counted but none accepted, and with one
    accepted but none used. *)
Definition stats_none_accepted : Stats := incr "no_from" (incr "total" stats0).
Definition stats_none_used : Stats :=
  incr "dnf" (incr "accepted" (incr "total" stats0)).
Definition stats_one_used : Stats :=
  incr "used" (incr "accepted" (incr "total" stats0)).

End Examples.

(** ** [read_probes], the probe filter and the keys written by [main] *)

Global Instance val_eq_dec : EqDecision Val.
Proof. solve_decision. Defined.

Global Instance val_countable : Countable Val :=
  inj_countable'
    (λ v, match v with Str s => inl s | Int z => inr z end)
    (λ x, match x with inl s => Str s | inr z => Int z end)
    (λ v, match v with Str _ => eq_refl | Int _ => eq_refl end).

(** [s.split(sep)] for a separator of one character: the fields between the
    separators, empty fields included. *)
Fixpoint split (sep : Ascii.ascii) (s : string) : list string :=
  match s with
  | EmptyString => [EmptyString]
  | String c s =>
    if bool_decide (c = sep) then EmptyString :: split sep s
    else match split sep s with
         | field :: fields => String c field :: fields
         | [] => [String c EmptyString]
         end
  end.

(** Whether a character occurs in a string. *)
Fixpoint occurs (c : Ascii.ascii) (s : string) : bool :=
  match s with
  | EmptyString => false
  | String c' s => bool_decide (c' = c) || occurs c s
  end.

(** The character [','] (code 44). *)
Definition comma : Ascii.ascii := Ascii.ascii_of_nat 44.

(** [s.endswith(suffix)] *)
Definition endswith (s suffix : string) : bool :=
  bool_decide (String.length suffix ≤ String.length s)%nat
  && bool_decide
       (String.substring (String.length s - String.length suffix)
                         (String.length suffix) s = suffix).

(** What [pickle.load] finds in the file: a set, or something else. *)
Inductive Pickled :=
| PickledSet (members : gset Val)
| PickledOther.

(** [read_probes]; [load] stands for opening and unpickling the named file. *)
Definition read_probes (load : string → Pickled) (probes : string) : gset Val :=
  if endswith probes ".pickle.bz2" then
    match load probes with
    | PickledSet ret => ret
    | PickledOther => ∅
    end
  else list_to_set (Str <$> split comma probes).

(** The probe filter as [main] sets it up from the [prb_ids] option: an
    empty set means no filter. *)
Definition probe_filter (load : string → Pickled) (prb_ids : option string)
    : option (gset Val) :=
  match prb_ids with
  | None => None
  | Some probes =>
    let ids := read_probes load probes in
    if bool_decide (size ids = 0%nat) then None else Some ids
  end.

(** The integers among the members of a probe set: for the integer
    [msg['prb_id']] of a message, [msg['prb_id'] in probe_ids] holds exactly
    for these. *)
Definition int_ids (ids : gset Val) : gset Z :=
  set_omap (λ v, match v with Int z => Some z | Str _ => None end) ids.

(** [k.to_bytes(length, byteorder='big')]: [None] stands for the
    [OverflowError] of an integer that is negative or does not fit. *)
Fixpoint big_endian (length : nat) (k : Z) : list Z :=
  match length with
  | O => []
  | S length => big_endian length (k / 256) ++ [k mod 256]
  end.

Definition to_bytes (length : nat) (k : Z) : option (list Z) :=
  if bool_decide (0 ≤ k < 256 ^ Z.of_nat length) then Some (big_endian length k)
  else None.

(** [int.from_bytes(b, byteorder='big')] *)
Definition from_bytes (b : list Z) : Z :=
  fold_left (λ acc byte, acc * 256 + byte) b 0.

(** How the loop of [main] ends. *)
Inductive LoopEnd :=
| Finished
| Escaped (e : Exn)
| OverflowError.

(** Records written under integer keys, with the keys as four bytes. *)
Definition with_key_bytes {A} (written : list (Z * A)) : list (list Z * A) :=
  (λ record, (big_endian 4 record.1, record.2)) <$> written.

(** How a loop that returns or raises ends. *)
Definition loop_end (r : Outcome unit) : LoopEnd :=
  match r with
  | Return _ => Finished
  | Raise e => Escaped e
  end.

Section main_loop.
Context `{ASPathOps}.
Variable lookup : IPLookup.
Variable get_dst_addr : Msg → string.

(** The loop of [main]: every message read goes through [process_message];
    an empty result is passed over, and any other is written under the
    probe id of the message as four bytes, most significant first.
    [written] is what the writer has received so far.  An exception ends
    the loop and leaves the remaining messages unread: one raised by
    [process_message], or the [OverflowError] of a probe id that does not
    fit the four bytes. *)
Fixpoint main_loop (msgs : list Msg) (unified_timestamp : Z)
    (msm_ids : option (gset Z)) (prb_ids : option (gset Val))
    (target_asn : option string) (include_duplicates : bool) (run : Run)
    (written : list (list Z * OutputRecord Attributes))
    : LoopEnd * Run * list (list Z * OutputRecord Attributes) :=
  match msgs with
  | [] => (Finished, run, written)
  | msg :: msgs =>
    match process_message lookup get_dst_addr msg unified_timestamp msm_ids
                          (int_ids <$> prb_ids) target_asn include_duplicates
                          run with
    | (Raise e, run) => (Escaped e, run, written)
    | (Return None, run) =>
      main_loop msgs unified_timestamp msm_ids prb_ids target_asn
                include_duplicates run written
    | (Return (Some data), run) =>
      match m_prb_id msg with
      | None => (Escaped (KeyError "prb_id"), run, written)
      | Some key =>
        match to_bytes 4 key with
        | None => (OverflowError, run, written)
        | Some key =>
          main_loop msgs unified_timestamp msm_ids prb_ids target_asn
                    include_duplicates run (written ++ [(key, data)])
        end
      end
    end
  end.

End main_loop.

(** ** Further vocabulary *)

Section more_vocabulary.
Context `{ASPathOps}.
Variable lookup : IPLookup.
Variable get_dst_addr : Msg → string.

(** An error reply from an address that the path already contains: the
    loop over the replies passes over it. *)
Definition suppressed (path : ASPath) (reply : Reply) : bool :=
  bool_decide (is_Some (r_err reply))
  && from_option (λ a, contains_ip a path) false (r_from reply).

(** What one reply without a send failure adds to the addresses and to the
    errors of its hop. *)
Definition reply_address (path : ASPath) (reply : Reply) : gset string :=
  if suppressed path reply then ∅
  else if bool_decide (is_Some (r_x reply)) then {["*"]}
  else match r_from reply with
       | None => {["*"]}
       | Some a => {[a]}
       end.

Definition reply_error (path : ASPath) (reply : Reply) : gset string :=
  if usable path reply
  then match r_err reply with Some e => {[str e]} | None => ∅ end
  else ∅.

(** The same hop with other replies. *)
Definition with_replies (hop : Hop) (replies : list Reply) : Hop :=
  {| h_error := h_error hop; h_result := Some replies; h_hop := h_hop hop |}.

(** Where a message that passed the id filters stands after the
    resolution steps: dropped under a counter, dropped for its destination
    AS without a counter, or on to the duplicate check. *)
Inductive Verdict :=
| Dropped (counter : string)
| OffTarget
| Resolved.

Definition verdict (msg : Msg) (target_asn : option string) : Verdict :=
  let dst_addr := get_dst_addr msg in
  if negb (truthy dst_addr) then Dropped "no_dst_addr"
  else if bool_decide (ip2asn lookup dst_addr = "0") then Dropped "no_dst_asn"
  else if bool_decide (is_Some target_asn
                       ∧ Some (ip2asn lookup dst_addr) ≠ target_asn)
  then OffTarget
  else if negb (truthy (ip2prefix lookup dst_addr)) then Dropped "no_prefix"
  else match m_from msg with
       | None => Dropped "no_from"
       | Some msg_from =>
         if negb (truthy msg_from) then Dropped "no_from"
         else if bool_decide (ip2asn lookup msg_from = "0")
         then Dropped "no_peer_asn"
         else Resolved
       end.

(** The counters of the terminal states before the translation, and
    ['accepted']. *)
Definition accounted (st : Stats) : Z :=
  get "no_dst_addr" st + get "no_dst_asn" st + get "no_prefix" st
  + get "no_from" st + get "no_peer_asn" st + get "duplicate" st
  + get "accepted" st.

(** The key of a written record. *)
Definition record_key {A} (data : OutputRecord A) : string * string :=
  (peer_address data, prefix data).

(** The path with which the hops of a message start: marked with the AS of
    the source and the AS of the destination. *)
Definition start_path (msg : Msg) : ASPath :=
  set_start_end_asn (ip2asn lookup (default "" (m_from msg)))
                    (ip2asn lookup (get_dst_addr msg)) new_path.

End more_vocabulary.

(** ** More example inputs *)

Module MoreExamples.
Import Examples.

(** A second destination, in another prefix and another AS. *)
Definition msg_other_prefix : Msg :=
  {| m_msm_id := Some 5002; m_prb_id := Some 42; m_from := Some "192.0.2.1";
     m_dst_addr := Some "203.0.113.77";
     m_result := Some [hop_peer; hop_of 2 [answer "203.0.113.77"]] |}.

(** The probe of [msg_ok] seen from another address. *)
Definition msg_moved : Msg :=
  {| m_msm_id := Some 5001; m_prb_id := Some 42; m_from := Some "203.0.113.77";
     m_dst_addr := Some "198.51.100.7";
     m_result := Some [hop_of 1 [answer "203.0.113.77"]; hop_dst] |}.

(** A probe id that does not fit four bytes. *)
Definition msg_big_probe : Msg := msg_of 4294967296 [hop_peer; hop_ixp; hop_dst].

(** No pickle file is read in the examples. *)
Definition no_pickle (file : string) : Pickled := PickledOther.

(** Runs of the examples. *)
Definition five : list Msg :=
  [msg_no_from; msg_ok; msg_ok_again; msg_dnf; msg_other_prefix].

Definition run_of_five :=
  read_loop lookup get_dst_addr five 1000 None None None false run0 [].

Definition run_on_target :=
  read_loop lookup get_dst_addr five 1000 None None (Some "64501") false
            run0 [].

Definition run_allowing_duplicates :=
  read_loop lookup get_dst_addr [msg_ok; msg_ok_again] 1000 None None None
            true run0 [].

Definition run_nothing_used :=
  read_loop lookup get_dst_addr [msg_dnf; msg_no_from] 1000 None None None
            false run0 [].

Definition run_after_ok : Run :=
  (process_message lookup get_dst_addr msg_ok 1000 None None None false
     run0).2.

(** A hop with TTL 255 and nothing else. *)
Definition hop_255_no_fields : Hop :=
  {| h_error := None; h_result := None; h_hop := Some 255 |}.

(** A hop at which an address answers for the first time, with an error
    code, between a timeout and an answer from another address. *)
Definition hop_first_error : Hop :=
  hop_of 4 [timeout; icmp_error "198.51.100.7" (Str "N"); answer "203.0.113.9"].

(** A message with a destination and nothing else. *)
Definition msg_no_ids : Msg :=
  {| m_msm_id := None; m_prb_id := None; m_from := None;
     m_dst_addr := Some "198.51.100.7"; m_result := None |}.

(** A run of the loop of [main] that ends on the key of its second
    message. *)
Definition overflowing : list Msg := [msg_other_prefix; msg_big_probe; msg_ok].

Definition main_run_overflowing :=
  main_loop lookup get_dst_addr overflowing 1000 None None None false run0 [].

End MoreExamples.

(** * Properties *)

#[local] Set Warnings "-clear-no-such-hyp".

(** ** Sorting and joining *)

Section py_facts.

Lemma sorted_perm (s : gset string) : sorted s ≡ₚ elements s.
Proof. apply merge_sort_Permutation. Qed.

Lemma sorted_ascending (s : gset string) : StronglySorted String.le (sorted s).
Proof. apply StronglySorted_merge_sort; apply _. Qed.

Lemma elem_of_sorted (s : gset string) (a : string) : a ∈ sorted s ↔ a ∈ s.
Proof. by rewrite sorted_perm, elem_of_elements. Qed.

Lemma sorted_NoDup (s : gset string) : NoDup (sorted s).
Proof. rewrite sorted_perm. apply NoDup_elements. Qed.

Lemma sorted_length (s : gset string) : length (sorted s) = size s.
Proof. by rewrite sorted_perm. Qed.

Lemma sorted_singleton (a : string) : sorted {[a]} = [a].
Proof. unfold sorted. by rewrite elements_singleton. Qed.

Lemma sorted_empty : sorted ∅ = [].
Proof. unfold sorted. by rewrite elements_empty. Qed.

Lemma join_singleton (sep a : string) : join sep [a] = a.
Proof. reflexivity. Qed.

End py_facts.

(** ** The counters *)

Section counter_facts.

Lemma get_incr_eq k st : get k (incr k st) = get k st + 1.
Proof. unfold get, incr; simpl. by rewrite lookup_total_insert_eq. Qed.

Lemma get_incr_ne k k' st : k ≠ k' → get k' (incr k st) = get k' st.
Proof. intros. unfold get, incr; simpl. by rewrite lookup_total_insert_ne. Qed.

Lemma scopes_incr k st : scopes (incr k st) = scopes st.
Proof. reflexivity. Qed.

Lemma get_add_scope k a st : get k (add_scope a st) = get k st.
Proof. reflexivity. Qed.

End counter_facts.

(** ** The loop over the replies of a hop *)

Section scan_facts.
Context `{ASPathOps}.

Lemma scan_replies_app path before after A E :
  scan_replies path (before ++ after) A E =
  match scan_replies path before A E with
  | Scanned A' E' => scan_replies path after A' E'
  | SendFailed => SendFailed
  end.
Proof.
  revert A E. induction before as [|reply before IHb]; intros A E; simpl.
  - reflexivity.
  - destruct (scan_reply path reply A E); [apply IHb | reflexivity].
Qed.

(** One iteration only adds to the two sets. *)
Lemma scan_reply_grows path reply A E A' E' :
  scan_reply path reply A E = Scanned A' E' → A ⊆ A' ∧ E ⊆ E'.
Proof.
  unfold scan_reply. intros Hs.
  repeat (case_match; simplify_eq); set_solver.
Qed.

Lemma scan_replies_grows path replies A E A' E' :
  scan_replies path replies A E = Scanned A' E' → A ⊆ A' ∧ E ⊆ E'.
Proof.
  revert A E. induction replies as [|reply replies IH]; intros A E Hs; simpl in Hs.
  - by simplify_eq.
  - destruct (scan_reply path reply A E) as [A1 E1|] eqn:H1; [|done].
    apply scan_reply_grows in H1 as [??]. apply IH in Hs as [??].
    split; set_solver.
Qed.

(** The loop ends the hop exactly when some reply carries ['error']
    and no earlier reply does. *)
Lemma scan_replies_send_failed path replies A E :
  scan_replies path replies A E = SendFailed ↔
  ∃ reply, reply ∈ replies ∧ is_Some (r_error reply).
Proof.
  revert A E. induction replies as [|reply replies IH]; intros A E; simpl.
  - split; [done | intros (? & []%elem_of_nil & _)].
  - destruct (scan_reply path reply A E) as [A1 E1|] eqn:H1.
    + rewrite IH. unfold scan_reply in H1.
      case_bool_decide as Herr; [done|].
      split; intros (r & Hin & Hr); exists r; split; auto.
      * apply elem_of_cons; auto.
      * apply elem_of_cons in Hin as [->|]; [done | auto].
    + split; [intros _ | done]. exists reply. split; [apply elem_of_cons; auto|].
      unfold scan_reply in H1. case_bool_decide; [done|].
      repeat (case_match; simplify_eq).
Qed.

(** The error codes collected are those of the usable replies. *)
Lemma scan_reply_errors path reply A E A' E' s :
  scan_reply path reply A E = Scanned A' E' →
  s ∈ E' ↔ s ∈ E ∨ (usable path reply = true
                    ∧ ∃ v, r_err reply = Some v ∧ str v = s).
Proof.
  unfold scan_reply, usable. intros Hs.
  destruct reply as [rerror rerr rfrom rx]; simpl in *.
  case_bool_decide as H1; [done|].
  destruct rerr as [v|], rfrom as [a|], rx as [x|]; simpl in *;
    repeat (case_bool_decide || case_match || simplify_eq/=);
    try (destruct (contains_ip a path) eqn:Hc; simplify_eq/=);
    try set_solver.
  all: try (exfalso; eauto; fail).
Qed.

Lemma scan_replies_errors path replies A E A' E' s :
  scan_replies path replies A E = Scanned A' E' →
  s ∈ E' ↔ s ∈ E ∨ ∃ reply v, reply ∈ replies ∧ usable path reply = true
                               ∧ r_err reply = Some v ∧ str v = s.
Proof.
  revert A E. induction replies as [|reply replies IH]; intros A E Hs; simpl in Hs.
  - simplify_eq. split; [auto | intros [?|(? & ? & []%elem_of_nil & _)]; done].
  - destruct (scan_reply path reply A E) as [A1 E1|] eqn:H1; [|done].
    rewrite (IH _ _ Hs), (scan_reply_errors _ _ _ _ _ _ s H1).
    split.
    + intros [[?|(Hu & v & Hv & <-)]|(r & v & Hin & ?)]; [by left|right..].
      * exists reply, v. split; [apply elem_of_cons; auto | done].
      * exists r, v. split; [apply elem_of_cons; auto | done].
    + intros [?|(r & v & Hin & Hu & Hv & Hs')]; [by left; left|].
      apply elem_of_cons in Hin as [->|Hin].
      * left; right. eauto.
      * right. eauto 10.
Qed.

End scan_facts.

(** ** Classification of a hop *)

Section hop_facts.
Context `{ASPathOps}.
Variable lookup : IPLookup.

Lemma member_tokens_length a :
  length (member_tokens lookup a) = member_slots lookup a.
Proof. unfold member_tokens, member_slots. by case_bool_decide. Qed.

Lemma member_addresses_length a :
  length (member_addresses lookup a) = member_slots lookup a.
Proof. unfold member_addresses, member_slots. by case_bool_decide. Qed.

(** The loop over the sorted addresses extends both lists member by
    member. *)
Lemma build_set_spec addresses as_set ip_set contains_ixp :
  build_set lookup addresses as_set ip_set contains_ixp =
  (as_set ++ (addresses ≫= member_tokens lookup),
   ip_set ++ (addresses ≫= member_addresses lookup),
   contains_ixp
   || existsb (λ a, bool_decide (ip2ixpid lookup a ≠ 0)) addresses).
Proof.
  revert as_set ip_set contains_ixp.
  induction addresses as [|a addresses IHa]; intros as_set ip_set c; simpl.
  - by rewrite !app_nil_r, orb_false_r.
  - unfold member_tokens, member_addresses.
    case_bool_decide; rewrite IHa; simpl; rewrite <- ?app_assoc; simpl.
    + by rewrite orb_true_r.
    + done.
Qed.

Lemma bind_length_slots (f : string → list string) (n : string → nat) l :
  (∀ a, length (f a) = n a) → length (l ≫= f) = sum_list (n <$> l).
Proof.
  intros Hf. induction l as [|a l IHl]; [done|].
  by rewrite bind_cons, fmap_cons, length_app, Hf, IHl.
Qed.

Lemma discard_placeholder_nonempty (A : gset string) :
  A ≠ ∅ → discard_placeholder A ≠ ∅.
Proof.
  unfold discard_placeholder. intros HA. case_bool_decide as Hs; [|done].
  intros Hempty.
  assert (A ⊆ {["*"]}) as Hsub.
  { intros x Hx. destruct (decide (x = "*")); set_solver. }
  apply subseteq_size in Hsub. rewrite size_singleton in Hsub. lia.
Qed.

Lemma discard_placeholder_real (A : gset string) a :
  a ∈ A → a ≠ "*" → a ∈ discard_placeholder A.
Proof. unfold discard_placeholder. case_bool_decide; set_solver. Qed.

Lemma discard_placeholder_subseteq (A : gset string) :
  discard_placeholder A ⊆ A.
Proof. unfold discard_placeholder. case_bool_decide; set_solver. Qed.

(** With more than one address left the hop is appended as a set. *)
Lemma classify_set A E path :
  (1 < size (discard_placeholder A))%nat →
  classify lookup A E path =
  (Return false,
   append_set (sorted (discard_placeholder A) ≫= member_tokens lookup)
              (sorted (discard_placeholder A) ≫= member_addresses lookup)
              (existsb (λ a, bool_decide (ip2ixpid lookup a ≠ 0))
                       (sorted (discard_placeholder A)))
              (if bool_decide (E ≠ ∅)
               then mark_hop_error (join " " (sorted E)) path else path)).
Proof.
  intros Hs. unfold classify. rewrite bool_decide_eq_true_2 by done.
  by rewrite build_set_spec.
Qed.

(** With one address left the hop is appended as a single hop. *)
Lemma classify_single A E path a :
  discard_placeholder A = {[a]} →
  classify lookup A E path =
  (Return false, append_single lookup a E (join " " (sorted E)) path).
Proof.
  intros Ha. unfold classify. rewrite Ha, size_singleton.
  rewrite bool_decide_eq_false_2 by lia. by rewrite elements_singleton.
Qed.

(** The branch taken is always one of the two: [pop] never meets an empty
    set. *)
Lemma classify_cases A :
  A ≠ ∅ →
  (1 < size (discard_placeholder A))%nat ∨ ∃ a, discard_placeholder A = {[a]}.
Proof.
  intros HA%discard_placeholder_nonempty.
  destruct (decide (1 < size (discard_placeholder A))%nat); [by left|right].
  assert (size (discard_placeholder A) ≠ 0%nat) as Hsize.
  { intros ?%size_empty_inv. by apply HA, leibniz_equiv. }
  destruct (size_1_elem_of (discard_placeholder A)) as [a Ha]; [lia|].
  exists a. by apply leibniz_equiv.
Qed.

Lemma classify_returns A E path :
  A ≠ ∅ → (classify lookup A E path).1 = Return false.
Proof.
  intros [Hs|[a Ha]]%classify_cases.
  - by rewrite classify_set.
  - by rewrite (classify_single _ _ _ a).
Qed.

Lemma hop_observation_inv hop path ttl A E :
  hop_observation path hop = Some (ttl, A, E) →
  h_error hop = None ∧ h_hop hop = Some ttl ∧ A ≠ ∅
  ∧ ∃ replies, h_result hop = Some replies
               ∧ scan_replies path replies ∅ ∅ = Scanned A E.
Proof.
  unfold hop_observation. intros Hobs.
  destruct (h_error hop); [done|].
  destruct (h_result hop) as [replies|]; [|done].
  destruct (h_hop hop) as [t|]; [|done].
  destruct (scan_replies path replies ∅ ∅) as [A' E'|] eqn:Hs; [|done].
  case_bool_decide; simplify_eq.
  split; [done|]. split; [done|]. split; [done|]. by exists replies.
Qed.

(** A hop that passes the checks is a timeout when its TTL is 255 and is
    classified by its addresses otherwise. *)
Lemma process_hop_observed hop st path ttl A E :
  hop_observation path hop = Some (ttl, A, E) →
  process_hop lookup hop st path =
  if bool_decide (ttl = 255) then
    (Return false, st, flag_too_many_hops (append "as|0" "*" false path))
  else
    ((classify lookup A E path).1, st, (classify lookup A E path).2).
Proof.
  unfold hop_observation, process_hop. intros Hobs.
  destruct (h_error hop); [done|].
  rewrite bool_decide_eq_false_2 by (by intros [??]).
  destruct (h_result hop) as [replies|]; [|done].
  destruct (h_hop hop) as [t|]; [|done].
  destruct (scan_replies path replies ∅ ∅) as [A' E'|]; [|done].
  case_bool_decide as Hempty; [done|]. simplify_eq.
  rewrite bool_decide_eq_false_2.
  - case_bool_decide; [done|]. by destruct (classify lookup A E path).
  - intros ?%size_empty_inv. by apply Hempty, leibniz_equiv.
Qed.

(** Every other hop ends the path, or fails on the missing [result]. *)
Lemma process_hop_not_observed hop st path :
  hop_observation path hop = None →
  process_hop lookup hop st path = (Return true, incr "dnf" st, path)
  ∨ (h_error hop = None ∧ h_result hop = None
     ∧ process_hop lookup hop st path = (Raise (KeyError "result"), st, path)).
Proof.
  unfold hop_observation, process_hop. intros Hobs.
  destruct (h_error hop).
  { left. by rewrite bool_decide_eq_true_2. }
  rewrite bool_decide_eq_false_2 by (by intros [??]).
  destruct (h_result hop) as [replies|]; [|by right].
  left. destruct (scan_replies path replies ∅ ∅) as [A' E'|]; [|done].
  destruct (decide (A' = ∅)) as [->|Hne].
  - by rewrite size_empty, bool_decide_eq_true_2.
  - rewrite (bool_decide_eq_false_2 (A' = ∅)) in Hobs by done.
    case_bool_decide; [done|]. by destruct (h_hop hop).
Qed.

End hop_facts.

(** ** The replies of a hop as a set *)

Section reply_set_facts.
Context `{ASPathOps}.

Lemma scan_reply_contribution path reply A E :
  scan_reply path reply A E =
  if bool_decide (is_Some (r_error reply)) then SendFailed
  else Scanned (reply_address path reply ∪ A) (reply_error path reply ∪ E).
Proof.
  unfold scan_reply, reply_address, reply_error, usable, suppressed.
  case_bool_decide as Herror; [done|].
  destruct (r_err reply) as [e|], (r_from reply) as [a|], (r_x reply) as [x|];
    simpl; try destruct (contains_ip a path); simpl;
    f_equal; set_solver.
Qed.

(** The loop in closed form: a send failure on any reply, or else the
    unions of what the replies add. *)
Lemma scan_replies_closed path replies A E :
  scan_replies path replies A E =
  if bool_decide (Exists (λ reply, is_Some (r_error reply)) replies)
  then SendFailed
  else Scanned (⋃ (reply_address path <$> replies) ∪ A)
               (⋃ (reply_error path <$> replies) ∪ E).
Proof.
  revert A E. induction replies as [|reply replies IHr]; intros A E;
    cbn [scan_replies]; rewrite ?fmap_nil, ?fmap_cons.
  - rewrite bool_decide_eq_false_2 by (by intros ?%Exists_nil).
    f_equal; set_solver.
  - rewrite scan_reply_contribution.
    destruct (decide (is_Some (r_error reply))) as [Herr|Herr].
    + rewrite (bool_decide_eq_true_2 _ Herr).
      by rewrite bool_decide_eq_true_2 by (by apply Exists_cons_hd).
    + rewrite (bool_decide_eq_false_2 _ Herr), IHr.
      destruct (decide (Exists (λ r, is_Some (r_error r)) replies)) as [Hex|Hex].
      * rewrite (bool_decide_eq_true_2 _ Hex).
        by rewrite bool_decide_eq_true_2 by (by apply Exists_cons_tl).
      * rewrite (bool_decide_eq_false_2 _ Hex).
        rewrite bool_decide_eq_false_2
          by (by intros [?|?]%Exists_cons).
        f_equal; set_solver.
Qed.

Lemma scan_replies_same_members path l1 l2 A E :
  (∀ reply, reply ∈ l1 ↔ reply ∈ l2) →
  scan_replies path l1 A E = scan_replies path l2 A E.
Proof.
  intros Hsame. rewrite !scan_replies_closed.
  assert (Exists (λ reply, is_Some (r_error reply)) l1
          ↔ Exists (λ reply, is_Some (r_error reply)) l2) as Hex.
  { rewrite !Exists_exists. naive_solver. }
  assert (∀ f : Reply → gset string, ⋃ (f <$> l1) = ⋃ (f <$> l2)) as Hun.
  { intros f. apply set_eq. intros x. rewrite !elem_of_union_list.
    split; intros (X & (r & -> & Hr)%list_elem_of_fmap & Hx);
      exists (f r); (split; [apply list_elem_of_fmap_2; by apply Hsame|done]). }
  rewrite !Hun.
  destruct (decide (Exists (λ reply, is_Some (r_error reply)) l1)) as [H1|H1].
  - rewrite (bool_decide_eq_true_2 _ H1).
    by rewrite bool_decide_eq_true_2 by (by apply Hex).
  - rewrite (bool_decide_eq_false_2 _ H1).
    by rewrite bool_decide_eq_false_2 by (by rewrite <- Hex).
Qed.

(** No address is observed exactly when every reply is passed over. *)
Lemma no_address_iff_suppressed path replies :
  ⋃ (reply_address path <$> replies) = ∅ ↔
  Forall (λ reply, suppressed path reply = true) replies.
Proof.
  induction replies as [|reply replies IHr]; rewrite ?fmap_nil, ?fmap_cons.
  - split; [constructor | done].
  - rewrite Forall_cons, <- IHr, union_list_cons. unfold reply_address at 1.
    destruct (suppressed path reply).
    + split; [intros Hu | intros [_ Hu]]; [split; [done|]|]; set_solver.
    + split; [|by intros [? _]]. intros Hu. exfalso.
      repeat case_match; set_solver.
Qed.

(** What a hop shows, in closed form. *)
Lemma hop_observation_closed path hop :
  hop_observation path hop =
  match h_error hop, h_result hop, h_hop hop with
  | None, Some replies, Some ttl =>
    if bool_decide (Exists (λ reply, is_Some (r_error reply)) replies
                    ∨ Forall (λ reply, suppressed path reply = true) replies)
    then None
    else Some (ttl, ⋃ (reply_address path <$> replies),
               ⋃ (reply_error path <$> replies))
  | _, _, _ => None
  end.
Proof.
  unfold hop_observation.
  destruct (h_error hop); [done|].
  destruct (h_result hop) as [replies|]; [|done].
  destruct (h_hop hop) as [ttl|]; [|done].
  rewrite scan_replies_closed, !union_empty_r_L.
  destruct (decide (Exists (λ reply, is_Some (r_error reply)) replies))
    as [Hex|Hex].
  { rewrite (bool_decide_eq_true_2 _ Hex).
    by rewrite bool_decide_eq_true_2 by (by left). }
  rewrite (bool_decide_eq_false_2 _ Hex).
  destruct (decide (⋃ (reply_address path <$> replies) = ∅)) as [Hno|Hsome].
  - rewrite (bool_decide_eq_true_2 _ Hno).
    rewrite bool_decide_eq_true_2; [done|].
    right. by apply no_address_iff_suppressed.
  - rewrite (bool_decide_eq_false_2 _ Hsome).
    rewrite bool_decide_eq_false_2; [done|].
    intros [?|?%no_address_iff_suppressed]; done.
Qed.

End reply_set_facts.

(** ** Claims on [process_hop] *)

Section hop_claims.
Context `{ASPathOps}.
Variable lookup : IPLookup.

Lemma size_two_elements (A : gset string) a b :
  a ∈ A → b ∈ A → a ≠ b → (1 < size A)%nat.
Proof.
  intros Ha Hb Hab.
  assert ({[a]} ∪ {[b]} ⊆ A) as Hsub by set_solver.
  apply subseteq_size in Hsub.
  rewrite size_union, !size_singleton in Hsub by set_solver. lia.
Qed.

Lemma discard_placeholder_mixed (A : gset string) a :
  "*" ∈ A → a ∈ A → a ≠ "*" → discard_placeholder A = A ∖ {["*"]}.
Proof.
  intros Hstar Ha Hne. unfold discard_placeholder.
  rewrite bool_decide_eq_true_2; [done|]. by apply (size_two_elements A a "*").
Qed.

Lemma discard_placeholder_idemp (A : gset string) :
  discard_placeholder (A ∖ {["*"]}) = A ∖ {["*"]}.
Proof. unfold discard_placeholder. case_bool_decide; set_solver. Qed.

Lemma classify_ext A B E path :
  discard_placeholder A = discard_placeholder B →
  classify lookup A E path = classify lookup B E path.
Proof. unfold classify. by intros ->. Qed.

(** C2, as the code has it: a hop with TTL 255 that passes the checks
    which end the path (no send failure on the hop or on a reply, at least
    one observed address) appends exactly the 'as|0'/'*' pair, flags
    too-many-hops and returns [False], whatever its replies contain.  The
    checks come first: with 'error' on the hop, with 'error' on a reply, or
    with no observed address (every reply, possibly none, is an error reply
    from an address already in the path) the hop counts one 'dnf' and
    returns [True]; with neither 'error' nor 'result' it raises
    [KeyError]. *)
Theorem ttl_255_appends_timeout hop st path :
  (∀ A E, hop_observation path hop = Some (255, A, E) →
     process_hop lookup hop st path =
     (Return false, st, flag_too_many_hops (append "as|0" "*" false path)))
  ∧ (h_hop hop = Some 255 →
     (is_Some (hop_observation path hop) ↔
      h_error hop = None
      ∧ ∃ replies, h_result hop = Some replies
          ∧ ¬ Exists (λ reply, is_Some (r_error reply)) replies
          ∧ ¬ Forall (λ reply, suppressed path reply = true) replies)
     ∧ process_hop lookup hop st path =
       if bool_decide (is_Some (h_error hop))
       then (Return true, incr "dnf" st, path)
       else match h_result hop with
            | None => (Raise (KeyError "result"), st, path)
            | Some replies =>
              if bool_decide
                   (Exists (λ reply, is_Some (r_error reply)) replies
                    ∨ Forall (λ reply, suppressed path reply = true) replies)
              then (Return true, incr "dnf" st, path)
              else (Return false, st,
                    flag_too_many_hops (append "as|0" "*" false path))
            end).
Proof.
  split.
  { intros A E Hobs. by rewrite (process_hop_observed _ _ _ _ _ _ _ Hobs). }
  intros Httl. split.
  - rewrite hop_observation_closed, Httl.
    destruct (h_error hop) as [err|].
    { split; [by intros [??]|by intros [? _]]. }
    destruct (h_result hop) as [replies|].
    2:{ split; [by intros [??]|by intros [_ (? & ? & _)]]. }
    case_bool_decide as Hends.
    + split; [by intros [??]|]. intros (_ & l & [= <-] & Hex & Hall).
      by destruct Hends.
    + split; [intros _|by eauto]. split; [done|]. exists replies.
      split; [done|]. split; intros ?; apply Hends; [by left|by right].
  - unfold process_hop. rewrite Httl.
    destruct (h_error hop) as [err|].
    { by rewrite !bool_decide_eq_true_2 by eauto. }
    rewrite !(bool_decide_eq_false_2 (is_Some None)) by (by intros [??]).
    destruct (h_result hop) as [replies|]; [|done].
    rewrite scan_replies_closed, !union_empty_r_L.
    destruct (decide (Exists (λ reply, is_Some (r_error reply)) replies))
      as [Hex|Hex].
    { rewrite (bool_decide_eq_true_2 _ Hex).
      by rewrite bool_decide_eq_true_2 by (by left). }
    rewrite (bool_decide_eq_false_2 _ Hex).
    destruct (decide (⋃ (reply_address path <$> replies) = ∅)) as [Hno|Hsome].
    + rewrite Hno, size_empty, (bool_decide_eq_true_2 (0%nat = 0%nat)) by done.
      rewrite bool_decide_eq_true_2; [done|].
      right. by apply no_address_iff_suppressed.
    + rewrite (bool_decide_eq_false_2 (size _ = 0%nat)).
      2:{ intros ?%size_empty_inv. by apply Hsome, leibniz_equiv. }
      rewrite (bool_decide_eq_true_2 (255 = 255)) by done.
      rewrite bool_decide_eq_false_2; [done|].
      intros [?|?%no_address_iff_suppressed]; done.
Qed.

(** C5: a hop classified on a single real address appends, after the
    error annotation if there is one, the entries 'ix|N', 'ix|N;as|M' and
    'ip|addr' marked as IXP-derived and then the plain 'as|M' when the
    address has a non-zero IXP id N, and only the plain 'as|M' otherwise;
    every entry is paired with the address itself. *)
Theorem single_address_hop hop st path ttl A E address :
  hop_observation path hop = Some (ttl, A, E) →
  ttl ≠ 255 →
  discard_placeholder A = {[address]} →
  address ≠ "*" →
  let N := ip2ixpid lookup address in
  let M := ip2asn lookup address in
  let path0 :=
    if bool_decide (E ≠ ∅) then mark_hop_error (join " " (sorted E)) path
    else path in
  process_hop lookup hop st path =
  (Return false, st,
   if bool_decide (N ≠ 0) then
     append ("as|" +:+ M) address false
       (append ("ip|" +:+ address) address true
          (append ("ix|" +:+ pretty N +:+ ";as|" +:+ M) address true
             (append ("ix|" +:+ pretty N) address true path0)))
   else append ("as|" +:+ M) address false path0).
Proof.
  intros Hobs Httl Hone Hreal N M path0.
  rewrite (process_hop_observed _ _ _ _ _ _ _ Hobs).
  rewrite bool_decide_eq_false_2 by done.
  rewrite (classify_single _ _ _ _ address Hone). simpl.
  unfold append_single. rewrite bool_decide_eq_false_2 by done.
  fold N M path0. by case_bool_decide.
Qed.

(** C6: a hop with several addresses left passes to [append_set] two
    tuples of equal length, built member by member over the addresses in
    ascending order: a member on an IXP gives four tokens and its address
    four times, any other member one token and its address once. *)
Theorem multi_address_hop hop st path ttl A E :
  hop_observation path hop = Some (ttl, A, E) →
  ttl ≠ 255 →
  (1 < size (discard_placeholder A))%nat →
  let members := sorted (discard_placeholder A) in
  let as_set := members ≫= member_tokens lookup in
  let ip_set := members ≫= member_addresses lookup in
  process_hop lookup hop st path =
    (Return false, st,
     append_set as_set ip_set
       (existsb (λ a, bool_decide (ip2ixpid lookup a ≠ 0)) members)
       (if bool_decide (E ≠ ∅)
        then mark_hop_error (join " " (sorted E)) path else path))
  ∧ length as_set = length ip_set
  ∧ length as_set = sum_list (member_slots lookup <$> members)
  ∧ StronglySorted String.le members
  ∧ NoDup members
  ∧ ∀ a, a ∈ members ↔ a ∈ discard_placeholder A.
Proof.
  intros Hobs Httl Hsize members as_set ip_set.
  split; [|split; [|split; [|split; [|split]]]].
  - rewrite (process_hop_observed _ _ _ _ _ _ _ Hobs).
    rewrite bool_decide_eq_false_2 by done.
    by rewrite classify_set.
  - unfold as_set, ip_set.
    rewrite (bind_length_slots _ _ _ (member_tokens_length lookup)).
    by rewrite (bind_length_slots _ _ _ (member_addresses_length lookup)).
  - apply bind_length_slots, member_tokens_length.
  - apply sorted_ascending.
  - apply sorted_NoDup.
  - intros a. apply elem_of_sorted.
Qed.

(** C7: when a hop that is classified by its addresses shows both the
    placeholder and a real address, the placeholder is dropped first; with
    one real address and the placeholder the hop is a single hop on the
    real address, and with the placeholder alone it appends the
    'as|0'/'*' pair. *)
Theorem placeholder_discarded hop st path ttl A E :
  hop_observation path hop = Some (ttl, A, E) →
  ttl ≠ 255 →
  (∀ a, "*" ∈ A → a ∈ A → a ≠ "*" →
     discard_placeholder A = A ∖ {["*"]}
     ∧ classify lookup A E path = classify lookup (A ∖ {["*"]}) E path)
  ∧ (∀ a, A = {[a; "*"]} → a ≠ "*" →
     discard_placeholder A = {[a]}
     ∧ process_hop lookup hop st path =
       (Return false, st, append_single lookup a E (join " " (sorted E)) path)
     ∧ classify lookup A E path = classify lookup {[a]} E path)
  ∧ (A = {["*"]} →
     process_hop lookup hop st path =
     (Return false, st, append "as|0" "*" false path)).
Proof.
  intros Hobs Httl.
  rewrite (process_hop_observed _ _ _ _ _ _ _ Hobs).
  rewrite bool_decide_eq_false_2 by done.
  split; [|split].
  - intros a Hstar Ha Hne.
    pose proof (discard_placeholder_mixed A a Hstar Ha Hne) as Hd.
    split; [done|]. apply classify_ext.
    by rewrite Hd, discard_placeholder_idemp.
  - intros a -> Hne.
    assert (discard_placeholder ({[a; "*"]} : gset string) = {[a]}) as Hd.
    { rewrite (discard_placeholder_mixed _ a) by set_solver. set_solver. }
    split; [done|]. split.
    + by rewrite (classify_single _ _ _ _ a Hd).
    + apply classify_ext. rewrite Hd. unfold discard_placeholder.
      rewrite size_singleton. by rewrite bool_decide_eq_false_2 by lia.
  - intros ->.
    rewrite (classify_single _ _ _ _ "*"); [done|].
    unfold discard_placeholder. rewrite size_singleton.
    by rewrite bool_decide_eq_false_2 by lia.
Qed.

(** C8: a reply with an error code from an address that the path already
    contains is skipped: the loop over the replies, and with it the whole
    hop, goes as if the reply were not there.  Such a reply from an address
    not yet in the path, when it answers (no timeout marker), puts its
    address among the addresses of the hop and its code, as a string, among
    the errors of the hop: when no other reply carries a send failure, the
    hop has observed exactly this address and this code together with what
    the other replies add. *)
Theorem error_reply_once path reply a e :
  r_error reply = None →
  r_err reply = Some e →
  r_from reply = Some a →
  (contains_ip a path = true →
     (∀ A E, scan_reply path reply A E = Scanned A E)
     ∧ (∀ before after A E,
          scan_replies path (before ++ reply :: after) A E =
          scan_replies path (before ++ after) A E)
     ∧ ∀ hop before after st,
         h_result hop = Some (before ++ reply :: after) →
         process_hop lookup hop st path =
         process_hop lookup (with_replies hop (before ++ after)) st path)
  ∧ (contains_ip a path = false → r_x reply = None →
     (∀ A E, scan_reply path reply A E = Scanned ({[a]} ∪ A) ({[str e]} ∪ E))
     ∧ (∀ before after A E,
          scan_replies path (before ++ reply :: after) ∅ ∅ = Scanned A E →
          a ∈ A ∧ str e ∈ E)
     ∧ ∀ before after,
         Forall (λ other, r_error other = None) (before ++ after) →
         scan_replies path (before ++ reply :: after) ∅ ∅ =
         Scanned ({[a]} ∪ ⋃ (reply_address path <$> before ++ after))
                 ({[str e]} ∪ ⋃ (reply_error path <$> before ++ after))
         ∧ ∀ hop ttl,
             h_error hop = None →
             h_result hop = Some (before ++ reply :: after) →
             h_hop hop = Some ttl →
             hop_observation path hop =
             Some (ttl,
                   {[a]} ∪ ⋃ (reply_address path <$> before ++ after),
                   {[str e]} ∪ ⋃ (reply_error path <$> before ++ after))).
Proof.
  intros Herror Herr Hfrom. split.
  - intros Hseen.
    assert (∀ A E, scan_reply path reply A E = Scanned A E) as Hskip.
    { intros A E. unfold scan_reply. rewrite Herror, Herr, Hfrom. simpl.
      by rewrite Hseen. }
    assert (∀ before after A E,
              scan_replies path (before ++ reply :: after) A E =
              scan_replies path (before ++ after) A E) as Hsame.
    { intros before after A E. rewrite !scan_replies_app.
      destruct (scan_replies path before A E) as [A1 E1|]; [|done].
      simpl. by rewrite Hskip. }
    split; [done|]. split; [done|].
    intros hop before after st Hres.
    unfold process_hop, with_replies. simpl. by rewrite Hres, Hsame.
  - intros Hnew Hx.
    assert (∀ A E, scan_reply path reply A E
                   = Scanned ({[a]} ∪ A) ({[str e]} ∪ E)) as Hreg.
    { intros A E. unfold scan_reply. rewrite Herror, Herr, Hfrom, Hx. simpl.
      by rewrite Hnew. }
    split; [done|]. split.
    { intros before after A E. rewrite scan_replies_app.
      destruct (scan_replies path before ∅ ∅) as [A1 E1|]; [|done].
      simpl. rewrite Hreg. intros [??]%scan_replies_grows. set_solver. }
    intros before after Hothers.
    assert (scan_replies path (before ++ reply :: after) ∅ ∅ =
            Scanned ({[a]} ∪ ⋃ (reply_address path <$> before ++ after))
                    ({[str e]} ∪ ⋃ (reply_error path <$> before ++ after)))
      as Hscan.
    { rewrite scan_replies_closed.
      rewrite bool_decide_eq_false_2.
      2:{ rewrite Exists_exists. intros (other & Hin & [err Hsome]).
          apply elem_of_app in Hin as [Hin|Hin].
          - rewrite Forall_forall in Hothers.
            rewrite (Hothers other) in Hsome; [done|].
            apply elem_of_app. by left.
          - apply elem_of_cons in Hin as [->|Hin]; [congruence|].
            rewrite Forall_forall in Hothers.
            rewrite (Hothers other) in Hsome; [done|].
            apply elem_of_app. by right. }
      assert (reply_address path reply = {[a]}) as Haddr.
      { unfold reply_address, suppressed. rewrite Herr, Hfrom, Hx. simpl.
        by rewrite Hnew. }
      assert (reply_error path reply = {[str e]}) as Herrs.
      { unfold reply_error, usable. rewrite Herr, Hfrom, Hx. simpl.
        by rewrite Hnew. }
      rewrite !fmap_app, !fmap_cons, !union_list_app_L, !union_list_cons.
      rewrite Haddr, Herrs. f_equal; set_solver. }
    split; [done|]. intros hop ttl Hhop Hres Httl.
    unfold hop_observation. rewrite Hhop, Hres, Httl, Hscan.
    rewrite bool_decide_eq_false_2; [done|]. set_solver.
Qed.

(** C9: when a hop has collected error codes and a real address is left,
    [mark_hop_error] is called first, before the same [append] or
    [append_set] calls that the hop makes without errors; its argument is
    the distinct codes as strings, in ascending order, joined by one
    space, which for a single code is that code's string. *)
Theorem hop_error_annotation hop st path ttl A E :
  hop_observation path hop = Some (ttl, A, E) →
  ttl ≠ 255 →
  E ≠ ∅ →
  discard_placeholder A ≠ {["*"]} →
  let error_str := join " " (sorted E) in
  process_hop lookup hop st path =
    ((classify lookup A ∅ (mark_hop_error error_str path)).1, st,
     (classify lookup A ∅ (mark_hop_error error_str path)).2)
  ∧ StronglySorted String.le (sorted E)
  ∧ NoDup (sorted E)
  ∧ (∀ s, s ∈ sorted E ↔ s ∈ E)
  ∧ (∀ s, E = {[s]} → error_str = s)
  ∧ (∀ replies s, h_result hop = Some replies →
       s ∈ E ↔ ∃ reply v, reply ∈ replies ∧ usable path reply = true
                          ∧ r_err reply = Some v ∧ str v = s).
Proof.
  intros Hobs Httl HE Hreal error_str.
  split; [|split; [|split; [|split; [|split]]]].
  - rewrite (process_hop_observed _ _ _ _ _ _ _ Hobs).
    rewrite bool_decide_eq_false_2 by done.
    destruct (hop_observation_inv _ _ _ _ _ Hobs) as (_ & _ & HA & _).
    destruct (classify_cases A HA) as [Hs|[a Ha]].
    + rewrite !classify_set by done. simpl.
      rewrite (bool_decide_eq_true_2 (E ≠ ∅)) by done.
      by rewrite (bool_decide_eq_false_2 (∅ ≠@{gset string} ∅)) by (by intros []).
    + rewrite !(classify_single _ _ _ _ a Ha). simpl.
      unfold append_single.
      assert (a ≠ "*") as Hne by (intros ->; done).
      rewrite !(bool_decide_eq_false_2 (a = "*")) by done.
      rewrite (bool_decide_eq_true_2 (E ≠ ∅)) by done.
      by rewrite (bool_decide_eq_false_2 (∅ ≠@{gset string} ∅)) by (by intros []).
  - apply sorted_ascending.
  - apply sorted_NoDup.
  - intros s. apply elem_of_sorted.
  - intros s ->. unfold error_str. by rewrite sorted_singleton.
  - intros replies s Hres.
    destruct (hop_observation_inv _ _ _ _ _ Hobs) as (_ & _ & _ & l & Hl & Hs).
    rewrite Hres in Hl. simplify_eq.
    rewrite (scan_replies_errors _ _ _ _ _ _ s Hs). set_solver.
Qed.

End hop_claims.

(** ** The hops of a message *)

Ltac counters :=
  repeat first
    [ rewrite get_add_scope
    | rewrite get_incr_eq
    | rewrite get_incr_ne by first [discriminate | done] ].

(** Closes a decidable goal on concrete data by evaluating its decision. *)
Ltac by_evaluation := apply (bool_decide_unpack _); vm_compute; exact I.

Ltac conjuncts := repeat match goal with |- _ ∧ _ => split end.

Section hops_facts.
Context `{ASPathOps}.
Variable lookup : IPLookup.

(** A hop touches no counter but ['dnf'], and no scope. *)
Lemma process_hop_counters hop st path k :
  k ≠ "dnf" → get k (process_hop lookup hop st path).1.2 = get k st.
Proof.
  intros Hk.
  destruct (hop_observation path hop) as [[[ttl A] E]|] eqn:Hobs.
  - rewrite (process_hop_observed _ _ _ _ _ _ _ Hobs). by case_bool_decide.
  - destruct (process_hop_not_observed lookup hop st path Hobs)
      as [->|(_ & _ & ->)]; simpl; [|done].
    by apply get_incr_ne.
Qed.

Lemma process_hop_scopes hop st path :
  scopes (process_hop lookup hop st path).1.2 = scopes st.
Proof.
  destruct (hop_observation path hop) as [[[ttl A] E]|] eqn:Hobs.
  - rewrite (process_hop_observed _ _ _ _ _ _ _ Hobs). by case_bool_decide.
  - by destruct (process_hop_not_observed lookup hop st path Hobs)
      as [->|(_ & _ & ->)].
Qed.

Lemma process_hops_counters traceroute st path k :
  k ≠ "dnf" → get k (process_hops lookup traceroute st path).1.2 = get k st.
Proof.
  intros Hk. revert st path.
  induction traceroute as [|hop traceroute IHt]; intros st path; simpl; [done|].
  pose proof (process_hop_counters hop st path k Hk) as Hhop.
  destruct (process_hop lookup hop st path) as [[[[]|e] st'] path']; simpl in *;
    [done| |done].
  by rewrite IHt.
Qed.

Lemma process_hops_scopes traceroute st path :
  scopes (process_hops lookup traceroute st path).1.2 = scopes st.
Proof.
  revert st path.
  induction traceroute as [|hop traceroute IHt]; intros st path; simpl; [done|].
  pose proof (process_hop_scopes hop st path) as Hhop.
  destruct (process_hop lookup hop st path) as [[[[]|e] st'] path']; simpl in *;
    [done| |done].
  by rewrite IHt.
Qed.

(** A hop that carries ['error'] or ['result'] raises nothing. *)
Lemma process_hop_returns hop st path :
  hop_has_fields hop = true → returns (process_hop lookup hop st path).1.1.
Proof.
  intros Hf.
  destruct (hop_observation path hop) as [[[ttl A] E]|] eqn:Hobs.
  - rewrite (process_hop_observed _ _ _ _ _ _ _ Hobs).
    case_bool_decide; simpl; [done|].
    destruct (hop_observation_inv _ _ _ _ _ Hobs) as (_ & _ & HA & _).
    by rewrite classify_returns.
  - destruct (process_hop_not_observed lookup hop st path Hobs)
      as [->|(He & Hr & _)]; [done|].
    unfold hop_has_fields in Hf. by rewrite He, Hr in Hf.
Qed.

Lemma process_hops_returns traceroute st path :
  forallb hop_has_fields traceroute = true →
  returns (process_hops lookup traceroute st path).1.1.
Proof.
  revert st path.
  induction traceroute as [|hop traceroute IHt]; intros st path Hf; simpl;
    [done|].
  simpl in Hf. apply andb_true_iff in Hf as [Hhop Hrest].
  pose proof (process_hop_returns hop st path Hhop) as Hret.
  destruct (process_hop lookup hop st path) as [[[[]|e] st'] path']; simpl in *;
    [done| |done].
  by apply IHt.
Qed.

End hops_facts.

(** ** The steps of [process_message] *)

Ltac dropped :=
  eexists _; split; [reflexivity|]; repeat split; counters; reflexivity.

Section message_facts.
Context `{ASPathOps}.
Variable lookup : IPLookup.
Variable get_dst_addr : Msg → string.

(** A message that does not pass the filters and the resolution steps is
    dropped, or fails in the filter: no record, the run state unchanged
    but for the statistics, in which ['accepted'] and ['used'] stay. *)
Lemma process_message_unresolved msg ts msm_ids probe_ids target dup run :
  resolves lookup get_dst_addr msg msm_ids probe_ids target = false →
  ∃ st,
    process_message lookup get_dst_addr msg ts msm_ids probe_ids target dup run
    = (match filtered_out msg msm_ids probe_ids with
       | Raise e => Raise e
       | Return _ => Return None
       end, with_stats st run)
    ∧ get "accepted" st = get "accepted" (stats run)
    ∧ get "used" st = get "used" (stats run)
    ∧ get "duplicate" st = get "duplicate" (stats run).
Proof.
  unfold resolves, process_message.
  intros Hres.
  assert (with_stats (stats run) run = run) as Hrun by by destruct run.
  destruct (filtered_out msg msm_ids probe_ids) as [[]|e].
  { exists (stats run). by rewrite Hrun. }
  2:{ exists (stats run). by rewrite Hrun. }
  destruct (truthy (get_dst_addr msg)); simpl in *; [|dropped].
  destruct (decide (ip2asn lookup (get_dst_addr msg) = "0")) as [Hz|Hz].
  { rewrite (bool_decide_eq_true_2 _ Hz). dropped. }
  rewrite (bool_decide_eq_false_2 _ Hz).
  rewrite (bool_decide_eq_true_2 (_ ≠ "0")) in Hres by done. simpl in Hres.
  destruct (decide (is_Some target
                    ∧ Some (ip2asn lookup (get_dst_addr msg)) ≠ target))
    as [Ht|Ht].
  { rewrite (bool_decide_eq_true_2 _ Ht). dropped. }
  rewrite (bool_decide_eq_false_2 _ Ht).
  assert (from_option
            (λ t, bool_decide (ip2asn lookup (get_dst_addr msg) = t))
            true target = true) as Htarget.
  { destruct target as [t|]; simpl; [|done]. apply bool_decide_eq_true_2.
    destruct (decide (ip2asn lookup (get_dst_addr msg) = t)); [done|].
    exfalso. apply Ht. split; [eauto | congruence]. }
  rewrite Htarget in Hres. simpl in Hres.
  destruct (truthy (ip2prefix lookup (get_dst_addr msg))); simpl in *;
    [|dropped].
  destruct (m_from msg) as [f|]; simpl in *; [|dropped].
  destruct (truthy f); simpl in *; [|dropped].
  destruct (decide (ip2asn lookup f = "0")) as [Hp|Hp].
  { rewrite (bool_decide_eq_true_2 _ Hp). dropped. }
  by rewrite (bool_decide_eq_true_2 (_ ≠ "0")) in Hres.
Qed.

(** A message that passes them reaches the duplicate check with its key:
    it is dropped there when the key has been seen and duplicates are
    off, and goes on to the translation otherwise. *)
Lemma process_message_resolved msg ts msm_ids probe_ids target dup run :
  resolves lookup get_dst_addr msg msm_ids probe_ids target = true →
  process_message lookup get_dst_addr msg ts msm_ids probe_ids target dup run =
  if bool_decide (dedup_key lookup get_dst_addr msg ∈ seen_peer_prefixes run) && negb dup then
    (Return None,
     with_stats (incr "duplicate" (incr "total" (stats run))) run)
  else
    translate lookup msg (dedup_key lookup get_dst_addr msg).1
              (ip2asn lookup (dedup_key lookup get_dst_addr msg).1)
              (ip2asn lookup (get_dst_addr msg))
              (dedup_key lookup get_dst_addr msg).2 ts (incr "total" (stats run)) run.
Proof.
  unfold resolves, process_message, dedup_key.
  intros Hres.
  destruct (filtered_out msg msm_ids probe_ids) as [[]|e]; [done| |done].
  apply andb_true_iff in Hres as [Hres Hpeer].
  apply andb_true_iff in Hres as [Hres Hfrom].
  apply andb_true_iff in Hres as [Hres Hprefix].
  apply andb_true_iff in Hres as [Hres Htarget].
  apply andb_true_iff in Hres as [Hdst Hasn].
  apply bool_decide_eq_true_1 in Hpeer, Hasn.
  rewrite Hdst. simpl.
  rewrite (bool_decide_eq_false_2 (_ = "0")) by done.
  rewrite (bool_decide_eq_false_2 (is_Some target ∧ _)).
  2:{ intros [[t ->] Hne]. simpl in Htarget.
      apply bool_decide_eq_true_1 in Htarget. congruence. }
  rewrite Hprefix. simpl.
  destruct (m_from msg) as [f|]; [|done]. simpl in *.
  rewrite Hfrom. simpl.
  by rewrite (bool_decide_eq_false_2 (_ = "0")) by done.
Qed.

End message_facts.

(** ** The translation of a message that passed the duplicate check *)

Section translate_facts.
Context `{ASPathOps}.
Variable lookup : IPLookup.

(** The key is added to the seen set together with the record, and only
    then. *)
Lemma translate_seen msg f pa da px ts st run r run' :
  translate lookup msg f pa da px ts st run = (r, run') →
  match r with
  | Return (Some out) =>
    seen_peer_prefixes run' = {[(f, px)]} ∪ seen_peer_prefixes run
    ∧ peer_address out = f ∧ prefix out = px
    ∧ m_prb_id msg = Some (prb_id out)
  | _ => seen_peer_prefixes run' = seen_peer_prefixes run
  end.
Proof.
  unfold translate. intros Htr.
  destruct (m_prb_id msg) as [prb|]; [|by simplify_eq].
  destruct (m_result msg) as [traceroute|]; [|by simplify_eq].
  destruct (process_hops _ _ _ _) as [[[[]|e] st2] p2];
    [by simplify_eq| |by simplify_eq].
  destruct (get_reduced_path st2 p2) as [[[[rp rip] len] st3] p3].
  destruct (bool_decide (len = 0)); [by simplify_eq|].
  destruct (bool_decide (len = 1)); [by simplify_eq|].
  destruct (get_raw_path p3). by simplify_eq.
Qed.

(** ['accepted'] is counted as soon as the probe id has been read,
    ['used'] only together with the record; ['duplicate'] is not touched. *)
Lemma translate_counters `{!ReducerFrame} msg f pa da px ts st run r run' :
  translate lookup msg f pa da px ts st run = (r, run') →
  get "duplicate" (stats run') = get "duplicate" st
  ∧ match r with
    | Return (Some _) =>
      get "accepted" (stats run') = get "accepted" st + 1
      ∧ get "used" (stats run') = get "used" st + 1
    | Return None =>
      get "accepted" (stats run') = get "accepted" st + 1
      ∧ get "used" (stats run') = get "used" st
    | Raise _ => get "used" (stats run') = get "used" st
    end.
Proof.
  unfold translate. intros Htr.
  destruct (m_prb_id msg) as [prb|]; [|by simplify_eq].
  set (st1 := match probe_ip_map run !! prb with
              | Some ip =>
                if bool_decide (f ≠ ip) then incr "changed_ip" st else st
              | None => st
              end) in *.
  assert (∀ k, k ≠ "changed_ip" → get k st1 = get k st) as Hst1.
  { intros k Hk. unfold st1. repeat case_match; counters; done. }
  destruct (m_result msg) as [traceroute|].
  2:{ simplify_eq. simpl. counters. by rewrite !Hst1. }
  set (path := set_start_end_asn pa da new_path) in *.
  pose proof (λ k, process_hops_counters lookup traceroute
                     (incr "accepted" st1) path k) as Hhops.
  destruct (process_hops _ _ _ _) as [[[[]|e] st2] p2]; simpl in Hhops.
  - simplify_eq. simpl. rewrite !Hhops by done. counters. by rewrite !Hst1.
  - pose proof (λ k, reducer_keeps_counter st2 p2 k) as Hred.
    destruct (get_reduced_path st2 p2) as [[[[rp rip] len] st3] p3].
    simpl in Hred.
    assert (∀ k, k ∈ ["duplicate"; "accepted"; "used"] →
                 get k st3 = get k (incr "accepted" st)) as Hst3.
    { intros k Hin.
      assert ((k ∉ reducer_counters) ∧ k ≠ "dnf" ∧ k ≠ "changed_ip")
        as (? & ? & ?) by (unfold reducer_counters; set_solver).
      rewrite Hred, Hhops by done.
      destruct (decide (k = "accepted")) as [->|]; counters; by rewrite Hst1. }
    pose proof (Hst3 "duplicate" ltac:(by_evaluation)) as Hd.
    pose proof (Hst3 "accepted" ltac:(by_evaluation)) as Ha.
    pose proof (Hst3 "used" ltac:(by_evaluation)) as Hu.
    revert Hd Ha Hu. counters. intros Hd Ha Hu.
    destruct (bool_decide (len = 0)); [|destruct (bool_decide (len = 1))].
    + simplify_eq. simpl. by rewrite Hd, Ha, Hu.
    + simplify_eq. simpl. counters. by rewrite Hd, Ha, Hu.
    + destruct (get_raw_path p3). simplify_eq. simpl.
      destruct (has_too_many_hops p3), (has_errors p3),
        (get_reduced_ixp_indexes p3); case_bool_decide; counters;
        by rewrite Hd, Ha, Hu.
  - simplify_eq. simpl. rewrite !Hhops by done. counters. by rewrite !Hst1.
Qed.

End translate_facts.

(** ** Claims on [process_message] and the run *)

Section message_claims.
Context `{ASPathOps}.
Variable lookup : IPLookup.
Variable get_dst_addr : Msg → string.
Variables (unified_timestamp : Z) (msm_ids probe_ids : option (gset Z))
          (target_asn : option string).

Lemma filtered_out_returns msg :
  has_fields msg msm_ids = true → returns (filtered_out msg msm_ids probe_ids).
Proof.
  unfold has_fields, filtered_out. intros Hf.
  apply andb_true_iff in Hf as [Hf _].
  apply andb_true_iff in Hf as [Hmsm Hprb].
  apply bool_decide_eq_true_1 in Hprb as [p ->].
  destruct msm_ids as [ids|]; simpl in *.
  - apply bool_decide_eq_true_1 in Hmsm as [m ->].
    case_bool_decide; [done|]. by destruct probe_ids.
  - by destruct probe_ids.
Qed.

Lemma translate_returns msg f pa da px st run :
  has_fields msg msm_ids = true →
  returns (translate lookup msg f pa da px unified_timestamp st run).1.
Proof.
  unfold has_fields, translate. intros Hf.
  apply andb_true_iff in Hf as [Hf Hres].
  apply andb_true_iff in Hf as [_ Hprb].
  apply bool_decide_eq_true_1 in Hprb as [p ->].
  destruct (m_result msg) as [traceroute|]; [|done]. simpl in Hres.
  match goal with
  | |- context [process_hops lookup traceroute ?s ?p] =>
    pose proof (process_hops_returns lookup traceroute s p Hres) as Hret;
    destruct (process_hops lookup traceroute s p) as [[[[]|e] st2] p2]
  end; simpl in *; [done| |done].
  destruct (get_reduced_path st2 p2) as [[[[rp rip] len] st3] p3].
  destruct (bool_decide (len = 0)); [done|].
  destruct (bool_decide (len = 1)); [done|].
  by destruct (get_raw_path p3).
Qed.

Lemma process_message_returns msg dup run :
  has_fields msg msm_ids = true →
  returns (process_message lookup get_dst_addr msg unified_timestamp
             msm_ids probe_ids target_asn dup run).1.
Proof.
  intros Hf.
  destruct (resolves lookup get_dst_addr msg msm_ids probe_ids target_asn)
    eqn:Hres.
  - rewrite process_message_resolved by done.
    destruct (_ && _); [done|]. by apply translate_returns.
  - destruct (process_message_unresolved lookup get_dst_addr msg
                unified_timestamp msm_ids probe_ids target_asn dup run Hres)
      as (st & -> & _).
    pose proof (filtered_out_returns msg Hf) as Hfo.
    by destruct (filtered_out msg msm_ids probe_ids).
Qed.

(** Where the seen set stands after a message. *)
Lemma process_message_seen msg dup run r run' :
  process_message lookup get_dst_addr msg unified_timestamp msm_ids probe_ids
    target_asn dup run = (r, run') →
  match r with
  | Return (Some out) =>
    passes_duplicate_check lookup get_dst_addr msg msm_ids probe_ids
      target_asn dup run = true
    ∧ (peer_address out, prefix out) = dedup_key lookup get_dst_addr msg
    ∧ seen_peer_prefixes run' =
      {[dedup_key lookup get_dst_addr msg]} ∪ seen_peer_prefixes run
  | _ => seen_peer_prefixes run' = seen_peer_prefixes run
  end.
Proof.
  intros Hpm. unfold passes_duplicate_check.
  destruct (resolves lookup get_dst_addr msg msm_ids probe_ids target_asn)
    eqn:Hres.
  - rewrite process_message_resolved in Hpm by done.
    destruct (_ && _); [by simplify_eq|].
    apply translate_seen in Hpm.
    destruct r as [[out|]|e]; [|done..].
    destruct Hpm as (-> & -> & -> & _).
    by destruct (dedup_key lookup get_dst_addr msg).
  - destruct (process_message_unresolved lookup get_dst_addr msg
                unified_timestamp msm_ids probe_ids target_asn dup run Hres)
      as (st & Heq & _).
    rewrite Heq in Hpm.
    by destruct (filtered_out msg msm_ids probe_ids); simplify_eq.
Qed.

(** The seen set only grows from message to message. *)
Lemma read_loop_seen msgs dup run written r run' written' :
  read_loop lookup get_dst_addr msgs unified_timestamp msm_ids probe_ids
    target_asn dup run written = (r, run', written') →
  seen_peer_prefixes run ⊆ seen_peer_prefixes run'.
Proof.
  revert run written.
  induction msgs as [|msg msgs IHm]; intros run written Hloop; simpl in Hloop.
  - by simplify_eq.
  - destruct (process_message _ _ _ _ _ _ _ _ _) as [[[out|]|e] run1] eqn:Hpm;
      apply process_message_seen in Hpm.
    + apply IHm in Hloop. destruct Hpm as (_ & _ & Hseen). set_solver.
    + apply IHm in Hloop. set_solver.
    + simplify_eq. set_solver.
Qed.

(** C3, as the code has it: the key is marked as seen and ['used'] is
    counted only together with the record, which then carries the key;
    ['accepted'] is counted for every message that passes the duplicate
    check and returns, with or without a record, and for no message
    dropped before or at that check. *)
Theorem key_and_used_only_with_record `{!ReducerFrame} msg dup run r run' :
  process_message lookup get_dst_addr msg unified_timestamp msm_ids probe_ids
    target_asn dup run = (r, run') →
  match r with
  | Return (Some out) =>
    passes_duplicate_check lookup get_dst_addr msg msm_ids probe_ids
      target_asn dup run = true
    ∧ (peer_address out, prefix out) = dedup_key lookup get_dst_addr msg
    ∧ seen_peer_prefixes run' =
      {[dedup_key lookup get_dst_addr msg]} ∪ seen_peer_prefixes run
    ∧ get "accepted" (stats run') = get "accepted" (stats run) + 1
    ∧ get "used" (stats run') = get "used" (stats run) + 1
  | Return None =>
    seen_peer_prefixes run' = seen_peer_prefixes run
    ∧ get "used" (stats run') = get "used" (stats run)
    ∧ get "accepted" (stats run') =
      get "accepted" (stats run)
      + (if passes_duplicate_check lookup get_dst_addr msg msm_ids probe_ids
              target_asn dup run then 1 else 0)
  | Raise _ =>
    seen_peer_prefixes run' = seen_peer_prefixes run
    ∧ get "used" (stats run') = get "used" (stats run)
  end.
Proof.
  intros Hpm. pose proof (process_message_seen _ _ _ _ _ Hpm) as Hseen.
  unfold passes_duplicate_check in *.
  destruct (resolves lookup get_dst_addr msg msm_ids probe_ids target_asn)
    eqn:Hres.
  - rewrite process_message_resolved in Hpm by done.
    destruct (_ && _).
    { simplify_eq. simpl. split; [done|]. counters. split; [done|lia]. }
    apply translate_counters in Hpm as [_ Hc]; [|done].
    destruct r as [[out|]|e]; revert Hc; counters; simpl; intros Hc.
    + destruct Hseen as (? & ? & ?), Hc as [??]. by repeat split.
    + destruct Hc as [??]. by repeat split.
    + done.
  - destruct (process_message_unresolved lookup get_dst_addr msg
                unified_timestamp msm_ids probe_ids target_asn dup run Hres)
      as (st & Heq & Ha & Hu & _).
    rewrite Heq in Hpm.
    destruct (filtered_out msg msm_ids probe_ids) as [[]|]; simplify_eq;
      simpl; rewrite ?Ha, ?Hu; repeat split; try done; lia.
Qed.

(** C4, as the code has it: once a message has produced a record, a later
    message of the same run with the same key that passes the filters and
    the resolution steps is dropped when duplicates are off: it returns
    the empty dictionary and counts one more ['duplicate']. *)
Theorem second_with_same_key_is_duplicate
    msg1 between msg2 run out run1 written run2 written' :
  process_message lookup get_dst_addr msg1 unified_timestamp msm_ids
    probe_ids target_asn false run = (Return (Some out), run1) →
  read_loop lookup get_dst_addr between unified_timestamp msm_ids probe_ids
    target_asn false run1 written = (Return (), run2, written') →
  resolves lookup get_dst_addr msg2 msm_ids probe_ids target_asn = true →
  dedup_key lookup get_dst_addr msg2 = dedup_key lookup get_dst_addr msg1 →
  ∃ run3,
    process_message lookup get_dst_addr msg2 unified_timestamp msm_ids
      probe_ids target_asn false run2 = (Return None, run3)
    ∧ get "duplicate" (stats run3) = get "duplicate" (stats run2) + 1
    ∧ seen_peer_prefixes run3 = seen_peer_prefixes run2.
Proof.
  intros Hfirst Hloop Hres Hkey.
  apply process_message_seen in Hfirst as (_ & _ & Hseen1).
  apply read_loop_seen in Hloop.
  rewrite process_message_resolved by done.
  rewrite bool_decide_eq_true_2 by (rewrite Hkey; set_solver).
  simpl. eexists. split; [done|]. simpl. by counters.
Qed.

End message_claims.

(** ** Claim on [print_stats] *)

Section print_stats_claims.

(** C10: with a non-zero total, [print_stats] raises [ZeroDivisionError]
    as soon as ['accepted'] or ['used'] is zero; a zero total prints
    'No values.' and returns, and with the three counters non-zero the
    table is printed. *)
Theorem print_stats_zero_division st :
  0 < get "total" st →
  (get "accepted" st = 0 ∨ get "used" st = 0 →
     print_stats st = Raise ZeroDivisionError)
  ∧ (get "accepted" st ≠ 0 → get "used" st ≠ 0 → returns (print_stats st))
  ∧ ∀ st0, get "total" st0 = 0 →
      print_stats st0 = Return [("No values.", 0, [])].
Proof.
  intros Htotal. unfold print_stats, percent_of. split; [|split].
  - intros Hzero.
    rewrite (bool_decide_eq_false_2 (get "total" st = 0)) by lia.
    destruct Hzero as [Hz|Hz].
    + by rewrite (bool_decide_eq_true_2 (get "accepted" st = 0)).
    + rewrite (bool_decide_eq_true_2 (get "used" st = 0)) by done.
      by case_bool_decide.
  - intros Ha Hu.
    rewrite (bool_decide_eq_false_2 (get "total" st = 0)) by lia.
    rewrite (bool_decide_eq_false_2 (get "accepted" st = 0)) by done.
    by rewrite (bool_decide_eq_false_2 (get "used" st = 0)) by done.
  - intros st0 Hz. by rewrite (bool_decide_eq_true_2 (get "total" st0 = 0)).
Qed.

End print_stats_claims.

(** ** The specified accumulator and the examples *)

Section spec_path_facts.

Lemma incr_if_other b k k' st :
  k ≠ k' → get k' (SpecPath.incr_if b k st) = get k' st.
Proof. intros. destruct b; simpl; [by apply get_incr_ne | done]. Qed.

Lemma incr_if_scopes b k st : scopes (SpecPath.incr_if b k st) = scopes st.
Proof. by destruct b. Qed.

(** The reduction of the specified accumulator only moves its own
    counters. *)
Global Instance spec_path_frame : @ReducerFrame SpecPath.ops.
Proof.
  split.
  - intros st p k Hk. simpl. unfold SpecPath.reduce_stats, reducer_counters in *.
    rewrite !incr_if_other; [done|set_solver..].
  - intros st p. simpl. unfold SpecPath.reduce_stats.
    by rewrite !incr_if_scopes.
Qed.

(** What the calls of a single hop on an IXP leave in the specified path:
    four raw entries over four copies of the address, the first three
    positions marked. *)
Lemma spec_path_ixp_entries (p : SpecPath.t) (address t1 t2 t3 t4 : string) :
  let p' :=
    append t4 address false
      (append t3 address true (append t2 address true
         (append t1 address true p))) in
  SpecPath.raw_entries p' =
    SpecPath.raw_entries p ++ [Tok t1; Tok t2; Tok t3; Tok t4]
  ∧ SpecPath.raw_ip_entries p' =
    SpecPath.raw_ip_entries p
    ++ [Tok address; Tok address; Tok address; Tok address]
  ∧ SpecPath.ixp_raw_indexes p' =
    SpecPath.ixp_raw_indexes p
    ++ [SpecPath.position p; SpecPath.position p + 1; SpecPath.position p + 2].
Proof.
  simpl. unfold SpecPath.position. simpl.
  rewrite <- !app_assoc. simpl. rewrite !length_app. simpl.
  repeat split. by rewrite !Nat2Z.inj_add.
Qed.

End spec_path_facts.

(** ** The claims on concrete hops and messages *)

Import Examples.
Import MoreExamples.

(** A TTL-255 hop with an answer and a timeout is appended as a timeout;
    one without replies ends the path, one without fields fails. *)
Lemma ttl_255_appends_timeout_witness :
  process_hop lookup hop_255 stats0 SpecPath.empty =
  (Return false, stats0,
   flag_too_many_hops (append "as|0" "*" false SpecPath.empty))
  ∧ process_hop lookup hop_255_empty stats0 SpecPath.empty =
    (Return true, incr "dnf" stats0, SpecPath.empty)
  ∧ process_hop lookup hop_255_no_fields stats0 SpecPath.empty =
    (Raise (KeyError "result"), stats0, SpecPath.empty).
Proof.
  split; [|split].
  - destruct (ttl_255_appends_timeout (H := SpecPath.ops) lookup hop_255 stats0
                SpecPath.empty) as [Hw _].
    apply (Hw {["198.51.100.7"; "*"]} ∅). vm_compute. reflexivity.
  - destruct (ttl_255_appends_timeout (H := SpecPath.ops) lookup hop_255_empty
                stats0 SpecPath.empty) as [_ Hw].
    destruct (Hw eq_refl) as [_ Heq]. vm_compute in Heq |- *. exact Heq.
  - destruct (ttl_255_appends_timeout (H := SpecPath.ops) lookup
                hop_255_no_fields stats0 SpecPath.empty) as [_ Hw].
    destruct (Hw eq_refl) as [_ Heq]. vm_compute in Heq |- *. exact Heq.
Defined.

(** C2 fails as stated: a hop with TTL 255 ends the path when one of its
    replies carries a send failure, when it has no reply at all, and when
    the hop itself carries the send failure. *)
Lemma ttl_255_can_abort :
  h_hop hop_255_send_failed = Some 255
  ∧ process_hop lookup hop_255_send_failed stats0 SpecPath.empty =
    (Return true, incr "dnf" stats0, SpecPath.empty)
  ∧ h_hop hop_255_empty = Some 255
  ∧ process_hop lookup hop_255_empty stats0 SpecPath.empty =
    (Return true, incr "dnf" stats0, SpecPath.empty)
  ∧ h_hop hop_255_error = Some 255
  ∧ process_hop lookup hop_255_error stats0 SpecPath.empty =
    (Return true, incr "dnf" stats0, SpecPath.empty).
Proof. conjuncts; vm_compute; reflexivity. Qed.

(** The hop on the exchange appends its four entries in order. *)
Lemma single_address_hop_witness :
  process_hop lookup hop_ixp stats0 SpecPath.empty =
  (Return false, stats0,
   append "as|64502" "203.0.113.9" false
     (append "ip|203.0.113.9" "203.0.113.9" true
        (append "ix|7;as|64502" "203.0.113.9" true
           (append "ix|7" "203.0.113.9" true SpecPath.empty)))).
Proof.
  assert (Hw := single_address_hop (H := SpecPath.ops) lookup hop_ixp stats0
                  SpecPath.empty 2 {["203.0.113.9"]} ∅ "203.0.113.9").
  specialize (Hw ltac:(vm_compute; reflexivity) ltac:(lia)
                 ltac:(vm_compute; reflexivity) ltac:(discriminate)).
  vm_compute in Hw |- *. exact Hw.
Defined.

(** The hop with two addresses and a timeout is appended as one set of
    five tokens over five addresses, the smaller address first. *)
Lemma multi_address_hop_witness :
  process_hop lookup hop_two stats0 SpecPath.empty =
  (Return false, stats0,
   append_set
     ["as|64503"; "ix|7"; "ix|7;as|64502"; "ip|203.0.113.9"; "as|64502"]
     ["203.0.113.77"; "203.0.113.9"; "203.0.113.9"; "203.0.113.9";
      "203.0.113.9"]
     true SpecPath.empty).
Proof.
  assert (Hw := multi_address_hop (H := SpecPath.ops) lookup hop_two stats0
                  SpecPath.empty 3 {["203.0.113.9"; "203.0.113.77"; "*"]} ∅).
  specialize (Hw ltac:(vm_compute; reflexivity) ltac:(lia)
                 ltac:(vm_compute; lia)).
  destruct Hw as [Hw _]. vm_compute in Hw |- *. exact Hw.
Defined.

(** An answer next to a timeout is a single hop on the answer. *)
Lemma placeholder_discarded_witness :
  process_hop lookup hop_peer stats0 SpecPath.empty =
  (Return false, stats0, append "as|64500" "192.0.2.1" false SpecPath.empty).
Proof.
  destruct (placeholder_discarded (H := SpecPath.ops) lookup hop_peer stats0
              SpecPath.empty 1 {["192.0.2.1"; "*"]} ∅) as (_ & Hone & _).
  - vm_compute. reflexivity.
  - lia.
  - destruct (Hone "192.0.2.1") as (_ & Heq & _);
      [reflexivity | discriminate |].
    vm_compute in Heq |- *. exact Heq.
Defined.

(** Three timeouts at one hop give one 'as|0'/'*' entry. *)
Lemma timeout_hop_example :
  process_hop lookup hop_timeout stats0 SpecPath.empty =
  (Return false, stats0, append "as|0" "*" false SpecPath.empty).
Proof. vm_compute. reflexivity. Qed.

(** An error reply from an address already in the path changes nothing,
    for the loop and for the hop; at its first appearance the address is
    observed with its code, next to the timeout and the other answer. *)
Lemma error_reply_once_witness :
  scan_reply path_seen (icmp_error "198.51.100.7" (Str "N")) ∅ ∅ = Scanned ∅ ∅
  ∧ process_hop lookup
      (hop_of 4 [answer "203.0.113.9"; icmp_error "198.51.100.7" (Str "N")])
      stats0 path_seen =
    process_hop lookup (hop_of 4 [answer "203.0.113.9"]) stats0 path_seen
  ∧ hop_observation SpecPath.empty hop_first_error =
    Some (4, {["198.51.100.7"; "*"; "203.0.113.9"]}, {["N"]}).
Proof.
  split; [|split].
  - destruct (error_reply_once (H := SpecPath.ops) lookup path_seen
                (icmp_error "198.51.100.7" (Str "N")) "198.51.100.7" (Str "N"))
      as [Hseen _]; [reflexivity..|].
    destruct Hseen as [Hskip _]; [vm_compute; reflexivity|].
    apply Hskip.
  - destruct (error_reply_once (H := SpecPath.ops) lookup path_seen
                (icmp_error "198.51.100.7" (Str "N")) "198.51.100.7" (Str "N"))
      as [Hseen _]; [reflexivity..|].
    destruct Hseen as (_ & _ & Hhop); [vm_compute; reflexivity|].
    exact (Hhop (hop_of 4 [answer "203.0.113.9";
                           icmp_error "198.51.100.7" (Str "N")])
                [answer "203.0.113.9"] [] stats0 eq_refl).
  - destruct (error_reply_once (H := SpecPath.ops) lookup SpecPath.empty
                (icmp_error "198.51.100.7" (Str "N")) "198.51.100.7" (Str "N"))
      as [_ Hnew]; [reflexivity..|].
    destruct Hnew as (_ & _ & Hhop); [vm_compute; reflexivity|reflexivity|].
    destruct (Hhop [timeout] [answer "203.0.113.9"]) as [_ Hobs].
    { repeat constructor. }
    specialize (Hobs hop_first_error 4 eq_refl eq_refl eq_refl).
    vm_compute in Hobs |- *. exact Hobs.
Defined.

(** Two codes at one hop give one annotation, recorded before the entry. *)
Lemma hop_error_annotation_witness :
  process_hop lookup hop_errors stats0 SpecPath.empty =
  (Return false, stats0,
   append "as|64501" "198.51.100.7" false
     (mark_hop_error "3 N" SpecPath.empty)).
Proof.
  destruct (hop_error_annotation (H := SpecPath.ops) lookup hop_errors stats0
              SpecPath.empty 4 {["198.51.100.7"]} {["N"; "3"]}) as [Heq _].
  - vm_compute. reflexivity.
  - lia.
  - by_evaluation.
  - by_evaluation.
  - vm_compute in Heq |- *. exact Heq.
Defined.

(** C3 fails as stated: a message whose traceroute does not finish returns
    the empty dictionary and has counted one ['accepted']. *)
Lemma rejected_message_counts_as_accepted :
  (process_message lookup get_dst_addr msg_dnf 1000 None None None false
     run0).1 = Return None
  ∧ get "accepted" (stats run0) = 0
  ∧ get "accepted"
      (stats (process_message lookup get_dst_addr msg_dnf 1000 None None None
                false run0).2) = 1
  ∧ get "dnf"
      (stats (process_message lookup get_dst_addr msg_dnf 1000 None None None
                false run0).2) = 1.
Proof. conjuncts; vm_compute; reflexivity. Qed.

(** The message that does not finish: no key, no ['used'], one
    ['accepted']. *)
Lemma key_and_used_only_with_record_witness :
  seen_peer_prefixes
    (process_message lookup get_dst_addr msg_dnf 1000 None None None false
       run0).2 = seen_peer_prefixes run0
  ∧ get "used"
      (stats (process_message lookup get_dst_addr msg_dnf 1000 None None None
                false run0).2) = get "used" (stats run0)
  ∧ get "accepted"
      (stats (process_message lookup get_dst_addr msg_dnf 1000 None None None
                false run0).2) = get "accepted" (stats run0) + 1.
Proof.
  assert (Hw := key_and_used_only_with_record (H := SpecPath.ops) lookup
                  get_dst_addr 1000 None None None msg_dnf false run0
                  (Return None)
                  (process_message lookup get_dst_addr msg_dnf 1000 None None
                     None false run0).2).
  specialize (Hw ltac:(vm_compute; reflexivity)).
  vm_compute in Hw |- *. exact Hw.
Defined.

(** C4 fails as stated: after a message that did not finish, a message
    with the same key, duplicates off, gives a record and counts no
    ['duplicate']. *)
Lemma second_with_same_key_can_be_used :
  dedup_key lookup get_dst_addr msg_ok = dedup_key lookup get_dst_addr msg_dnf
  ∧ (read_loop lookup get_dst_addr [msg_dnf] 1000 None None None false
       run0 []).1.1 = Return ()
  ∧ returns (process_message lookup get_dst_addr msg_ok 1000 None None None
               false
               (read_loop lookup get_dst_addr [msg_dnf] 1000 None None None
                  false run0 []).1.2).1
  ∧ (process_message lookup get_dst_addr msg_ok 1000 None None None false
       (read_loop lookup get_dst_addr [msg_dnf] 1000 None None None
          false run0 []).1.2).1 ≠ Return None
  ∧ get "duplicate"
      (stats (process_message lookup get_dst_addr msg_ok 1000 None None None
                false
                (read_loop lookup get_dst_addr [msg_dnf] 1000 None None None
                   false run0 []).1.2).2) = 0.
Proof. conjuncts; vm_compute; try reflexivity; try exact I; discriminate. Qed.

(** After a message that gave a record, and another one in between, the
    same key again is a duplicate. *)
Lemma second_with_same_key_is_duplicate_witness :
  ∃ run3,
    process_message lookup get_dst_addr msg_ok_again 1000 None None None false
      (read_loop lookup get_dst_addr [msg_ok; msg_dnf] 1000 None None None
         false run0 []).1.2 = (Return None, run3)
    ∧ get "duplicate" (stats run3) =
      get "duplicate"
        (stats (read_loop lookup get_dst_addr [msg_ok; msg_dnf] 1000 None None
                  None false run0 []).1.2) + 1
    ∧ seen_peer_prefixes run3 =
      seen_peer_prefixes
        (read_loop lookup get_dst_addr [msg_ok; msg_dnf] 1000 None None None
           false run0 []).1.2.
Proof.
  eapply (second_with_same_key_is_duplicate (H := SpecPath.ops) lookup
            get_dst_addr 1000 None None None msg_ok [msg_dnf] msg_ok_again
            run0 _ _ []).
  - vm_compute. reflexivity.
  - vm_compute. reflexivity.
  - vm_compute. reflexivity.
  - vm_compute. reflexivity.
Defined.

(** With one message counted and none accepted, or none used, the summary
    fails; with one of each it is printed. *)
Lemma print_stats_zero_division_witness :
  print_stats stats_none_accepted = Raise ZeroDivisionError
  ∧ print_stats stats_none_used = Raise ZeroDivisionError
  ∧ returns (print_stats stats_one_used).
Proof.
  assert (0 < get "total" stats_none_accepted) as H1 by by_evaluation.
  assert (0 < get "total" stats_none_used) as H2 by by_evaluation.
  assert (0 < get "total" stats_one_used) as H3 by by_evaluation.
  destruct (print_stats_zero_division stats_none_accepted H1) as (Hz1 & _ & _).
  destruct (print_stats_zero_division stats_none_used H2) as (Hz2 & _ & _).
  destruct (print_stats_zero_division stats_one_used H3) as (_ & Hr3 & _).
  split; [|split].
  - apply Hz1. left. vm_compute. reflexivity.
  - apply Hz2. right. vm_compute. reflexivity.
  - apply Hr3; by_evaluation.
Defined.

(** * Further properties *)

(** ** How a hop ends *)

Section hop_end_facts.
Context `{ASPathOps}.
Variable lookup : IPLookup.

Lemma process_hop_effect hop st path :
  match process_hop lookup hop st path with
  | (Return true, st', path') => st' = incr "dnf" st ∧ path' = path
  | (Return false, st', _) => st' = st
  | (Raise e, st', path') =>
    e = KeyError "result" ∧ st' = st ∧ path' = path
    ∧ h_error hop = None ∧ h_result hop = None
  end.
Proof.
  destruct (hop_observation path hop) as [[[ttl A] E]|] eqn:Hobs.
  - rewrite (process_hop_observed _ _ _ _ _ _ _ Hobs).
    case_bool_decide; [done|].
    destruct (hop_observation_inv _ _ _ _ _ Hobs) as (_ & _ & HA & _).
    by rewrite (classify_returns lookup A E path HA).
  - by destruct (process_hop_not_observed lookup hop st path Hobs)
      as [->|(? & ? & ->)].
Qed.

(** X1: a hop ends the path exactly when it counts one 'dnf', and then it
    leaves the path as it was; a hop that lets the path go on counts
    nothing; the only exception is the [KeyError] for a hop that has
    neither 'error' nor 'result', raised before anything is changed. *)
Theorem hop_abort_counts_dnf hop st path :
  match process_hop lookup hop st path with
  | (Return true, st', path') => st' = incr "dnf" st ∧ path' = path
  | (Return false, st', _) => st' = st
  | (Raise e, st', path') =>
    e = KeyError "result" ∧ st' = st ∧ path' = path
    ∧ h_error hop = None ∧ h_result hop = None
  end.
Proof. apply process_hop_effect. Qed.

(** X2: a hop ends the path exactly when the hop carries 'error', or it
    has a 'result' in which some reply carries 'error', or in which every
    reply (possibly none) is an error reply from an address already in the
    path, or it has a 'result' but no 'hop' field. *)
Theorem process_hop_aborts_iff hop st path :
  (process_hop lookup hop st path).1.1 = Return true ↔
  is_Some (h_error hop)
  ∨ ∃ replies, h_result hop = Some replies
      ∧ (Exists (λ reply, is_Some (r_error reply)) replies
         ∨ Forall (λ reply, suppressed path reply = true) replies
         ∨ h_hop hop = None).
Proof.
  unfold process_hop.
  destruct (h_error hop) as [e|].
  { rewrite bool_decide_eq_true_2 by eauto. simpl. split; [by left; eauto|done]. }
  rewrite bool_decide_eq_false_2 by (by intros [??]).
  destruct (h_result hop) as [replies|]; simpl.
  2:{ split; [done|]. by intros [[??]|(? & ? & _)]. }
  rewrite scan_replies_closed, !union_empty_r_L.
  destruct (decide (Exists (λ reply, is_Some (r_error reply)) replies))
    as [Hex|Hex].
  { rewrite (bool_decide_eq_true_2 _ Hex). simpl.
    split; [intros _|done]. right. exists replies. by split; [|left]. }
  rewrite (bool_decide_eq_false_2 _ Hex).
  destruct (decide (⋃ (reply_address path <$> replies) = ∅)) as [Hno|Hsome].
  { rewrite Hno, size_empty, bool_decide_eq_true_2 by done. simpl.
    split; [intros _|done]. right. exists replies. split; [done|right; left].
    by apply no_address_iff_suppressed. }
  rewrite bool_decide_eq_false_2.
  2:{ intros ?%size_empty_inv. by apply Hsome, leibniz_equiv. }
  assert (¬ Forall (λ reply, suppressed path reply = true) replies) as Hnot.
  { by rewrite <- no_address_iff_suppressed. }
  destruct (h_hop hop) as [ttl|]; simpl.
  2:{ split; [intros _|done]. right. exists replies. by split; [|right; right]. }
  assert ((if bool_decide (ttl = 255)
           then (Return false, st,
                 flag_too_many_hops (append "as|0" "*" false path))
           else let '(r, path0) :=
                  classify lookup (⋃ (reply_address path <$> replies))
                           (⋃ (reply_error path <$> replies)) path in
                (r, st, path0)).1.1 = Return false) as ->.
  { case_bool_decide; [done|].
    pose proof (classify_returns lookup _ (⋃ (reply_error path <$> replies))
                  path Hsome) as Hret.
    by destruct (classify _ _ _ _) as [r p]; simpl in *. }
  split; [done|].
  intros [[? [=]]|(l & [= <-] & [?|[?|[=]]])]; done.
Qed.

End hop_end_facts.

(** ** The replies of a hop and the hops of a message *)

Section hop_order_facts.
Context `{ASPathOps}.
Variable lookup : IPLookup.

(** X3: what a hop does depends on its replies only as a set: their order
    and repetitions make no difference. *)
Theorem hop_replies_as_set hop l1 l2 st path :
  (∀ reply, reply ∈ l1 ↔ reply ∈ l2) →
  process_hop lookup (with_replies hop l1) st path =
  process_hop lookup (with_replies hop l2) st path.
Proof.
  intros Hsame. unfold process_hop, with_replies. simpl.
  by rewrite (scan_replies_same_members path l1 l2 ∅ ∅ Hsame).
Qed.

Lemma process_hops_app before after st path :
  process_hops lookup (before ++ after) st path =
  match process_hops lookup before st path with
  | (Return false, st, path) => process_hops lookup after st path
  | r => r
  end.
Proof.
  revert st path. induction before as [|hop before IHb]; intros st path; simpl.
  - reflexivity.
  - destruct (process_hop lookup hop st path) as [[[[]|e] st1] p1];
      [done | apply IHb | done].
Qed.

(** The hops of a message leave the statistics alone, but for the one
    'dnf' of the hop that ends the path. *)
Lemma process_hops_stats traceroute st path :
  match process_hops lookup traceroute st path with
  | (Return true, st', _) => st' = incr "dnf" st
  | (_, st', _) => st' = st
  end.
Proof.
  revert st path.
  induction traceroute as [|hop traceroute IHt]; intros st path; simpl; [done|].
  pose proof (process_hop_effect lookup hop st path) as Hhop.
  destruct (process_hop lookup hop st path) as [[[[]|e] st1] p1].
  - by destruct Hhop.
  - subst st1. apply IHt.
  - by destruct Hhop as (_ & -> & _).
Qed.

Lemma process_hops_raises traceroute st path e st' path' :
  process_hops lookup traceroute st path = (Raise e, st', path') →
  e = KeyError "result".
Proof.
  revert st path.
  induction traceroute as [|hop traceroute IHt]; intros st path; simpl; [done|].
  pose proof (process_hop_effect lookup hop st path) as Hhop.
  destruct (process_hop lookup hop st path) as [[[[]|e1] st1] p1].
  - done.
  - apply IHt.
  - destruct Hhop as (-> & _). by intros [= <- _ _].
Qed.

(** X4: the hops are read up to the first one that ends the path: when the
    hops before it let the path go on, the result is the path they built
    and one 'dnf', whatever comes after. *)
Theorem hops_after_abort_ignored before hop after st path st1 path1 :
  process_hops lookup before st path = (Return false, st1, path1) →
  (process_hop lookup hop st1 path1).1.1 = Return true →
  process_hops lookup (before ++ hop :: after) st path =
  (Return true, incr "dnf" st, path1).
Proof.
  intros Hbefore Hhop.
  pose proof (process_hops_stats before st path) as Hst.
  rewrite Hbefore in Hst. subst st1.
  rewrite process_hops_app, Hbefore. simpl.
  pose proof (process_hop_effect lookup hop st path1) as Heff.
  destruct (process_hop lookup hop st path1) as [[[[]|e] st2] p2];
    simpl in Hhop; [|done..].
  by destruct Heff as [-> ->].
Qed.

End hop_order_facts.

(** ** The steps of a message, one by one *)

Section message_table.
Context `{ASPathOps}.
Variable lookup : IPLookup.
Variable get_dst_addr : Msg → string.

(** [process_message] as a table over the id filter, the resolution steps
    and the duplicate check. *)
Lemma process_message_table msg ts msm_ids probe_ids target dup run :
  process_message lookup get_dst_addr msg ts msm_ids probe_ids target dup run =
  match filtered_out msg msm_ids probe_ids with
  | Raise e => (Raise e, run)
  | Return true => (Return None, run)
  | Return false =>
    let st := incr "total" (stats run) in
    match verdict lookup get_dst_addr msg target with
    | Dropped counter => (Return None, with_stats (incr counter st) run)
    | OffTarget => (Return None, with_stats st run)
    | Resolved =>
      if bool_decide (dedup_key lookup get_dst_addr msg ∈ seen_peer_prefixes run)
         && negb dup
      then (Return None, with_stats (incr "duplicate" st) run)
      else translate lookup msg (dedup_key lookup get_dst_addr msg).1
             (ip2asn lookup (dedup_key lookup get_dst_addr msg).1)
             (ip2asn lookup (get_dst_addr msg))
             (dedup_key lookup get_dst_addr msg).2 ts st run
    end
  end.
Proof.
  unfold process_message, verdict, dedup_key.
  destruct (filtered_out msg msm_ids probe_ids) as [[]|e]; [done| |done].
  simpl.
  destruct (truthy (get_dst_addr msg)); simpl; [|done].
  destruct (bool_decide (ip2asn lookup (get_dst_addr msg) = "0")); [done|].
  destruct (bool_decide (is_Some target ∧ _)); [done|].
  destruct (truthy (ip2prefix lookup (get_dst_addr msg))); simpl; [|done].
  destruct (m_from msg) as [f|]; simpl; [|done].
  destruct (truthy f); simpl; [|done].
  by destruct (bool_decide (ip2asn lookup f = "0")).
Qed.

(** The counters under which a message is dropped before the translation. *)
Lemma verdict_counter msg target counter :
  verdict lookup get_dst_addr msg target = Dropped counter →
  counter ∈ ["no_dst_addr"; "no_dst_asn"; "no_prefix"; "no_from"; "no_peer_asn"].
Proof.
  unfold verdict. intros Hv.
  repeat (case_match; simplify_eq); set_solver.
Qed.

Lemma verdict_resolved msg target :
  verdict lookup get_dst_addr msg target = Resolved →
  ∃ f, m_from msg = Some f ∧ f ≠ "" ∧ ip2asn lookup f ≠ "0"
       ∧ get_dst_addr msg ≠ ""
       ∧ ip2asn lookup (get_dst_addr msg) ≠ "0"
       ∧ ip2prefix lookup (get_dst_addr msg) ≠ ""
       ∧ (∀ t, target = Some t → ip2asn lookup (get_dst_addr msg) = t).
Proof.
  unfold verdict. intros Hv.
  destruct (truthy (get_dst_addr msg)) eqn:Hd; simpl in Hv; [|done].
  case_bool_decide as Hasn; [done|].
  case_bool_decide as Ht; [done|].
  destruct (truthy (ip2prefix lookup (get_dst_addr msg))) eqn:Hp;
    simpl in Hv; [|done].
  destruct (m_from msg) as [f|]; [|done].
  destruct (truthy f) eqn:Hf; simpl in Hv; [|done].
  case_bool_decide as Hpeer; [done|].
  exists f. repeat split; try done.
  - by intros ->.
  - by intros Heq; rewrite Heq in Hd.
  - by intros Heq; rewrite Heq in Hp.
  - intros t ->. destruct (decide (ip2asn lookup (get_dst_addr msg) = t));
      [done|]. exfalso. apply Ht. split; [eauto|congruence].
Qed.

Lemma verdict_off_target msg target :
  verdict lookup get_dst_addr msg target = OffTarget → is_Some target.
Proof.
  unfold verdict. intros Hv.
  repeat (case_match; simplify_eq).
  by match goal with H : bool_decide (_ ∧ _) = true |- _ =>
       apply bool_decide_eq_true_1 in H as [? _] end.
Qed.

End message_table.

(** ** What the translation leaves in the run *)

Lemma each_member (P : string → Prop) (l : list string) k :
  Forall P l → k ∈ l → P k.
Proof. rewrite Forall_forall. auto. Qed.

(** Proves a decidable goal about [k] from [Hk : k ∈ l], for a concrete
    list [l], by checking every member. *)
Ltac each_member k Hk :=
  pattern k; apply (λ HF, each_member _ _ k HF Hk); by_evaluation.

Section translate_effect.
Context `{ASPathOps} `{!ReducerFrame}.
Variable lookup : IPLookup.

(** After the probe id has been read, the translation sets the address of
    the probe, counts one 'accepted', one 'changed_ip' when the probe was
    seen with another address, one 'used' with a record, and adds the
    destination AS to the scopes with a record; the counters of the earlier
    steps stay. *)
Lemma translate_effect msg f pa da px ts st run r run' prb :
  m_prb_id msg = Some prb →
  translate lookup msg f pa da px ts st run = (r, run') →
  probe_ip_map run' = <[prb := f]> (probe_ip_map run)
  ∧ get "accepted" (stats run') = get "accepted" st + 1
  ∧ get "changed_ip" (stats run') =
    get "changed_ip" st
    + (match probe_ip_map run !! prb with
       | Some ip => if bool_decide (f ≠ ip) then 1 else 0
       | None => 0
       end)
  ∧ (∀ k, k ∈ ["total"; "no_dst_addr"; "no_dst_asn"; "no_prefix"; "no_from";
               "no_peer_asn"; "duplicate"] →
          get k (stats run') = get k st)
  ∧ match r with
    | Return (Some out) =>
      get "used" (stats run') = get "used" st + 1
      ∧ scopes (stats run') = {[da]} ∪ scopes st
      ∧ get "dnf" (stats run') = get "dnf" st
      ∧ rec_status out = "valid" ∧ el_type out = "R" ∧ rec_time out = ts
      ∧ peer_asn out = pa
    | Return None =>
      get "used" (stats run') = get "used" st
      ∧ scopes (stats run') = scopes st
    | Raise e =>
      get "used" (stats run') = get "used" st
      ∧ scopes (stats run') = scopes st
      ∧ e = KeyError "result"
    end.
Proof.
  unfold translate. intros -> Htr.
  set (st1 := match probe_ip_map run !! prb with
              | Some ip =>
                if bool_decide (f ≠ ip) then incr "changed_ip" st else st
              | None => st
              end) in *.
  assert (∀ k, k ≠ "changed_ip" → get k st1 = get k st) as Hst1.
  { intros k Hk. unfold st1. repeat case_match; counters; done. }
  assert (get "changed_ip" st1 =
          get "changed_ip" st
          + match probe_ip_map run !! prb with
            | Some ip => if bool_decide (f ≠ ip) then 1 else 0
            | None => 0
            end) as Hchanged.
  { unfold st1. repeat case_match; counters; lia. }
  assert (scopes st1 = scopes st) as Hsc1.
  { unfold st1. by repeat case_match. }
  clearbody st1.
  assert (∀ stF : Stats,
            (∀ k, k ∈ ["total"; "no_dst_addr"; "no_dst_asn"; "no_prefix";
                       "no_from"; "no_peer_asn"; "duplicate"; "accepted";
                       "changed_ip"] →
                  get k stF = get k (incr "accepted" st1)) →
            get "accepted" stF = get "accepted" st + 1
            ∧ get "changed_ip" stF =
              get "changed_ip" st
              + match probe_ip_map run !! prb with
                | Some ip => if bool_decide (f ≠ ip) then 1 else 0
                | None => 0
                end
            ∧ ∀ k, k ∈ ["total"; "no_dst_addr"; "no_dst_asn"; "no_prefix";
                        "no_from"; "no_peer_asn"; "duplicate"] →
                   get k stF = get k st) as Hfin.
  { intros stF HF. split; [|split].
    - rewrite HF by by_evaluation. counters. by rewrite Hst1.
    - rewrite HF by by_evaluation. by counters.
    - intros k Hk. rewrite HF by each_member k Hk.
      assert (k ≠ "accepted" ∧ k ≠ "changed_ip") as [??]
        by each_member k Hk.
      rewrite get_incr_ne by done. by apply Hst1. }
  assert (get "used" (incr "accepted" st1) = get "used" st) as Hused.
  { counters. by apply Hst1. }
  destruct (m_result msg) as [traceroute|].
  2:{ simplify_eq. simpl. split; [done|].
      destruct (Hfin (incr "accepted" st1)) as (? & ? & ?); [done|].
      by repeat split. }
  set (path := set_start_end_asn pa da new_path) in *. clearbody path.
  pose proof (process_hops_stats lookup traceroute (incr "accepted" st1) path)
    as Hhops.
  destruct (process_hops _ _ _ _) as [[[[]|e] st2] p2] eqn:Hraise.
  - subst st2. simplify_eq. simpl. split; [done|].
    destruct (Hfin (incr "dnf" (incr "accepted" st1))) as (? & ? & ?).
    { intros k Hk. assert (k ≠ "dnf") by each_member k Hk. by counters. }
    repeat split; try done. counters. by apply Hst1.
  - subst st2.
    pose proof (λ k, reducer_keeps_counter (incr "accepted" st1) p2 k) as Hred.
    pose proof (reducer_keeps_scopes (incr "accepted" st1) p2) as Hsc.
    destruct (get_reduced_path _ p2) as [[[[rp rip] len] st3] p3].
    simpl in Hred, Hsc.
    assert (∀ k, k ∈ ["total"; "no_dst_addr"; "no_dst_asn"; "no_prefix";
                      "no_from"; "no_peer_asn"; "duplicate"; "accepted";
                      "changed_ip"; "used"; "dnf"] →
                 get k st3 = get k (incr "accepted" st1)) as H3.
    { intros k Hk. apply Hred. each_member k Hk. }
    destruct (bool_decide (len = 0)); [|destruct (bool_decide (len = 1))].
    + simplify_eq. simpl. split; [done|].
      destruct (Hfin st3) as (? & ? & ?).
      { intros k Hk. apply H3. each_member k Hk. }
      repeat split; try done; [|congruence].
      rewrite H3 by by_evaluation. done.
    + simplify_eq. simpl. split; [done|].
      destruct (Hfin (incr "single_as" st3)) as (? & ? & ?).
      { intros k Hk. assert (k ≠ "single_as") by each_member k Hk.
        rewrite get_incr_ne by done. apply H3. each_member k Hk. }
      repeat split; try done; [|congruence].
      counters. rewrite H3 by by_evaluation. done.
    + destruct (get_raw_path p3). simplify_eq. simpl. split; [done|].
      match goal with
      | |- context [get "accepted" ?s] => set (stF := s)
      end.
      assert (∀ k, k ∈ ["total"; "no_dst_addr"; "no_dst_asn"; "no_prefix";
                        "no_from"; "no_peer_asn"; "duplicate"; "accepted";
                        "changed_ip"; "dnf"] →
                   get k stF = get k st3) as HF.
      { intros k Hk.
        assert (k ≠ "used" ∧ k ≠ "too_many_hops" ∧ k ≠ "errors"
                ∧ k ≠ "ixp_in_path") as (? & ? & ? & ?)
          by each_member k Hk.
        unfold stF.
        destruct (has_too_many_hops p3), (has_errors p3),
          (get_reduced_ixp_indexes p3); case_bool_decide;
          rewrite ?get_add_scope, ?get_incr_ne by done; done. }
      assert (get "used" stF = get "used" st3 + 1) as HFu.
      { unfold stF.
        destruct (has_too_many_hops p3), (has_errors p3),
          (get_reduced_ixp_indexes p3); case_bool_decide; by counters. }
      assert (scopes stF = {[da]} ∪ scopes st3) as HFs.
      { unfold stF.
        destruct (has_too_many_hops p3), (has_errors p3),
          (get_reduced_ixp_indexes p3); case_bool_decide as Hin;
          simpl in *; try done; set_solver. }
      destruct (Hfin stF) as (? & ? & ?).
      { intros k Hk. rewrite HF by each_member k Hk. apply H3.
        each_member k Hk. }
      repeat split; try done.
      * rewrite HFu, H3 by by_evaluation. by rewrite Hused.
      * rewrite HFs. congruence.
      * rewrite HF, H3 by by_evaluation. counters. by apply Hst1.
  - subst st2. apply process_hops_raises in Hraise as ->.
    simplify_eq. simpl. split; [done|].
    destruct (Hfin (incr "accepted" st1)) as (? & ? & ?); [done|].
    by repeat split.
Qed.

End translate_effect.

(** ** The bookkeeping of a message *)

Section message_bookkeeping.
Context `{ASPathOps} `{!ReducerFrame}.
Variable lookup : IPLookup.
Variable get_dst_addr : Msg → string.
Variables (unified_timestamp : Z) (msm_ids probe_ids : option (gset Z))
          (target_asn : option string).

Lemma resolves_iff_verdict msg :
  resolves lookup get_dst_addr msg msm_ids probe_ids target_asn = true ↔
  filtered_out msg msm_ids probe_ids = Return false
  ∧ verdict lookup get_dst_addr msg target_asn = Resolved.
Proof.
  split.
  - intros Hres.
    pose proof (process_message_resolved lookup get_dst_addr msg 0 msm_ids
                  probe_ids target_asn true run0 Hres) as Hpm.
    rewrite process_message_table in Hpm.
    unfold resolves in Hres.
    destruct (filtered_out msg msm_ids probe_ids) as [[]|e]; [done| |done].
    split; [done|].
    unfold verdict. 
    apply andb_true_iff in Hres as [Hres Hpeer].
    apply andb_true_iff in Hres as [Hres Hfrom].
    apply andb_true_iff in Hres as [Hres Hprefix].
    apply andb_true_iff in Hres as [Hres Htarget].
    apply andb_true_iff in Hres as [Hdst Hasn].
    apply bool_decide_eq_true_1 in Hpeer, Hasn.
    rewrite Hdst. simpl.
    rewrite (bool_decide_eq_false_2 (_ = "0")) by done.
    rewrite (bool_decide_eq_false_2 (is_Some target_asn ∧ _)).
    2:{ intros [[t ->] Hne]. simpl in Htarget.
        apply bool_decide_eq_true_1 in Htarget. congruence. }
    rewrite Hprefix. simpl.
    destruct (m_from msg) as [f|]; [|done]. simpl in *.
    rewrite Hfrom. simpl.
    by rewrite (bool_decide_eq_false_2 (_ = "0")) by done.
  - intros [Hfo Hv]. unfold resolves. rewrite Hfo.
    destruct (verdict_resolved lookup get_dst_addr msg target_asn Hv)
      as (f & Hf & Hfne & Hpeer & Hd & Hasn & Hp & Ht).
    rewrite Hf. simpl.
    rewrite !(bool_decide_eq_true_2 (_ ≠ "0")) by done.
    assert (∀ s, s ≠ "" → truthy s = true) as Htruthy by (by intros []).
    rewrite !Htruthy by done. simpl.
    destruct target_asn as [t|]; simpl; [|done].
    rewrite bool_decide_eq_true_2; [done|]. by apply Ht.
Qed.

(** The counters of one message: whether it is counted, accepted, used. *)
Lemma process_message_counts msg dup run r run' :
  process_message lookup get_dst_addr msg unified_timestamp msm_ids probe_ids
    target_asn dup run = (r, run') →
  let counted :=
    match filtered_out msg msm_ids probe_ids with
    | Return false => 1 | _ => 0
    end in
  let used := match r with Return (Some _) => 1 | _ => 0 end in
  get "total" (stats run') = get "total" (stats run) + counted
  ∧ get "used" (stats run') = get "used" (stats run) + used
  ∧ get "accepted" (stats run) + used ≤ get "accepted" (stats run')
  ∧ get "accepted" (stats run') ≤ get "accepted" (stats run) + counted
  ∧ (dup = true →
     get "duplicate" (stats run') = get "duplicate" (stats run))
  ∧ (target_asn = None → returns r →
     get "total" (stats run') - accounted (stats run') =
     get "total" (stats run) - accounted (stats run)).
Proof.
  rewrite process_message_table. intros Hpm.
  destruct (filtered_out msg msm_ids probe_ids) as [[]|e] eqn:Hfo;
    [simplify_eq; simpl; repeat split; lia| |
     simplify_eq; simpl; repeat split; lia].
  simpl in Hpm.
  destruct (verdict lookup get_dst_addr msg target_asn) as [k| |] eqn:Hv.
  - simplify_eq. simpl. apply verdict_counter in Hv.
    unfold accounted.
    repeat (apply elem_of_cons in Hv as [->|Hv]);
      [..|by apply elem_of_nil in Hv]; counters; repeat split; lia.
  - simplify_eq. simpl. apply verdict_off_target in Hv.
    counters. repeat split; try lia.
    intros ->. by destruct Hv.
  - destruct (bool_decide _ && negb dup) eqn:Hdup.
    + simplify_eq. simpl. unfold accounted. counters.
      repeat split; try lia.
      intros ->. by rewrite andb_false_r in Hdup.
    + destruct (m_prb_id msg) as [prb|] eqn:Hprb.
      * pose proof (translate_effect lookup _ _ _ _ _ _ _ _ _ _ _ Hprb Hpm)
          as (_ & Hacc & _ & Hframe & Hr).
        pose proof (Hframe "total" ltac:(by_evaluation)) as Ht.
        pose proof (Hframe "no_dst_addr" ltac:(by_evaluation)) as H1.
        pose proof (Hframe "no_dst_asn" ltac:(by_evaluation)) as H2.
        pose proof (Hframe "no_prefix" ltac:(by_evaluation)) as H3.
        pose proof (Hframe "no_from" ltac:(by_evaluation)) as H4.
        pose proof (Hframe "no_peer_asn" ltac:(by_evaluation)) as H5.
        pose proof (Hframe "duplicate" ltac:(by_evaluation)) as H6.
        revert Hacc Ht H1 H2 H3 H4 H5 H6 Hr. counters.
        intros Hacc Ht H1 H2 H3 H4 H5 H6 Hr.
        unfold accounted. rewrite Hacc, Ht, H1, H2, H3, H4, H5, H6.
        destruct r as [[out|]|e0].
        -- destruct Hr as (-> & _). repeat split; lia.
        -- destruct Hr as (-> & _). repeat split; lia.
        -- destruct Hr as (-> & _). repeat split; lia.
      * unfold translate in Hpm. rewrite Hprb in Hpm. simplify_eq. simpl.
        counters. repeat split; lia.
Qed.

Lemma read_loop_counts msgs dup run written r run' written' :
  read_loop lookup get_dst_addr msgs unified_timestamp msm_ids probe_ids
    target_asn dup run written = (r, run', written') →
  ∃ new,
    written' = written ++ new
    ∧ Forall (λ record, record.1 = prb_id record.2) new
    ∧ get "used" (stats run') = get "used" (stats run) + Z.of_nat (length new)
    ∧ get "used" (stats run') - get "used" (stats run)
      ≤ get "accepted" (stats run') - get "accepted" (stats run)
    ∧ get "accepted" (stats run') - get "accepted" (stats run)
      ≤ get "total" (stats run') - get "total" (stats run)
    ∧ get "total" (stats run') - get "total" (stats run)
      ≤ Z.of_nat (length msgs).
Proof.
  revert run written.
  induction msgs as [|msg msgs IHm]; intros run written Hloop;
    cbn [read_loop] in Hloop.
  - simplify_eq. exists []. rewrite app_nil_r. simpl. repeat split; [done|lia..].
  - destruct (process_message _ _ _ _ _ _ _ _ _) as [[[out|]|e] run1] eqn:Hpm;
      apply process_message_counts in Hpm as (Ht & Hu & Ha1 & Ha2 & _);
      cbn zeta in *.
    + apply IHm in Hloop as (new & -> & Hkeys & Hu' & Hua & Hat & Htl).
      exists ((prb_id out, out) :: new). rewrite <- app_assoc.
      split; [done|]. split; [by constructor|].
      rewrite !length_cons.
      destruct (filtered_out msg msm_ids probe_ids) as [[]|]; repeat split; lia.
    + apply IHm in Hloop as (new & -> & Hkeys & Hu' & Hua & Hat & Htl).
      exists new. split; [done|]. split; [done|].
      rewrite length_cons.
      destruct (filtered_out msg msm_ids probe_ids) as [[]|]; repeat split; lia.
    + simplify_eq. exists []. rewrite app_nil_r. split; [done|].
      split; [done|]. rewrite length_cons. simpl length.
      destruct (filtered_out msg msm_ids probe_ids) as [[]|]; repeat split; lia.
Qed.

(** X5: every message that passes the id filters counts one 'total',
    whatever happens to it afterwards, a [KeyError] included; a message
    that the filters exclude changes nothing in the run. *)
Theorem total_counts_unfiltered msg dup run :
  get "total"
    (stats (process_message lookup get_dst_addr msg unified_timestamp msm_ids
              probe_ids target_asn dup run).2) =
  get "total" (stats run)
  + (match filtered_out msg msm_ids probe_ids with
     | Return false => 1 | _ => 0
     end)
  ∧ (filtered_out msg msm_ids probe_ids = Return true →
     process_message lookup get_dst_addr msg unified_timestamp msm_ids
       probe_ids target_asn dup run = (Return None, run)).
Proof.
  split.
  - destruct (process_message _ _ _ _ _ _ _ _ _) as [r run'] eqn:Hpm.
    by apply process_message_counts in Hpm as (Ht & _).
  - intros Hfo. by rewrite process_message_table, Hfo.
Qed.

(** X6: without a target AS, a run that is not ended by an exception
    accounts for every counted message under exactly one of 'no_dst_addr',
    'no_dst_asn', 'no_prefix', 'no_from', 'no_peer_asn', 'duplicate' and
    'accepted': their sum grows as 'total' does. *)
Theorem run_accounts_for_total msgs dup run written run' written' :
  target_asn = None →
  read_loop lookup get_dst_addr msgs unified_timestamp msm_ids probe_ids
    target_asn dup run written = (Return (), run', written') →
  get "total" (stats run') - accounted (stats run') =
  get "total" (stats run) - accounted (stats run).
Proof.
  intros Hnone. revert run written.
  induction msgs as [|msg msgs IHm]; intros run written Hloop;
    cbn [read_loop] in Hloop.
  - by simplify_eq.
  - destruct (process_message _ _ _ _ _ _ _ _ _) as [[[out|]|e] run1] eqn:Hpm;
      [| |done];
      apply process_message_counts in Hpm as (_ & _ & _ & _ & _ & Hb);
      apply IHm in Hloop; rewrite Hloop; by apply Hb.
Qed.

(** X8: at the end of a run that started with the initial statistics,
    [print_stats] raises [ZeroDivisionError] exactly when at least one
    message was counted and no record was written. *)
Theorem print_stats_after_run msgs dup r run' written' :
  read_loop lookup get_dst_addr msgs unified_timestamp msm_ids probe_ids
    target_asn dup run0 [] = (r, run', written') →
  print_stats (stats run') = Raise ZeroDivisionError
  ↔ 0 < get "total" (stats run') ∧ written' = [].
Proof.
  intros (new & -> & _ & Hu & Hua & Hat & _)%read_loop_counts.
  change (get "used" (stats run0)) with 0 in *.
  change (get "accepted" (stats run0)) with 0 in *.
  change (get "total" (stats run0)) with 0 in *.
  simpl app. unfold print_stats, percent_of.
  destruct new as [|record new]; simpl length in *.
  - destruct (decide (get "total" (stats run') = 0)) as [Hz|Hz].
    + rewrite (bool_decide_eq_true_2 _ Hz). split; [done|lia].
    + rewrite (bool_decide_eq_false_2 _ Hz).
      split; [intros _; split; [lia|done]|intros _].
      destruct (decide (get "accepted" (stats run') = 0)) as [Ha|Ha].
      * by rewrite (bool_decide_eq_true_2 _ Ha).
      * rewrite (bool_decide_eq_false_2 _ Ha).
        by rewrite (bool_decide_eq_true_2 (get "used" (stats run') = 0)) by lia.
  - rewrite (bool_decide_eq_false_2 (get "total" (stats run') = 0)) by lia.
    rewrite (bool_decide_eq_false_2 (get "accepted" (stats run') = 0)) by lia.
    rewrite (bool_decide_eq_false_2 (get "used" (stats run') = 0)) by lia.
    split; [done|]. by intros [_ ?].
Qed.

End message_bookkeeping.

(** ** Records, keys, probes and scopes *)

Section record_facts.
Context `{ASPathOps}.
Variable lookup : IPLookup.
Variable get_dst_addr : Msg → string.
Variables (unified_timestamp : Z) (msm_ids probe_ids : option (gset Z))
          (target_asn : option string).

Lemma translate_record msg f pa da px ts st run out run' :
  translate lookup msg f pa da px ts st run = (Return (Some out), run') →
  rec_status out = "valid" ∧ el_type out = "R" ∧ rec_time out = ts
  ∧ peer_address out = f ∧ peer_asn out = pa ∧ prefix out = px
  ∧ m_prb_id msg = Some (prb_id out).
Proof.
  unfold translate. intros Htr.
  destruct (m_prb_id msg) as [prb|]; [|by simplify_eq].
  destruct (m_result msg) as [traceroute|]; [|by simplify_eq].
  destruct (process_hops _ _ _ _) as [[[[]|e] st2] p2];
    [by simplify_eq| |by simplify_eq].
  destruct (get_reduced_path st2 p2) as [[[[rp rip] len] st3] p3].
  destruct (bool_decide (len = 0)); [by simplify_eq|].
  destruct (bool_decide (len = 1)); [by simplify_eq|].
  destruct (get_raw_path p3). by simplify_eq.
Qed.

Lemma process_message_record msg dup run out run' :
  process_message lookup get_dst_addr msg unified_timestamp msm_ids probe_ids
    target_asn dup run = (Return (Some out), run') →
  rec_status out = "valid" ∧ el_type out = "R"
  ∧ rec_time out = unified_timestamp
  ∧ m_from msg = Some (peer_address out) ∧ peer_address out ≠ ""
  ∧ peer_asn out = ip2asn lookup (peer_address out) ∧ peer_asn out ≠ "0"
  ∧ prefix out = ip2prefix lookup (get_dst_addr msg) ∧ prefix out ≠ ""
  ∧ m_prb_id msg = Some (prb_id out)
  ∧ ip2asn lookup (get_dst_addr msg) ≠ "0"
  ∧ (∀ t, target_asn = Some t → ip2asn lookup (get_dst_addr msg) = t).
Proof.
  rewrite process_message_table. intros Hpm.
  destruct (filtered_out msg msm_ids probe_ids) as [[]|e]; [done| |done].
  simpl in Hpm.
  destruct (verdict lookup get_dst_addr msg target_asn) as [k| |] eqn:Hv;
    [done..|].
  destruct (bool_decide _ && negb dup); [done|].
  apply translate_record in Hpm as (? & ? & ? & Hpa & Hpasn & Hpx & ?).
  destruct (verdict_resolved lookup get_dst_addr msg target_asn Hv)
    as (f & Hf & Hfne & Hpeer & Hd & Hasn & Hp & Ht).
  unfold dedup_key in *. rewrite Hf in *. simpl in *. subst.
  repeat split; try done; congruence.
Qed.

(** X9: a record is only written for a message that resolved: it is marked
    valid, of type 'R', timed with the output timestamp, and carries the
    non-empty source address of the message, that address's AS, which is
    not '0', the non-empty prefix of the destination, and the probe id of
    the message; the destination AS is not '0' and is the target AS when
    one is set. *)
Theorem record_fields msg dup run out run' :
  process_message lookup get_dst_addr msg unified_timestamp msm_ids probe_ids
    target_asn dup run = (Return (Some out), run') →
  rec_status out = "valid" ∧ el_type out = "R"
  ∧ rec_time out = unified_timestamp
  ∧ m_from msg = Some (peer_address out) ∧ peer_address out ≠ ""
  ∧ peer_asn out = ip2asn lookup (peer_address out) ∧ peer_asn out ≠ "0"
  ∧ prefix out = ip2prefix lookup (get_dst_addr msg) ∧ prefix out ≠ ""
  ∧ m_prb_id msg = Some (prb_id out)
  ∧ ip2asn lookup (get_dst_addr msg) ≠ "0"
  ∧ (∀ t, target_asn = Some t → ip2asn lookup (get_dst_addr msg) = t).
Proof. apply process_message_record. Qed.

End record_facts.

(** ** Duplicates allowed, probe addresses, scopes *)

Section run_state_facts.
Context `{ASPathOps} `{!ReducerFrame}.
Variable lookup : IPLookup.
Variable get_dst_addr : Msg → string.
Variables (unified_timestamp : Z) (msm_ids probe_ids : option (gset Z))
          (target_asn : option string).

(** X11: with duplicates allowed a run counts no 'duplicate', however it
    ends. *)
Theorem duplicates_allowed_never_counted msgs run written r run' written' :
  read_loop lookup get_dst_addr msgs unified_timestamp msm_ids probe_ids
    target_asn true run written = (r, run', written') →
  get "duplicate" (stats run') = get "duplicate" (stats run).
Proof.
  revert run written.
  induction msgs as [|msg msgs IHm]; intros run written Hloop;
    cbn [read_loop] in Hloop.
  - by simplify_eq.
  - destruct (process_message _ _ _ _ _ _ _ _ _) as [[[out|]|e] run1] eqn:Hpm;
      apply process_message_counts in Hpm as (_ & _ & _ & _ & Hd & _);
      [apply IHm in Hloop; rewrite Hloop; by apply Hd..|].
    simplify_eq. by apply Hd.
Qed.

(** X12: a message that passes the duplicate check records the source
    address under its probe id, whether or not a record follows, and
    counts one 'changed_ip' exactly when the probe was recorded with
    another address; a message stopped earlier leaves both alone. *)
Theorem probe_address_recorded msg dup run p f :
  m_prb_id msg = Some p →
  m_from msg = Some f →
  let run' :=
    (process_message lookup get_dst_addr msg unified_timestamp msm_ids
       probe_ids target_asn dup run).2 in
  if passes_duplicate_check lookup get_dst_addr msg msm_ids probe_ids
       target_asn dup run
  then probe_ip_map run' = <[p := f]> (probe_ip_map run)
       ∧ get "changed_ip" (stats run') =
         get "changed_ip" (stats run)
         + (match probe_ip_map run !! p with
            | Some ip => if bool_decide (f ≠ ip) then 1 else 0
            | None => 0
            end)
  else probe_ip_map run' = probe_ip_map run
       ∧ get "changed_ip" (stats run') = get "changed_ip" (stats run).
Proof.
  intros Hp Hf run'. subst run'. unfold passes_duplicate_check.
  rewrite process_message_table.
  destruct (resolves lookup get_dst_addr msg msm_ids probe_ids target_asn)
    eqn:Hres.
  - apply resolves_iff_verdict in Hres as [-> ->]. simpl.
    destruct (bool_decide _ && negb dup); simpl.
    { split; [done|]. by counters. }
    destruct (translate _ _ _ _ _ _ _ _ _) as [r run'] eqn:Htr.
    apply (translate_effect lookup _ _ _ _ _ _ _ _ _ _ _ Hp) in Htr
      as (Hmap & _ & Hch & _).
    unfold dedup_key in *. rewrite Hf in *. simpl in *.
    split; [done|]. revert Hch. by counters.
  - simpl.
    assert (¬ (filtered_out msg msm_ids probe_ids = Return false
               ∧ verdict lookup get_dst_addr msg target_asn = Resolved))
      as Hnot.
    { rewrite <- resolves_iff_verdict. by rewrite Hres. }
    destruct (filtered_out msg msm_ids probe_ids) as [[]|e]; [done| |done].
    simpl.
    destruct (verdict lookup get_dst_addr msg target_asn) as [k| |] eqn:Hv.
    + apply verdict_counter in Hv. simpl. split; [done|].
      assert (k ≠ "changed_ip") by each_member k Hv. by counters.
    + simpl. split; [done|]. by counters.
    + by destruct Hnot.
Qed.

Lemma process_message_scopes msg dup run r run' :
  process_message lookup get_dst_addr msg unified_timestamp msm_ids probe_ids
    target_asn dup run = (r, run') →
  match r with
  | Return (Some _) =>
    scopes (stats run') =
    {[ip2asn lookup (get_dst_addr msg)]} ∪ scopes (stats run)
    ∧ verdict lookup get_dst_addr msg target_asn = Resolved
  | _ => scopes (stats run') = scopes (stats run)
  end.
Proof.
  rewrite process_message_table. intros Hpm.
  destruct (filtered_out msg msm_ids probe_ids) as [[]|e];
    [by simplify_eq| |by simplify_eq].
  simpl in Hpm.
  destruct (verdict lookup get_dst_addr msg target_asn) as [k| |] eqn:Hv;
    [by simplify_eq..|].
  destruct (bool_decide _ && negb dup); [by simplify_eq|].
  destruct (m_prb_id msg) as [prb|] eqn:Hprb.
  - pose proof (translate_effect lookup _ _ _ _ _ _ _ _ _ _ _ Hprb Hpm)
      as (_ & _ & _ & _ & Hr).
    destruct r as [[out|]|e].
    + by destruct Hr as (_ & -> & _).
    + by destruct Hr as [_ ->].
    + by destruct Hr as (_ & -> & _).
  - unfold translate in Hpm. rewrite Hprb in Hpm. by simplify_eq.
Qed.

(** X13: a run only adds to the scopes the destination AS of messages it
    has read; none of them is '0', and with a target AS set, nothing but the
    target AS is added. *)
Theorem scopes_of_run msgs dup run written r run' written' a :
  read_loop lookup get_dst_addr msgs unified_timestamp msm_ids probe_ids
    target_asn dup run written = (r, run', written') →
  a ∈ scopes (stats run') →
  a ∈ scopes (stats run)
  ∨ (a ≠ "0"
     ∧ (∀ t, target_asn = Some t → a = t)
     ∧ ∃ msg, msg ∈ msgs ∧ a = ip2asn lookup (get_dst_addr msg)).
Proof.
  revert run written.
  induction msgs as [|msg msgs IHm]; intros run written Hloop Ha;
    cbn [read_loop] in Hloop.
  - simplify_eq. by left.
  - assert (∀ run1,
              scopes (stats run1) = scopes (stats run) →
              a ∈ scopes (stats run1)
              ∨ a ≠ "0" ∧ (∀ t, target_asn = Some t → a = t)
                ∧ (∃ msg0, msg0 ∈ msgs ∧ a = ip2asn lookup (get_dst_addr msg0)) →
              a ∈ scopes (stats run)
              ∨ a ≠ "0" ∧ (∀ t, target_asn = Some t → a = t)
                ∧ (∃ msg0, msg0 ∈ msg :: msgs
                           ∧ a = ip2asn lookup (get_dst_addr msg0))) as Hstep.
    { intros run1 Heq [Hin|(? & ? & m & ? & ?)]; [left; by rewrite <- Heq|].
      right. repeat split; try done. exists m. split; [|done].
      apply elem_of_cons. by right. }
    destruct (process_message _ _ _ _ _ _ _ _ _) as [[[out|]|e] run1] eqn:Hpm;
      apply process_message_scopes in Hpm.
    + destruct Hpm as [Hsc Hv].
      destruct (IHm _ _ Hloop Ha) as [Hin|(? & ? & m & ? & ?)].
      * rewrite Hsc in Hin. apply elem_of_union in Hin as [Hin|Hin]; [|by left].
        apply elem_of_singleton in Hin as ->. right.
        destruct (verdict_resolved lookup get_dst_addr msg target_asn Hv)
          as (_ & _ & _ & _ & _ & Hasn & _ & Ht).
        repeat split; try done. exists msg. split; [|done].
        apply elem_of_cons. by left.
      * right. repeat split; try done. exists m. split; [|done].
        apply elem_of_cons. by right.
    + apply (Hstep run1 Hpm). by apply (IHm _ _ Hloop).
    + simplify_eq. left. by rewrite <- Hpm.
Qed.

End run_state_facts.

(** ** [read_probes] *)

Section read_probes_facts.

Lemma split_cons c s : ∃ field fields, split c s = field :: fields.
Proof.
  induction s as [|a s IHs]; simpl; [by eauto|].
  case_bool_decide; [by eauto|]. destruct IHs as (f & fs & ->). eauto.
Qed.

Lemma concat_cons_cons sep x y l :
  String.concat sep (x :: y :: l) =
  String.append x (String.append sep (String.concat sep (y :: l))).
Proof. reflexivity. Qed.

(** Joining the fields with the separator gives the string back. *)
Lemma join_split c s : join (String c EmptyString) (split c s) = s.
Proof.
  unfold join. induction s as [|a s IHs]; [done|].
  cbn [split].
  destruct (split_cons c s) as (f & fs & Hs). rewrite Hs in *.
  case_bool_decide as Ha.
  - subst a. rewrite concat_cons_cons. by rewrite IHs.
  - destruct fs as [|g fs].
    + cbn [String.concat] in *. by rewrite IHs.
    + rewrite concat_cons_cons in *. by rewrite <- IHs.
Qed.

Lemma split_field c x rest :
  occurs c x = false →
  split c (String.append x (String c rest)) = x :: split c rest.
Proof.
  induction x as [|a x IHx]; simpl; intros Hx.
  - by rewrite bool_decide_eq_true_2.
  - apply orb_false_iff in Hx as [Ha Hx].
    rewrite Ha. by rewrite IHx.
Qed.

Lemma split_last c x : occurs c x = false → split c x = [x].
Proof.
  induction x as [|a x IHx]; simpl; intros Hx; [done|].
  apply orb_false_iff in Hx as [Ha Hx]. rewrite Ha. by rewrite IHx.
Qed.

(** Splitting the joined fields gives the fields back, when none of them
    holds the separator. *)
Lemma split_join c fields :
  fields ≠ [] →
  Forall (λ field, occurs c field = false) fields →
  split c (join (String c EmptyString) fields) = fields.
Proof.
  unfold join. intros Hne Hfree.
  induction Hfree as [|x l Hx Hl IHl]; [done|].
  destruct l as [|y l].
  - simpl. by apply split_last.
  - rewrite concat_cons_cons.
    change (String.append (String c EmptyString) ?x) with (String c x).
    rewrite split_field by done. by rewrite IHl.
Qed.

Lemma read_probes_fields load probes :
  endswith probes ".pickle.bz2" = false →
  read_probes load probes ≠ ∅
  ∧ probe_filter load (Some probes) = Some (read_probes load probes)
  ∧ int_ids (read_probes load probes) = ∅
  ∧ (∀ v, v ∈ read_probes load probes → ∃ field, v = Str field
                                         ∧ occurs comma field = false)
  ∧ ∀ fields,
      fields ≠ [] →
      Forall (λ field, occurs comma field = false) fields →
      probes = join (String comma EmptyString) fields →
      read_probes load probes = list_to_set (Str <$> fields).
Proof.
  intros Hcsv. unfold probe_filter, read_probes. rewrite Hcsv.
  assert (list_to_set (Str <$> split comma probes) ≠@{gset Val} ∅) as Hne.
  { destruct (split_cons comma probes) as (f & fs & ->).
    rewrite fmap_cons, list_to_set_cons. set_solver. }
  split; [done|]. split; [|split; [|split]].
  - rewrite bool_decide_eq_false_2; [done|].
    intros ?%size_empty_inv. by apply Hne, leibniz_equiv.
  - apply set_eq. intros z. unfold int_ids. rewrite elem_of_set_omap.
    split; [|set_solver].
    intros (v & Hv & Hz). apply elem_of_list_to_set in Hv.
    apply list_elem_of_fmap in Hv as (s & -> & _). done.
  - intros v Hv. apply elem_of_list_to_set in Hv.
    apply list_elem_of_fmap in Hv as (field & -> & Hin).
    exists field. split; [done|].
    clear -Hin. revert field Hin.
    induction probes as [|a s IHs]; simpl; intros field Hin.
    + by apply list_elem_of_singleton in Hin as ->.
    + destruct (split_cons comma s) as (f & fs & Hs). rewrite Hs in *.
      case_bool_decide as Ha.
      * apply elem_of_cons in Hin as [->|Hin]; [done|by apply IHs].
      * apply elem_of_cons in Hin as [->|Hin].
        -- simpl. rewrite bool_decide_eq_false_2 by done. simpl.
           apply IHs. apply elem_of_cons. by left.
        -- apply IHs. apply elem_of_cons. by right.
  - intros fields Hne' Hfree ->. by rewrite split_join.
Qed.

(** X14: for an option value that does not name a pickle file,
    [read_probes] gives the comma-separated fields as strings: the set is
    never empty, so [main] never drops the filter, and it holds no integer;
    for the join of comma-free fields it is exactly these fields. *)
Theorem read_probes_csv load probes :
  endswith probes ".pickle.bz2" = false →
  read_probes load probes ≠ ∅
  ∧ probe_filter load (Some probes) = Some (read_probes load probes)
  ∧ int_ids (read_probes load probes) = ∅
  ∧ (∀ v, v ∈ read_probes load probes → ∃ field, v = Str field
                                         ∧ occurs comma field = false)
  ∧ ∀ fields,
      fields ≠ [] →
      Forall (λ field, occurs comma field = false) fields →
      probes = join (String comma EmptyString) fields →
      read_probes load probes = list_to_set (Str <$> fields).
Proof. apply read_probes_fields. Qed.

End read_probes_facts.

(** ** The keys of the records *)

Section key_facts.

Lemma big_endian_length n k : length (big_endian n k) = n.
Proof.
  revert k. induction n as [|n IHn]; intros k; simpl; [done|].
  rewrite length_app, IHn. simpl. lia.
Qed.

Lemma big_endian_bytes n k : Forall (λ b, 0 ≤ b < 256) (big_endian n k).
Proof.
  revert k. induction n as [|n IHn]; intros k; simpl; [constructor|].
  apply Forall_app. split; [apply IHn|].
  constructor; [|constructor]. apply Z.mod_pos_bound. lia.
Qed.

Lemma from_bytes_snoc l b : from_bytes (l ++ [b]) = from_bytes l * 256 + b.
Proof. unfold from_bytes. by rewrite fold_left_app. Qed.

Lemma from_bytes_big_endian n k :
  from_bytes (big_endian n k) = k mod 256 ^ Z.of_nat n.
Proof.
  revert k. induction n as [|n IHn]; intros k.
  - simpl. by rewrite Z.mod_1_r.
  - cbn [big_endian]. rewrite from_bytes_snoc, IHn.
    rewrite Nat2Z.inj_succ, Z.pow_succ_r by lia.
    rewrite (Z.rem_mul_r k 256 (256 ^ Z.of_nat n)) by lia. lia.
Qed.

(** X15: [to_bytes] fails exactly on a negative integer and on one that
    needs more bytes; otherwise it gives that many bytes, each from 0 to
    255, from which [from_bytes] gets the integer back, so that different
    integers have different keys. *)
Theorem to_bytes_round_trip n k :
  (to_bytes n k = None ↔ k < 0 ∨ 256 ^ Z.of_nat n ≤ k)
  ∧ (∀ b, to_bytes n k = Some b →
       length b = n ∧ Forall (λ x, 0 ≤ x < 256) b ∧ from_bytes b = k)
  ∧ (∀ k' b, to_bytes n k = Some b → to_bytes n k' = Some b → k = k').
Proof.
  unfold to_bytes.
  assert (∀ j b, (if bool_decide (0 ≤ j < 256 ^ Z.of_nat n)
                  then Some (big_endian n j) else None) = Some b →
                 from_bytes b = j) as Hback.
  { intros j b. case_bool_decide as Hj; [|done]. intros [= <-].
    rewrite from_bytes_big_endian. by apply Z.mod_small. }
  split; [|split].
  - case_bool_decide; split; try done; lia.
  - intros b Hb. pose proof (Hback _ _ Hb) as Hfrom.
    case_bool_decide; [|done]. injection Hb as Hb.
    split; [rewrite <- Hb; apply big_endian_length|].
    split; [rewrite <- Hb; apply big_endian_bytes|done].
  - intros k' b Hk Hk'. apply Hback in Hk, Hk'. congruence.
Qed.

End key_facts.

(** ** The loop of [main] with its keys *)

Section main_loop_facts.
Context `{ASPathOps}.
Variable lookup : IPLookup.
Variable get_dst_addr : Msg → string.
Variables (unified_timestamp : Z) (msm_ids : option (gset Z))
          (target_asn : option string).

(** X16: when the probe ids of the messages fit four bytes, the loop of
    [main] ends as the loop over the messages does, in the same state, and
    has written the same records, each under the four bytes of its probe
    id. *)
Theorem main_loop_writes_encoded_keys msgs (prb_ids : option (gset Val))
    dup run written :
  Forall (λ msg, ∀ k, m_prb_id msg = Some k → 0 ≤ k < 256 ^ 4) msgs →
  main_loop lookup get_dst_addr msgs unified_timestamp msm_ids prb_ids
    target_asn dup run (with_key_bytes written) =
  match read_loop lookup get_dst_addr msgs unified_timestamp msm_ids
          (int_ids <$> prb_ids) target_asn dup run written with
  | (r, run', written') => (loop_end r, run', with_key_bytes written')
  end.
Proof.
  intros Hfit. revert run written.
  induction Hfit as [|msg msgs Hmsg Hfit IHm]; intros run written;
    cbn [main_loop read_loop]; [done|].
  destruct (process_message _ _ _ _ _ _ _ _ _) as [[[out|]|e] run1] eqn:Hpm;
    [|apply IHm|done].
  apply process_message_record in Hpm as (_ & _ & _ & _ & _ & _ & _ & _ & _
                                          & Hprb & _).
  rewrite Hprb. unfold to_bytes.
  rewrite bool_decide_eq_true_2 by (by apply Hmsg).
  rewrite <- IHm. unfold with_key_bytes. by rewrite fmap_app.
Qed.

(** X17: with probe ids given as a comma-separated string, every message
    that carries an integer probe id (and a measurement id when these are
    filtered) is excluded by the probe filter: the run writes nothing and
    changes nothing. *)
Theorem csv_probe_filter_excludes_integer_ids load probes msgs dup run written :
  endswith probes ".pickle.bz2" = false →
  Forall (λ msg, is_Some (m_prb_id msg)
                 ∧ (msm_ids = None ∨ is_Some (m_msm_id msg))) msgs →
  main_loop lookup get_dst_addr msgs unified_timestamp msm_ids
    (probe_filter load (Some probes)) target_asn dup run written =
  (Finished, run, written).
Proof.
  intros Hcsv Hmsgs.
  destruct (read_probes_fields load probes Hcsv) as (_ & -> & Hint & _).
  assert (int_ids <$> Some (read_probes load probes) = Some ∅) as Hids.
  { simpl. by rewrite Hint. }
  induction Hmsgs as [|msg msgs [[p Hp] Hm] _ IHm]; cbn [main_loop]; [done|].
  rewrite Hids, process_message_table.
  assert (filtered_out msg msm_ids (Some ∅) = Return true) as ->; [|done].
  unfold filtered_out. rewrite Hp.
  rewrite (bool_decide_eq_true_2 (p ∉ ∅)) by set_solver.
  destruct Hm as [->|[m ->]]; [done|].
  destruct msm_ids; [|done]. by case_bool_decide.
Qed.

End main_loop_facts.

Section main_loop_overflow.
Context `{ASPathOps} `{!ReducerFrame}.
Variable lookup : IPLookup.
Variable get_dst_addr : Msg → string.
Variables (unified_timestamp : Z) (msm_ids : option (gset Z))
          (target_asn : option string).

(** X18: a record whose probe id is negative or does not fit four bytes
    ends the loop of [main] with [OverflowError]: the record is not
    written and the messages after it are not read, although the message
    has been counted as used and its key marked as seen. *)
Theorem key_overflow_ends_run msg rest (prb_ids : option (gset Val)) dup run
    written k :
  m_prb_id msg = Some k →
  k < 0 ∨ 256 ^ 4 ≤ k →
  match process_message lookup get_dst_addr msg unified_timestamp msm_ids
          (int_ids <$> prb_ids) target_asn dup run with
  | (Return (Some data), run1) =>
    main_loop lookup get_dst_addr (msg :: rest) unified_timestamp msm_ids
      prb_ids target_asn dup run written = (OverflowError, run1, written)
    ∧ get "used" (stats run1) = get "used" (stats run) + 1
    ∧ record_key data ∈ seen_peer_prefixes run1
  | (r, run1) =>
    main_loop lookup get_dst_addr (msg :: rest) unified_timestamp msm_ids
      prb_ids target_asn dup run written =
    match r with
    | Raise e => (Escaped e, run1, written)
    | _ => main_loop lookup get_dst_addr rest unified_timestamp msm_ids
             prb_ids target_asn dup run1 written
    end
  end.
Proof.
  intros Hk Hout. cbn [main_loop].
  destruct (process_message _ _ _ _ _ _ _ _ _) as [[[out|]|e] run1] eqn:Hpm;
    [|done..].
  rewrite Hk. unfold to_bytes. rewrite bool_decide_eq_false_2 by lia.
  split; [done|].
  pose proof (process_message_counts _ _ _ _ _ _ _ _ _ _ _ Hpm)
    as (_ & Hu & _).
  apply process_message_seen in Hpm as (_ & Hkey & ->).
  split; [done|]. unfold record_key. rewrite Hkey. set_solver.
Qed.

End main_loop_overflow.

(** ** Where a message fails *)

Section raise_facts.
Context `{ASPathOps}.
Variable lookup : IPLookup.
Variable get_dst_addr : Msg → string.

(** The statistics play no part in what a hop returns or appends. *)
Lemma process_hop_any_stats hop st st' path :
  (process_hop lookup hop st path).1.1 = (process_hop lookup hop st' path).1.1
  ∧ (process_hop lookup hop st path).2 = (process_hop lookup hop st' path).2.
Proof.
  unfold process_hop.
  destruct (bool_decide (is_Some (h_error hop))); [done|].
  destruct (h_result hop) as [replies|]; [|done].
  destruct (scan_replies path replies ∅ ∅) as [A E|]; [|done].
  destruct (bool_decide (size A = 0%nat)); [done|].
  destruct (h_hop hop) as [ttl|]; [|done].
  destruct (bool_decide (ttl = 255)); [done|].
  by destruct (classify lookup A E path).
Qed.

Lemma process_hops_any_stats traceroute st st' path :
  (process_hops lookup traceroute st path).1.1 =
  (process_hops lookup traceroute st' path).1.1.
Proof.
  revert st st' path.
  induction traceroute as [|hop traceroute IHt]; intros st st' path; simpl;
    [done|].
  destruct (process_hop_any_stats hop st st' path) as [Hr Hp].
  destruct (process_hop lookup hop st path) as [[[[]|e] st1] p1],
    (process_hop lookup hop st' path) as [[[[]|e'] st1'] p1'];
    simpl in *; simplify_eq; [done| |done].
  apply IHt.
Qed.

(** A hop with neither 'error' nor 'result' fails before anything else. *)
Lemma process_hop_bare hop st path :
  hop_has_fields hop = false →
  process_hop lookup hop st path = (Raise (KeyError "result"), st, path).
Proof.
  unfold hop_has_fields, process_hop. intros [He Hr]%orb_false_iff.
  rewrite He. apply bool_decide_eq_false_1 in Hr.
  destruct (h_result hop); [|done]. destruct Hr. eauto.
Qed.

(** The hops of a message fail exactly at the first hop that has neither
    'error' nor 'result', when every hop before it lets the path go on. *)
Lemma process_hops_raises_iff traceroute st path e :
  (process_hops lookup traceroute st path).1.1 = Raise e ↔
  e = KeyError "result"
  ∧ ∃ before hop after,
      traceroute = before ++ hop :: after
      ∧ hop_has_fields hop = false
      ∧ (process_hops lookup before st path).1.1 = Return false.
Proof.
  revert st path.
  induction traceroute as [|hop traceroute IHt]; intros st path; simpl.
  { split; [done|]. intros (_ & before & h & after & Heq & _).
    by destruct before. }
  pose proof (process_hop_effect lookup hop st path) as Heff.
  destruct (process_hop lookup hop st path) as [[[[]|e1] st1] p1] eqn:Hhop;
    simpl in *.
  - split; [done|]. intros (_ & before & h & after & Heq & Hbare & Hgo).
    destruct before as [|h0 before]; simplify_eq/=.
    + by rewrite process_hop_bare in Hhop.
    + by rewrite Hhop in Hgo.
  - rewrite IHt. split.
    + intros (-> & before & h & after & -> & Hbare & Hgo). split; [done|].
      exists (hop :: before), h, after. split; [done|]. split; [done|].
      simpl. by rewrite Hhop.
    + intros (-> & before & h & after & Heq & Hbare & Hgo). split; [done|].
      destruct before as [|h0 before]; simplify_eq/=.
      * by rewrite process_hop_bare in Hhop.
      * rewrite Hhop in Hgo. eauto 10.
  - destruct Heff as (-> & _ & _ & Herr & Hres). split.
    + intros [= <-]. split; [done|]. exists [], hop, traceroute.
      split; [done|]. split; [|done].
      unfold hop_has_fields. rewrite Herr, Hres.
      by rewrite !bool_decide_eq_false_2 by (by intros [??]).
    + by intros (-> & _).
Qed.

(** The id filter fails exactly when it reads an id that is missing. *)
Lemma filtered_out_raises_iff msg (msm_ids probe_ids : option (gset Z)) e :
  filtered_out msg msm_ids probe_ids = Raise e ↔
  (is_Some msm_ids ∧ m_msm_id msg = None ∧ e = KeyError "msm_id")
  ∨ (is_Some probe_ids ∧ m_prb_id msg = None ∧ e = KeyError "prb_id"
     ∧ ∀ ids, msm_ids = Some ids → ∃ m, m_msm_id msg = Some m ∧ m ∈ ids).
Proof.
  unfold filtered_out.
  destruct msm_ids as [ids|], (m_msm_id msg) as [m|],
    probe_ids as [pids|], (m_prb_id msg) as [p|];
    try destruct (decide (m ∈ ids));
    rewrite ?bool_decide_eq_true_2, ?bool_decide_eq_false_2 by auto;
    naive_solver.
Qed.

(** The translation fails exactly on a missing probe id, on a missing
    'result', and where the hops fail. *)
Lemma translate_raises_iff msg f pa da px ts st run e :
  (translate lookup msg f pa da px ts st run).1 = Raise e ↔
  (m_prb_id msg = None ∧ e = KeyError "prb_id")
  ∨ (is_Some (m_prb_id msg)
     ∧ ((m_result msg = None ∧ e = KeyError "result")
        ∨ ∃ traceroute,
            m_result msg = Some traceroute
            ∧ (process_hops lookup traceroute stats0
                 (set_start_end_asn pa da new_path)).1.1 = Raise e)).
Proof.
  assert (∀ traceroute st1,
            (process_hops lookup traceroute stats0
               (set_start_end_asn pa da new_path)).1.1 =
            (process_hops lookup traceroute st1
               (set_start_end_asn pa da new_path)).1.1) as Hany
    by (intros; apply process_hops_any_stats).
  unfold translate. split.
  - intros Htr.
    destruct (m_prb_id msg) as [prb|]; [right|left; by simplify_eq/=].
    split; [by eauto|].
    destruct (m_result msg) as [traceroute|]; [right|left; by simplify_eq/=].
    exists traceroute. split; [done|].
    rewrite (Hany _ (incr "accepted"
               match probe_ip_map run !! prb with
               | Some ip =>
                 if bool_decide (f ≠ ip) then incr "changed_ip" st else st
               | None => st
               end)).
    destruct (process_hops lookup traceroute _ _) as [[[[]|e1] st2] p2];
      simpl in *; [by simplify_eq| |by simplify_eq].
    destruct (get_reduced_path st2 p2) as [[[[rp rip] len] st3] p3].
    destruct (bool_decide (len = 0)); [by simplify_eq|].
    destruct (bool_decide (len = 1)); [by simplify_eq|].
    destruct (get_raw_path p3). by simplify_eq.
  - intros [[-> ->]|[[prb ->] [[-> ->]|(traceroute & -> & Hh)]]]; [done..|].
    rewrite (Hany _ (incr "accepted"
               match probe_ip_map run !! prb with
               | Some ip =>
                 if bool_decide (f ≠ ip) then incr "changed_ip" st else st
               | None => st
               end)) in Hh.
    by destruct (process_hops lookup traceroute _ _) as [[[[]|e1] st2] p2];
      simpl in *; simplify_eq.
Qed.

Lemma iff_or_skip (A B X Y : Prop) :
  ¬ (A ∨ B) → (X ↔ Y) → (X ↔ A ∨ B ∨ Y).
Proof. tauto. Qed.

Lemma iff_or_only (A B X Y : Prop) :
  (X ↔ A ∨ B) → ¬ Y → (X ↔ A ∨ B ∨ Y).
Proof. tauto. Qed.

(** [process_message] fails exactly where it reads a field that is not
    there. *)
Lemma process_message_raises_iff msg ts msm_ids probe_ids target dup run e :
  (process_message lookup get_dst_addr msg ts msm_ids probe_ids target dup
     run).1 = Raise e ↔
  (is_Some msm_ids ∧ m_msm_id msg = None ∧ e = KeyError "msm_id")
  ∨ (is_Some probe_ids ∧ m_prb_id msg = None ∧ e = KeyError "prb_id"
     ∧ ∀ ids, msm_ids = Some ids → ∃ m, m_msm_id msg = Some m ∧ m ∈ ids)
  ∨ (passes_duplicate_check lookup get_dst_addr msg msm_ids probe_ids target
       dup run = true
     ∧ ((m_prb_id msg = None ∧ e = KeyError "prb_id")
        ∨ (is_Some (m_prb_id msg) ∧ e = KeyError "result"
           ∧ (m_result msg = None
              ∨ ∃ before hop after,
                  m_result msg = Some (before ++ hop :: after)
                  ∧ hop_has_fields hop = false
                  ∧ (process_hops lookup before stats0
                       (start_path lookup get_dst_addr msg)).1.1
                    = Return false)))).
Proof.
  rewrite process_message_table.
  pose proof (filtered_out_raises_iff msg msm_ids probe_ids e) as Hfo.
  unfold passes_duplicate_check.
  destruct (resolves lookup get_dst_addr msg msm_ids probe_ids target)
    eqn:Hres.
  - apply resolves_iff_verdict in Hres as [Hf Hv]. rewrite Hf in Hfo |- *.
    rewrite Hv. cbn zeta. rewrite andb_true_l.
    apply iff_or_skip; [by rewrite <- Hfo|].
    destruct (bool_decide _ && negb dup); simpl.
    { split; [done|]. by intros [[=] _]. }
    rewrite translate_raises_iff. unfold start_path, dedup_key. simpl.
    split.
    + intros [?|[Hprb [[? ->]|(traceroute & Htr & Hh)]]]; [naive_solver..|].
      apply process_hops_raises_iff in Hh as (-> & before & hop & after & ->
                                               & ? & ?).
      split; [done|]. right. split; [done|]. split; [done|].
      right. eauto 10.
    + intros [_ [?|(Hprb & -> & [?|(before & hop & after & Htr & ? & ?)])]];
        [naive_solver..|].
      right. split; [done|]. right. eexists. split; [done|].
      apply process_hops_raises_iff. eauto 10.
  - assert (filtered_out msg msm_ids probe_ids = Return false →
            verdict lookup get_dst_addr msg target ≠ Resolved) as Hnot.
    { intros Hf Hv. assert (resolves lookup get_dst_addr msg msm_ids probe_ids
                              target = true) as Hyes
        by (by apply resolves_iff_verdict).
      congruence. }
    simpl.
    destruct (filtered_out msg msm_ids probe_ids) as [[]|e0]; simpl.
    + apply iff_or_skip; [by rewrite <- Hfo|]. split; [done|by intros [[=] _]].
    + apply iff_or_skip; [by rewrite <- Hfo|].
      destruct (verdict lookup get_dst_addr msg target); simpl;
        try (by destruct Hnot); (split; [done|by intros [[=] _]]).
    + apply iff_or_only; [|by intros [[=] _]].
      rewrite <- Hfo. split; by intros [= ->].
Qed.

End raise_facts.

(** ** Where a run of [main] ends *)

Section run_end_facts.
Context `{ASPathOps}.
Variable lookup : IPLookup.
Variable get_dst_addr : Msg → string.
Variables (unified_timestamp : Z) (msm_ids : option (gset Z))
          (target_asn : option string).

(** One turn of the loop of [main], after [process_message]. *)
Lemma main_loop_cons msg msgs (prb_ids : option (gset Val)) dup run written :
  main_loop lookup get_dst_addr (msg :: msgs) unified_timestamp msm_ids prb_ids
    target_asn dup run written =
  match process_message lookup get_dst_addr msg unified_timestamp msm_ids
          (int_ids <$> prb_ids) target_asn dup run with
  | (Raise e, run1) => (Escaped e, run1, written)
  | (Return None, run1) =>
    main_loop lookup get_dst_addr msgs unified_timestamp msm_ids prb_ids
      target_asn dup run1 written
  | (Return (Some data), run1) =>
    match to_bytes 4 (prb_id data) with
    | None => (OverflowError, run1, written)
    | Some key =>
      main_loop lookup get_dst_addr msgs unified_timestamp msm_ids prb_ids
        target_asn dup run1 (written ++ [(key, data)])
    end
  end.
Proof.
  cbn [main_loop].
  destruct (process_message _ _ _ _ _ _ _ _ _) as [[[data|]|e] run1] eqn:Hpm;
    [|done..].
  apply process_message_record in Hpm as (_ & _ & _ & _ & _ & _ & _ & _ & _
                                          & -> & _).
  done.
Qed.

Lemma main_loop_app before rest (prb_ids : option (gset Val)) dup run written :
  main_loop lookup get_dst_addr (before ++ rest) unified_timestamp msm_ids
    prb_ids target_asn dup run written =
  match main_loop lookup get_dst_addr before unified_timestamp msm_ids prb_ids
          target_asn dup run written with
  | (Finished, run1, written1) =>
    main_loop lookup get_dst_addr rest unified_timestamp msm_ids prb_ids
      target_asn dup run1 written1
  | ended => ended
  end.
Proof.
  revert run written.
  induction before as [|msg before IHb]; intros run written; [done|].
  rewrite <- app_comm_cons, !main_loop_cons.
  destruct (process_message _ _ _ _ _ _ _ _ _) as [[[data|]|e] run1];
    [|apply IHb|done].
  destruct (to_bytes 4 (prb_id data)); [apply IHb|done].
Qed.

(** Where a run that does not finish has stopped. *)
Lemma main_loop_end msgs (prb_ids : option (gset Val)) dup run written
    ended run' written' :
  main_loop lookup get_dst_addr msgs unified_timestamp msm_ids prb_ids
    target_asn dup run written = (ended, run', written') →
  match ended with
  | Finished => True
  | Escaped e =>
    ∃ before msg after run1,
      msgs = before ++ msg :: after
      ∧ main_loop lookup get_dst_addr before unified_timestamp msm_ids prb_ids
          target_asn dup run written = (Finished, run1, written')
      ∧ process_message lookup get_dst_addr msg unified_timestamp msm_ids
          (int_ids <$> prb_ids) target_asn dup run1 = (Raise e, run')
  | OverflowError =>
    ∃ before msg after run1 data,
      msgs = before ++ msg :: after
      ∧ main_loop lookup get_dst_addr before unified_timestamp msm_ids prb_ids
          target_asn dup run written = (Finished, run1, written')
      ∧ process_message lookup get_dst_addr msg unified_timestamp msm_ids
          (int_ids <$> prb_ids) target_asn dup run1
        = (Return (Some data), run')
      ∧ m_prb_id msg = Some (prb_id data)
      ∧ (prb_id data < 0 ∨ 256 ^ 4 ≤ prb_id data)
  end.
Proof.
  revert run written.
  induction msgs as [|msg msgs IHm]; intros run written.
  { intros [= <- <- <-]. done. }
  rewrite main_loop_cons.
  destruct (process_message _ _ _ _ _ _ _ _ _) as [[[data|]|e] run1] eqn:Hpm.
  - destruct (to_bytes 4 (prb_id data)) as [key|] eqn:Hkey.
    + intros Hloop. apply IHm in Hloop.
      destruct ended as [|e|]; [done|..].
      * destruct Hloop as (before & m & after & r1 & -> & Hb & Hm).
        exists (msg :: before), m, after, r1. split; [done|].
        split; [|done]. by rewrite main_loop_cons, Hpm, Hkey.
      * destruct Hloop as (before & m & after & r1 & d & -> & Hb & Hm).
        exists (msg :: before), m, after, r1, d. split; [done|].
        split; [|done]. by rewrite main_loop_cons, Hpm, Hkey.
    + intros [= <- <- <-]. exists [], msg, msgs, run, data.
      split; [done|]. split; [done|]. split; [done|].
      split.
      * by apply process_message_record in Hpm
          as (_ & _ & _ & _ & _ & _ & _ & _ & _ & ? & _).
      * unfold to_bytes in Hkey. case_bool_decide; [done|]. lia.
  - intros Hloop. apply IHm in Hloop.
    destruct ended as [|e|]; [done|..].
    + destruct Hloop as (before & m & after & r1 & -> & Hb & Hm).
      exists (msg :: before), m, after, r1. split; [done|].
      split; [|done]. by rewrite main_loop_cons, Hpm.
    + destruct Hloop as (before & m & after & r1 & d & -> & Hb & Hm).
      exists (msg :: before), m, after, r1, d. split; [done|].
      split; [|done]. by rewrite main_loop_cons, Hpm.
  - intros [= <- <- <-]. by exists [], msg, msgs, run.
Qed.

(** A run over messages that carry their fields, with probe ids of four
    bytes, finishes. *)
Lemma main_loop_finishes msgs (prb_ids : option (gset Val)) dup run written :
  Forall (λ msg, has_fields msg msm_ids = true
                 ∧ ∀ k, m_prb_id msg = Some k → 0 ≤ k < 256 ^ 4) msgs →
  (main_loop lookup get_dst_addr msgs unified_timestamp msm_ids prb_ids
     target_asn dup run written).1.1 = Finished.
Proof.
  intros Hall. revert run written.
  induction Hall as [|msg msgs [Hfields Hfits] Hall IHm]; intros run written;
    [done|].
  rewrite main_loop_cons.
  pose proof (process_message_returns lookup get_dst_addr unified_timestamp
                msm_ids (int_ids <$> prb_ids) target_asn msg dup run Hfields)
    as Hret.
  destruct (process_message _ _ _ _ _ _ _ _ _) as [[[data|]|e] run1] eqn:Hpm;
    [|apply IHm|done].
  apply process_message_record in Hpm
    as (_ & _ & _ & _ & _ & _ & _ & _ & _ & Hprb & _).
  unfold to_bytes. rewrite bool_decide_eq_true_2 by (by apply Hfits).
  apply IHm.
Qed.

(** C1, as the code has it: [process_message] raises exactly when it
    reads a field that is missing, and then the [KeyError] of that field:
    'msm_id' when measurement ids are filtered; 'prb_id' when probe ids are
    filtered and the measurement id has not excluded the message, or once
    the message has passed the duplicate check; 'result', of the message or
    of the first hop that has neither 'error' nor 'result' when the hops
    before it let the path go on, once the message has passed the duplicate
    check.  A message that is dropped before the missing field is read
    returns the empty dictionary.  Nothing catches the exception: a run of
    the loop of [main] that does not finish has stopped at the first message
    on which [process_message] raises, or at the first for which it returns
    a record under a probe id that does not fit four bytes, and a message on
    which [process_message] raises ends the run there.  A run over messages
    that carry their fields, with probe ids of four bytes, finishes. *)
Theorem missing_field_ends_run msgs (prb_ids : option (gset Val)) dup run
    written :
  (∀ msg probe_ids run0 e,
     (process_message lookup get_dst_addr msg unified_timestamp msm_ids
        probe_ids target_asn dup run0).1 = Raise e ↔
     (is_Some msm_ids ∧ m_msm_id msg = None ∧ e = KeyError "msm_id")
     ∨ (is_Some probe_ids ∧ m_prb_id msg = None ∧ e = KeyError "prb_id"
        ∧ ∀ ids, msm_ids = Some ids → ∃ m, m_msm_id msg = Some m ∧ m ∈ ids)
     ∨ (passes_duplicate_check lookup get_dst_addr msg msm_ids probe_ids
          target_asn dup run0 = true
        ∧ ((m_prb_id msg = None ∧ e = KeyError "prb_id")
           ∨ (is_Some (m_prb_id msg) ∧ e = KeyError "result"
              ∧ (m_result msg = None
                 ∨ ∃ before hop after,
                     m_result msg = Some (before ++ hop :: after)
                     ∧ hop_has_fields hop = false
                     ∧ (process_hops lookup before stats0
                          (start_path lookup get_dst_addr msg)).1.1
                       = Return false)))))
  ∧ (∀ msg probe_ids run0,
       returns (filtered_out msg msm_ids probe_ids) →
       passes_duplicate_check lookup get_dst_addr msg msm_ids probe_ids
         target_asn dup run0 = false →
       (process_message lookup get_dst_addr msg unified_timestamp msm_ids
          probe_ids target_asn dup run0).1 = Return None)
  ∧ (∀ ended run' written',
       main_loop lookup get_dst_addr msgs unified_timestamp msm_ids prb_ids
         target_asn dup run written = (ended, run', written') →
       match ended with
       | Finished => True
       | Escaped e =>
         ∃ before msg after run1,
           msgs = before ++ msg :: after
           ∧ main_loop lookup get_dst_addr before unified_timestamp msm_ids
               prb_ids target_asn dup run written = (Finished, run1, written')
           ∧ process_message lookup get_dst_addr msg unified_timestamp msm_ids
               (int_ids <$> prb_ids) target_asn dup run1 = (Raise e, run')
       | OverflowError =>
         ∃ before msg after run1 data,
           msgs = before ++ msg :: after
           ∧ main_loop lookup get_dst_addr before unified_timestamp msm_ids
               prb_ids target_asn dup run written = (Finished, run1, written')
           ∧ process_message lookup get_dst_addr msg unified_timestamp msm_ids
               (int_ids <$> prb_ids) target_asn dup run1
             = (Return (Some data), run')
           ∧ m_prb_id msg = Some (prb_id data)
           ∧ (prb_id data < 0 ∨ 256 ^ 4 ≤ prb_id data)
       end)
  ∧ (∀ before msg after run1 written1 e run',
       msgs = before ++ msg :: after →
       main_loop lookup get_dst_addr before unified_timestamp msm_ids prb_ids
         target_asn dup run written = (Finished, run1, written1) →
       process_message lookup get_dst_addr msg unified_timestamp msm_ids
         (int_ids <$> prb_ids) target_asn dup run1 = (Raise e, run') →
       main_loop lookup get_dst_addr msgs unified_timestamp msm_ids prb_ids
         target_asn dup run written = (Escaped e, run', written1))
  ∧ (Forall (λ msg, has_fields msg msm_ids = true
                    ∧ ∀ k, m_prb_id msg = Some k → 0 ≤ k < 256 ^ 4) msgs →
     (main_loop lookup get_dst_addr msgs unified_timestamp msm_ids prb_ids
        target_asn dup run written).1.1 = Finished).
Proof.
  split; [|split; [|split; [|split]]].
  - intros msg probe_ids run0 e. apply process_message_raises_iff.
  - intros msg probe_ids run0 Hfo Hpass.
    pose proof (process_message_raises_iff lookup get_dst_addr msg
                  unified_timestamp msm_ids probe_ids target_asn dup run0)
      as Hraise.
    pose proof (process_message_seen lookup get_dst_addr unified_timestamp
                  msm_ids probe_ids target_asn msg dup run0) as Hseen.
    destruct (process_message _ _ _ _ _ _ _ _ _) as [[[data|]|e] run1];
      simpl in *.
    + destruct (Hseen _ _ eq_refl) as (Hyes & _). congruence.
    + done.
    + destruct (Hraise e) as [Hwhy _].
      destruct (Hwhy eq_refl) as [Hf|[Hf|[Hyes _]]]; [..|congruence];
        exfalso;
        assert (filtered_out msg msm_ids probe_ids = Raise e) as Heq
          by (apply filtered_out_raises_iff; auto);
        by rewrite Heq in Hfo.
  - intros ended run' written'. apply main_loop_end.
  - intros before msg after run1 written1 e run' -> Hbefore Hpm.
    by rewrite main_loop_app, Hbefore, main_loop_cons, Hpm.
  - apply main_loop_finishes.
Qed.

End run_end_facts.

(** ** The records and the counters of a run of [main] *)

Section main_loop_records.
Context `{ASPathOps}.
Variable lookup : IPLookup.
Variable get_dst_addr : Msg → string.
Variables (unified_timestamp : Z) (msm_ids : option (gset Z))
          (target_asn : option string).

(** X10: with duplicates off, the records written in a run of the loop of
    [main] have pairwise different (source address, prefix) keys, also
    different from the keys of the records written before when these were
    all marked as seen; the seen set at the end is the one at the start with
    the keys of the records written and, when the run ends on the key of a
    record, the key of that record, which is none of the others. *)
Theorem written_keys_unique msgs (prb_ids : option (gset Val)) run written
    ended run' written' :
  main_loop lookup get_dst_addr msgs unified_timestamp msm_ids prb_ids
    target_asn false run written = (ended, run', written') →
  NoDup ((λ record, record_key record.2) <$> written) →
  (∀ record, record ∈ written →
     record_key record.2 ∈ seen_peer_prefixes run) →
  ∃ new,
    written' = written ++ new
    ∧ NoDup ((λ record, record_key record.2) <$> written')
    ∧ match ended with
      | OverflowError =>
        ∃ lost,
          (lost ∉ seen_peer_prefixes run)
          ∧ (lost ∉ ((λ record, record_key record.2) <$> written'))
          ∧ ∀ key, key ∈ seen_peer_prefixes run' ↔
                   key ∈ seen_peer_prefixes run
                   ∨ key ∈ ((λ record, record_key record.2) <$> new)
                   ∨ key = lost
      | _ =>
        ∀ key, key ∈ seen_peer_prefixes run' ↔
               key ∈ seen_peer_prefixes run
               ∨ key ∈ ((λ record, record_key record.2) <$> new)
      end.
Proof.
  revert run written.
  induction msgs as [|msg msgs IHm]; intros run written Hloop Hnodup Hseen.
  { cbn [main_loop] in Hloop. simplify_eq. exists []. rewrite app_nil_r.
    split; [done|]. split; [done|].
    intros key. rewrite fmap_nil, elem_of_nil. naive_solver. }
  rewrite main_loop_cons in Hloop.
  destruct (process_message _ _ _ _ _ _ _ _ _) as [[[out|]|e] run1] eqn:Hpm;
    apply process_message_seen in Hpm.
  - destruct Hpm as (Hpass & Hkey & Hseen1).
    assert (record_key out ∉ seen_peer_prefixes run) as Hfresh.
    { unfold passes_duplicate_check in Hpass.
      apply andb_true_iff in Hpass as [_ Hpass].
      rewrite andb_true_r in Hpass. apply negb_true_iff in Hpass.
      apply bool_decide_eq_false_1 in Hpass.
      unfold record_key. by rewrite Hkey. }
    assert (record_key out ∉ ((λ record, record_key record.2) <$> written))
      as Hnew.
    { intros (record & Heq & Hin)%list_elem_of_fmap.
      apply Hfresh. rewrite Heq. by apply Hseen. }
    destruct (to_bytes 4 (prb_id out)) as [bytes|].
    + apply IHm in Hloop as (new & -> & Hnd & Hiff).
      * exists ((bytes, out) :: new). rewrite <- app_assoc.
        split; [done|]. split; [by rewrite <- app_assoc in Hnd|].
        destruct ended as [|e|].
        -- intros key. rewrite Hiff, Hseen1, fmap_cons, elem_of_cons.
           unfold record_key at 2. simpl. rewrite Hkey. set_solver.
        -- intros key. rewrite Hiff, Hseen1, fmap_cons, elem_of_cons.
           unfold record_key at 2. simpl. rewrite Hkey. set_solver.
        -- destruct Hiff as (lost & Hl1 & Hl2 & Hiff). exists lost.
           split; [rewrite Hseen1 in Hl1; set_solver|].
           split; [by rewrite <- app_assoc in Hl2|].
           intros key. rewrite Hiff, Hseen1, fmap_cons, elem_of_cons.
           unfold record_key at 2. simpl. rewrite Hkey. set_solver.
      * rewrite fmap_app. apply NoDup_app. split; [done|]. split.
        -- intros key Hin. simpl. rewrite list_elem_of_singleton.
           intros ->. by apply Hnew.
        -- apply NoDup_singleton.
      * intros record [Hin|Hin]%elem_of_app; rewrite Hseen1.
        -- apply elem_of_union_r. by apply Hseen.
        -- apply list_elem_of_singleton in Hin as ->. simpl.
           unfold record_key. rewrite Hkey. set_solver.
    + simplify_eq. exists []. rewrite app_nil_r. split; [done|].
      split; [done|]. exists (record_key out).
      split; [done|]. split; [done|].
      intros key. rewrite Hseen1, fmap_nil, elem_of_nil.
      unfold record_key. rewrite Hkey. set_solver.
  - apply IHm in Hloop as (new & -> & Hnd & Hiff); [|done|].
    + exists new. split; [done|]. split; [done|].
      destruct ended as [|e|]; [by rewrite <- Hpm..|].
      by rewrite <- Hpm.
    + intros record Hin. rewrite Hpm. by apply Hseen.
  - simplify_eq. exists []. rewrite app_nil_r. split; [done|]. split; [done|].
    intros key. rewrite Hpm, fmap_nil, elem_of_nil. naive_solver.
Qed.

(** X19: the loop of [main] against the messages processed in order: a
    run that finishes, or that an exception of [process_message] ends, has
    the state and the results of [read_loop] over the same messages, written
    under their four-byte keys; a run ended by a probe id that does not fit
    has the state of [read_loop] up to and including that message, and has
    written all its results but that last one. *)
Theorem main_loop_reads_as_read_loop msgs (prb_ids : option (gset Val)) dup
    run returned ended run' written' :
  main_loop lookup get_dst_addr msgs unified_timestamp msm_ids prb_ids
    target_asn dup run (with_key_bytes returned) = (ended, run', written') →
  match ended with
  | OverflowError =>
    ∃ before msg after returned' data,
      msgs = before ++ msg :: after
      ∧ read_loop lookup get_dst_addr (before ++ [msg]) unified_timestamp
          msm_ids (int_ids <$> prb_ids) target_asn dup run returned
        = (Return (), run', returned' ++ [(prb_id data, data)])
      ∧ written' = with_key_bytes returned'
      ∧ (prb_id data < 0 ∨ 256 ^ 4 ≤ prb_id data)
  | _ =>
    ∃ r returned',
      read_loop lookup get_dst_addr msgs unified_timestamp msm_ids
        (int_ids <$> prb_ids) target_asn dup run returned
      = (r, run', returned')
      ∧ ended = loop_end r
      ∧ written' = with_key_bytes returned'
  end.
Proof.
  revert run returned.
  induction msgs as [|msg msgs IHm]; intros run returned.
  { intros [= <- <- <-]. by exists (Return ()), returned. }
  rewrite main_loop_cons. cbn [read_loop].
  destruct (process_message _ _ _ _ _ _ _ _ _) as [[[data|]|e] run1] eqn:Hpm.
  - unfold to_bytes. case_bool_decide as Hfits.
    + replace (with_key_bytes returned ++ [(big_endian 4 (prb_id data), data)])
        with (with_key_bytes (returned ++ [(prb_id data, data)]))
        by (unfold with_key_bytes; by rewrite fmap_app).
      intros Hloop. apply IHm in Hloop.
      destruct ended as [|e|]; [done..|].
      destruct Hloop as (before & m & after & ret' & d & -> & Hread & ? & ?).
      exists (msg :: before), m, after, ret', d. split; [done|].
      split; [|done]. rewrite <- app_comm_cons. cbn [read_loop].
      by rewrite Hpm.
    + intros [= <- <- <-]. exists [], msg, msgs, returned, data.
      split; [done|]. split; [|split; [done|lia]].
      simpl. by rewrite Hpm.
  - intros Hloop. apply IHm in Hloop.
    destruct ended as [|e|]; [done..|].
    destruct Hloop as (before & m & after & ret' & d & -> & Hread & ? & ?).
    exists (msg :: before), m, after, ret', d. split; [done|].
    split; [|done]. rewrite <- app_comm_cons. cbn [read_loop].
    by rewrite Hpm.
  - intros [= <- <- <-]. by exists (Raise e), returned.
Qed.

End main_loop_records.

Section main_loop_counts.
Context `{ASPathOps} `{!ReducerFrame}.
Variable lookup : IPLookup.
Variable get_dst_addr : Msg → string.
Variables (unified_timestamp : Z) (msm_ids : option (gset Z))
          (target_asn : option string).

(** X7: along a run of the loop of [main], however it ends, the records
    are appended to what was written, each under the four bytes of its probe
    id; 'used' grows by the number of records written, and by one more when
    the run ends on the key of a record, which is then not written; 'used'
    grows no more than 'accepted', 'accepted' no more than 'total', 'total'
    no more than the messages read. *)
Theorem run_counts_records msgs (prb_ids : option (gset Val)) dup run written
    ended run' written' :
  main_loop lookup get_dst_addr msgs unified_timestamp msm_ids prb_ids
    target_asn dup run written = (ended, run', written') →
  ∃ new,
    written' = written ++ new
    ∧ Forall (λ record, to_bytes 4 (prb_id record.2) = Some record.1) new
    ∧ get "used" (stats run') =
      get "used" (stats run) + Z.of_nat (length new)
      + (match ended with OverflowError => 1 | _ => 0 end)
    ∧ get "used" (stats run') - get "used" (stats run)
      ≤ get "accepted" (stats run') - get "accepted" (stats run)
    ∧ get "accepted" (stats run') - get "accepted" (stats run)
      ≤ get "total" (stats run') - get "total" (stats run)
    ∧ get "total" (stats run') - get "total" (stats run)
      ≤ Z.of_nat (length msgs).
Proof.
  revert run written.
  induction msgs as [|msg msgs IHm]; intros run written.
  { intros [= <- <- <-]. exists []. rewrite app_nil_r. simpl.
    repeat split; [done|lia..]. }
  rewrite main_loop_cons.
  destruct (process_message _ _ _ _ _ _ _ _ _) as [[[out|]|e] run1] eqn:Hpm;
    apply process_message_counts in Hpm as (Ht & Hu & Ha1 & Ha2 & _);
    cbn zeta in *.
  - destruct (to_bytes 4 (prb_id out)) as [bytes|] eqn:Hbytes.
    + intros Hloop.
      apply IHm in Hloop as (new & -> & Hkeys & Hu' & Hua & Hat & Htl).
      exists ((bytes, out) :: new). rewrite <- app_assoc.
      split; [done|]. split; [by constructor|].
      rewrite !length_cons.
      destruct (filtered_out msg msm_ids (int_ids <$> prb_ids)) as [[]|];
        repeat split; lia.
    + intros [= <- <- <-]. exists []. rewrite app_nil_r. split; [done|].
      split; [done|]. rewrite length_cons. simpl length.
      destruct (filtered_out msg msm_ids (int_ids <$> prb_ids)) as [[]|];
        repeat split; lia.
  - intros Hloop.
    apply IHm in Hloop as (new & -> & Hkeys & Hu' & Hua & Hat & Htl).
    exists new. split; [done|]. split; [done|].
    rewrite length_cons.
    destruct (filtered_out msg msm_ids (int_ids <$> prb_ids)) as [[]|];
      repeat split; lia.
  - intros [= <- <- <-]. exists []. rewrite app_nil_r. split; [done|].
    split; [done|]. rewrite length_cons. simpl length.
    destruct (filtered_out msg msm_ids (int_ids <$> prb_ids)) as [[]|];
      repeat split; lia.
Qed.

End main_loop_counts.

(** ** The further properties on concrete hops and messages *)

(** A timeout repeated and moved in front changes nothing for the hop. *)
Lemma hop_replies_as_set_witness :
  process_hop lookup (with_replies hop_peer [answer "192.0.2.1"; timeout])
    stats0 SpecPath.empty =
  process_hop lookup
    (with_replies hop_peer [timeout; answer "192.0.2.1"; timeout])
    stats0 SpecPath.empty.
Proof.
  apply (hop_replies_as_set (H := SpecPath.ops) lookup hop_peer
           [answer "192.0.2.1"; timeout]
           [timeout; answer "192.0.2.1"; timeout]).
  intros reply. rewrite !elem_of_cons, !elem_of_nil. tauto.
Defined.

(** The hops after a send failure are not read. *)
Lemma hops_after_abort_ignored_witness :
  process_hops lookup ([hop_peer] ++ hop_error :: [hop_no_fields]) stats0
    SpecPath.empty =
  (Return true, incr "dnf" stats0,
   append "as|64500" "192.0.2.1" false SpecPath.empty).
Proof.
  apply (hops_after_abort_ignored (H := SpecPath.ops) lookup [hop_peer]
           hop_error [hop_no_fields] stats0 SpecPath.empty stats0).
  - vm_compute. reflexivity.
  - vm_compute. reflexivity.
Defined.

(** A message without probe id is counted before the [KeyError]. *)
Lemma total_counts_unfiltered_witness :
  get "total"
    (stats (process_message lookup get_dst_addr msg_no_prb_id 1000 None None
              None false run0).2) = get "total" (stats run0) + 1.
Proof.
  assert (Hw := total_counts_unfiltered (H := SpecPath.ops) lookup
                  get_dst_addr 1000 None None None msg_no_prb_id false run0).
  destruct Hw as [Hw _]. vm_compute in Hw |- *. exact Hw.
Defined.

(** Five messages, each accounted for. *)
Lemma run_accounts_for_total_witness :
  get "total" (stats run_of_five.1.2) - accounted (stats run_of_five.1.2) =
  get "total" (stats run0) - accounted (stats run0).
Proof.
  apply (run_accounts_for_total (H := SpecPath.ops) lookup get_dst_addr 1000
           None None None five false run0 [] run_of_five.1.2 run_of_five.2).
  - reflexivity.
  - vm_compute. reflexivity.
Defined.

(** A record, and then the lost one: two used, one written. *)
Lemma run_counts_records_witness :
  ∃ new,
    main_run_overflowing.2 = [] ++ new
    ∧ Forall (λ record, to_bytes 4 (prb_id record.2) = Some record.1) new
    ∧ get "used" (stats main_run_overflowing.1.2) =
      get "used" (stats run0) + Z.of_nat (length new)
      + (match main_run_overflowing.1.1 with OverflowError => 1 | _ => 0 end)
    ∧ get "used" (stats main_run_overflowing.1.2) - get "used" (stats run0)
      ≤ get "accepted" (stats main_run_overflowing.1.2)
        - get "accepted" (stats run0)
    ∧ get "accepted" (stats main_run_overflowing.1.2)
      - get "accepted" (stats run0)
      ≤ get "total" (stats main_run_overflowing.1.2) - get "total" (stats run0)
    ∧ get "total" (stats main_run_overflowing.1.2) - get "total" (stats run0)
      ≤ Z.of_nat (length overflowing).
Proof.
  apply (run_counts_records (H := SpecPath.ops) lookup get_dst_addr 1000 None
           None overflowing None false run0 []
           main_run_overflowing.1.1 main_run_overflowing.1.2
           main_run_overflowing.2).
  vm_compute. reflexivity.
Defined.

(** Two messages read, none used: the summary fails. *)
Lemma print_stats_after_run_witness :
  print_stats (stats run_nothing_used.1.2) = Raise ZeroDivisionError
  ↔ 0 < get "total" (stats run_nothing_used.1.2) ∧ run_nothing_used.2 = [].
Proof.
  apply (print_stats_after_run (H := SpecPath.ops) lookup get_dst_addr 1000
           None None None [msg_dnf; msg_no_from] false run_nothing_used.1.1).
  vm_compute. reflexivity.
Defined.

(** The record of the first example message. *)
Lemma record_fields_witness :
  ∃ out,
    (process_message lookup get_dst_addr msg_ok 1000 None None None false
       run0).1 = Return (Some out)
    ∧ peer_address out = "192.0.2.1" ∧ peer_asn out = "64500"
    ∧ prefix out = "198.51.100.0/24" ∧ prb_id out = 42.
Proof.
  pose proof (record_fields (H := SpecPath.ops) lookup get_dst_addr 1000 None
                None None msg_ok false run0) as Hw.
  destruct (process_message lookup get_dst_addr msg_ok 1000 None None None
              false run0) as [[[out|]|e] run'] eqn:Hpm;
    [|vm_compute in Hpm; discriminate..].
  exists out. split; [reflexivity|].
  destruct (Hw out run' eq_refl)
    as (_ & _ & _ & Hfrom & _ & Hasn & _ & Hprefix & _ & Hprb & _).
  change (m_from msg_ok) with (Some "192.0.2.1") in Hfrom.
  change (m_prb_id msg_ok) with (Some 42) in Hprb.
  injection Hfrom as Hfrom. injection Hprb as Hprb.
  split; [symmetry; exact Hfrom|].
  split; [etransitivity; [exact Hasn|];
          etransitivity; [apply (f_equal (ip2asn lookup)); symmetry;
                          exact Hfrom|reflexivity]|].
  split; [etransitivity; [exact Hprefix|reflexivity]|].
  symmetry. exact Hprb.
Defined.

(** The key of the lost record is seen, and is not the key written. *)
Lemma written_keys_unique_witness :
  ∃ new,
    main_run_overflowing.2 = [] ++ new
    ∧ NoDup ((λ record, record_key record.2) <$> main_run_overflowing.2)
    ∧ match main_run_overflowing.1.1 with
      | OverflowError =>
        ∃ lost,
          (lost ∉ seen_peer_prefixes run0)
          ∧ (lost ∉ ((λ record, record_key record.2)
                       <$> main_run_overflowing.2))
          ∧ ∀ key, key ∈ seen_peer_prefixes main_run_overflowing.1.2 ↔
                   key ∈ seen_peer_prefixes run0
                   ∨ key ∈ ((λ record, record_key record.2) <$> new)
                   ∨ key = lost
      | _ =>
        ∀ key, key ∈ seen_peer_prefixes main_run_overflowing.1.2 ↔
               key ∈ seen_peer_prefixes run0
               ∨ key ∈ ((λ record, record_key record.2) <$> new)
      end.
Proof.
  apply (written_keys_unique (H := SpecPath.ops) lookup get_dst_addr 1000
           None None overflowing None run0 []
           main_run_overflowing.1.1 main_run_overflowing.1.2).
  - vm_compute. reflexivity.
  - constructor.
  - by intros record ?%elem_of_nil.
Defined.

(** With duplicates allowed, the second message with the key is used. *)
Lemma duplicates_allowed_never_counted_witness :
  get "duplicate" (stats run_allowing_duplicates.1.2) =
  get "duplicate" (stats run0).
Proof.
  apply (duplicates_allowed_never_counted (H := SpecPath.ops) lookup
           get_dst_addr 1000 None None None [msg_ok; msg_ok_again] run0 []
           run_allowing_duplicates.1.1 run_allowing_duplicates.1.2
           run_allowing_duplicates.2).
  vm_compute. reflexivity.
Defined.

(** The probe of the first message, seen again from another address. *)
Lemma probe_address_recorded_witness :
  probe_ip_map
    (process_message lookup get_dst_addr msg_moved 1000 None None None false
       run_after_ok).2 = <[42 := "203.0.113.77"]> (probe_ip_map run_after_ok)
  ∧ get "changed_ip"
      (stats (process_message lookup get_dst_addr msg_moved 1000 None None
                None false run_after_ok).2) =
    get "changed_ip" (stats run_after_ok) + 1.
Proof.
  assert (Hw := probe_address_recorded (H := SpecPath.ops) lookup get_dst_addr
                  1000 None None None msg_moved false run_after_ok 42
                  "203.0.113.77" eq_refl eq_refl).
  vm_compute in Hw |- *. exact Hw.
Defined.

(** With the target AS 64501, no other AS becomes a scope. *)
Lemma scopes_of_run_witness :
  "64501" ∈ scopes (stats run0)
  ∨ ("64501" ≠ "0"
     ∧ (∀ t, Some "64501" = Some t → "64501" = t)
     ∧ ∃ msg, msg ∈ five ∧ "64501" = ip2asn lookup (get_dst_addr msg)).
Proof.
  apply (scopes_of_run (H := SpecPath.ops) lookup get_dst_addr 1000 None None
           (Some "64501") five false run0 [] run_on_target.1.1
           run_on_target.1.2 run_on_target.2 "64501").
  - vm_compute. reflexivity.
  - by_evaluation.
Defined.

(** Two probe ids as a string. *)
Lemma read_probes_csv_witness :
  probe_filter no_pickle (Some "42,43") = Some (read_probes no_pickle "42,43")
  ∧ int_ids (read_probes no_pickle "42,43") = ∅
  ∧ read_probes no_pickle "42,43" = list_to_set [Str "42"; Str "43"].
Proof.
  destruct (read_probes_csv no_pickle "42,43")
    as (_ & Hfilter & Hint & _ & Hfields); [vm_compute; reflexivity|].
  split; [exact Hfilter|]. split; [exact Hint|].
  apply (Hfields ["42"; "43"]); [discriminate| |reflexivity].
  repeat constructor.
Defined.

(** The loop of [main] over the five messages. *)
Lemma main_loop_writes_encoded_keys_witness :
  main_loop lookup get_dst_addr five 1000 None None None false run0
    (with_key_bytes []) =
  match read_loop lookup get_dst_addr five 1000 None (int_ids <$> None) None
          false run0 [] with
  | (r, run', written') => (loop_end r, run', with_key_bytes written')
  end.
Proof.
  apply (main_loop_writes_encoded_keys (H := SpecPath.ops) lookup get_dst_addr
           1000 None None five None false run0 []).
  unfold five.
  repeat (apply List.Forall_cons;
          [intros k Hk; cbv in Hk;
           first [discriminate | injection Hk as <-; by_evaluation]|]).
  apply List.Forall_nil.
Defined.

(** The five messages under a probe filter given as a string. *)
Lemma csv_probe_filter_excludes_integer_ids_witness :
  main_loop lookup get_dst_addr five 1000 None
    (probe_filter no_pickle (Some "42,43")) None false run0 [] =
  (Finished, run0, []).
Proof.
  apply (csv_probe_filter_excludes_integer_ids (H := SpecPath.ops) lookup
           get_dst_addr 1000 None None no_pickle "42,43" five false run0 []).
  - vm_compute. reflexivity.
  - repeat constructor; eauto.
Defined.

(** A record whose probe id needs five bytes. *)
Lemma key_overflow_ends_run_witness :
  main_loop lookup get_dst_addr [msg_big_probe; msg_ok] 1000 None None None
    false run0 [] =
  (OverflowError,
   (process_message lookup get_dst_addr msg_big_probe 1000 None None None false
      run0).2, [])
  ∧ get "used"
      (stats (process_message lookup get_dst_addr msg_big_probe 1000 None None
                None false run0).2) = get "used" (stats run0) + 1
  ∧ ("192.0.2.1", "198.51.100.0/24")
    ∈ seen_peer_prefixes
        (process_message lookup get_dst_addr msg_big_probe 1000 None None None
           false run0).2.
Proof.
  assert (Hw := key_overflow_ends_run (H := SpecPath.ops) lookup get_dst_addr
                  1000 None None msg_big_probe [msg_ok] None false run0 []
                  4294967296 eq_refl ltac:(right; by_evaluation)).
  vm_compute in Hw |- *. exact Hw.
Defined.

(** The run that ends on a key, against the messages processed in order. *)
Lemma main_loop_reads_as_read_loop_witness :
  match main_run_overflowing.1.1 with
  | OverflowError =>
    ∃ before msg after returned' data,
      overflowing = before ++ msg :: after
      ∧ read_loop lookup get_dst_addr (before ++ [msg]) 1000 None
          (int_ids <$> None) None false run0 []
        = (Return (), main_run_overflowing.1.2,
           returned' ++ [(prb_id data, data)])
      ∧ main_run_overflowing.2 = with_key_bytes returned'
      ∧ (prb_id data < 0 ∨ 256 ^ 4 ≤ prb_id data)
  | _ =>
    ∃ r returned',
      read_loop lookup get_dst_addr overflowing 1000 None (int_ids <$> None)
        None false run0 []
      = (r, main_run_overflowing.1.2, returned')
      ∧ main_run_overflowing.1.1 = loop_end r
      ∧ main_run_overflowing.2 = with_key_bytes returned'
  end.
Proof.
  apply (main_loop_reads_as_read_loop (H := SpecPath.ops) lookup get_dst_addr
           1000 None None overflowing None false run0 []
           main_run_overflowing.1.1 main_run_overflowing.1.2
           main_run_overflowing.2).
  vm_compute. reflexivity.
Defined.

(** C1 fails as stated: a hop without 'error' and 'result', a message
    without 'result' and a message without 'prb_id' each make
    [process_message] raise [KeyError], and the loop of [main] ends there:
    the message that follows is never read and nothing is written. *)
Lemma missing_field_raises :
  (process_message lookup get_dst_addr msg_hop_no_fields 1000 None None None
     false run0).1 = Raise (KeyError "result")
  ∧ (process_message lookup get_dst_addr msg_no_result 1000 None None None
       false run0).1 = Raise (KeyError "result")
  ∧ (process_message lookup get_dst_addr msg_no_prb_id 1000 None None None
       false run0).1 = Raise (KeyError "prb_id")
  ∧ (main_loop lookup get_dst_addr [msg_hop_no_fields; msg_ok] 1000
       None None None false run0 []).1.1 = Escaped (KeyError "result")
  ∧ (main_loop lookup get_dst_addr [msg_hop_no_fields; msg_ok] 1000
       None None None false run0 []).2 = [].
Proof. conjuncts; vm_compute; reflexivity. Qed.

(** A run over messages that carry their fields finishes; a message with
    neither 'prb_id' nor 'from' is dropped; the hop without fields, reached
    after a hop that lets the path go on, raises. *)
Lemma missing_field_ends_run_witness :
  (main_loop lookup get_dst_addr [msg_dnf; msg_no_from; msg_ok] 1000 None None
     None false run0 []).1.1 = Finished
  ∧ (process_message lookup get_dst_addr msg_no_ids 1000 None None None false
       run0).1 = Return None
  ∧ (process_message lookup get_dst_addr msg_hop_no_fields 1000 None None None
       false run0).1 = Raise (KeyError "result").
Proof.
  destruct (missing_field_ends_run (H := SpecPath.ops) lookup get_dst_addr
              1000 None None [msg_dnf; msg_no_from; msg_ok] None false run0 [])
    as (Hraises & Hdropped & _ & _ & Hfinishes).
  split; [|split].
  - apply Hfinishes.
    repeat (apply List.Forall_cons;
            [split;
             [vm_compute; reflexivity
             |intros k Hk; cbv in Hk; injection Hk as <-; by_evaluation]|]).
    apply List.Forall_nil.
  - apply Hdropped; [exact I|vm_compute; reflexivity].
  - apply Hraises. right; right. split; [vm_compute; reflexivity|].
    right. split; [by eexists|]. split; [reflexivity|]. right.
    exists [hop_peer], hop_no_fields, []. split; [reflexivity|].
    split; vm_compute; reflexivity.
Defined.
